(** * Layout and interaction-state engine of the dependency-graph dashboard

    A shallow embedding of [src/graph_builder.py] (class [GraphBuilder]) and of
    the rendering callback of [src/callbacks.py] that calls it.

    Modelling conventions.
    - Python [str] is [string]; a character is one code point below 256, so
      [String.length] is Python's [len].
    - Python [float]: the coordinates and sizes of the layout are exact
      rationals [Q], with the constants of the source (0.7, 3.4, ...) the
      decimal fractions written there, so the geometry is stated without
      rounding.  Where the program turns floats into an integer or a truth
      value, the floats are IEEE 754 binary64 values, Rocq's primitive
      [float], and the constants are the doubles nearest to the literals of
      the source: so in the channel blend of [_adjust_brightness], and in the
      collision test and its retry loop, which are written over both
      arithmetics (class [Number]).  What the test decides is stated in
      binary64; position assignment as a whole runs it in [Q], like the rest
      of the geometry.
    - What the program takes from its environment is a parameter of the
      model: the reading of the clock, the order in which Python iterates
      over a set of strings, and which strings plotly reads as colours.
    - Python [set] is stdpp's [gset]; a [dict] that is only looked up is a
      [gmap]; a [dict] whose iteration order or float keys matter is an
      association list in insertion order.
    - An exception is a value of [Result]: [Raise e] aborts the computation.
    - The pandas tables are lists of rows in table order. *)

From Stdlib Require Import ZArith QArith Qabs Qround List String Ascii Bool Lia.
From Stdlib Require Import DecimalString Lqa.
From Stdlib Require Floats.PrimFloat Floats.SpecFloat Floats.FloatOps.
From stdpp Require Import base decidable option gmap strings sets.

Import ListNotations.
Local Open Scope string_scope.
Local Open Scope list_scope.
Local Open Scope Z_scope.

#[local] Arguments String.append !s1 s2 : simpl nomatch.
#[local] Set Warnings "-clear-no-such-hyp".
#[local] Set Warnings "-inexact-float".

(** ** Exceptions *)

Inductive Exn : Type :=
| KeyError (key : string)
| IndexError (what : string)
| ValueError (what : string)
| OverflowError (what : string).

Inductive Result (A : Type) : Type :=
| Ok (a : A)
| Raise (e : Exn).

Arguments Ok {A} a.
Arguments Raise {A} e.

#[global] Instance Result_ret : MRet Result := fun _ a => Ok a.

#[global] Instance Result_bind : MBind Result := fun _ _ k m =>
  match m with
  | Ok a => k a
  | Raise e => Raise e
  end.

(** [for x in xs: acc = body(acc, x)], stopping at the first exception. *)
Fixpoint for_each {A S : Type} (body : S -> A -> Result S) (xs : list A) (acc : S)
  : Result S :=
  match xs with
  | [] => Ok acc
  | x :: rest => acc' ← body acc x; for_each body rest acc'
  end.

(** A [dict] lookup [d[k]] that raises [KeyError] on a missing key. *)
Definition getitem {V : Type} (d : gmap string V) (k : string) : Result V :=
  match d !! k with
  | Some v => Ok v
  | None => Raise (KeyError k)
  end.

(** Truth value of an [Optional[str]]: [None] and [""] are false. *)
Definition truthy (o : option string) : bool :=
  match o with
  | Some s => negb (String.eqb s "")
  | None => false
  end.

(** ** Strings *)

Module Str.

(** [str.isspace] on one character, for code points below 256. *)
Definition isspace (c : ascii) : bool :=
  let n := nat_of_ascii c in
  ((9 <=? n) && (n <=? 13) || (28 <=? n) && (n <=? 32)
   || (n =? 133) || (n =? 160))%nat.

Definition starts_word (s : string) : bool :=
  match s with
  | String c _ => negb (isspace c)
  | EmptyString => false
  end.

(** [text.split()]: the maximal runs of non-whitespace characters. *)
Fixpoint split (s : string) : list string :=
  match s with
  | EmptyString => []
  | String c rest =>
      if isspace c then split rest
      else if starts_word rest then
        match split rest with
        | w :: ws => String c w :: ws
        | [] => [String c EmptyString]
        end
      else String c EmptyString :: split rest
  end.

(** [sep.join(parts)]. *)
Definition join (sep : string) (parts : list string) : string :=
  String.concat sep parts.

(** [s[:n]] and [s[n:]] for [0 <= n]. *)
Definition take (n : nat) (s : string) : string := substring 0 n s.
Definition drop (n : nat) (s : string) : string := substring n (String.length s - n) s.

(** [s.split(sep, 1)] for a one-character separator that occurs in [s]:
    the text before the first occurrence and the text after it. *)
Fixpoint split_once (sep : ascii) (s : string) : option (string * string) :=
  match s with
  | EmptyString => None
  | String c rest =>
      if Ascii.eqb c sep then Some (EmptyString, rest)
      else match split_once sep rest with
           | Some (a, b) => Some (String c a, b)
           | None => None
           end
  end.

(** [s.split(sep)] for a non-empty separator string. *)
Fixpoint split_on (sep : string) (s : string) (fuel : nat) : list string :=
  match fuel with
  | O => [s]
  | S fuel' =>
      match s with
      | EmptyString => [EmptyString]
      | String c rest =>
          if String.prefix sep s
          then EmptyString :: split_on sep (drop (String.length sep) s) fuel'
          else match split_on sep rest fuel' with
               | w :: ws => String c w :: ws
               | [] => [String c EmptyString]
               end
      end
  end.

Definition nonempty (s : string) : bool := negb (String.eqb s "").

(** Every whitespace character of [s] is a single blank followed by a
    non-whitespace character. *)
Fixpoint blanks_single (s : string) : bool :=
  match s with
  | EmptyString => true
  | String c rest =>
      if isspace c
      then Ascii.eqb c " " && starts_word rest && blanks_single rest
      else blanks_single rest
  end.

(** [s] is a sequence of words separated by single blanks, with no
    whitespace at either end. *)
Definition single_spaced (s : string) : bool :=
  (negb (nonempty s) || starts_word s) && blanks_single s.

End Str.

(** ** Label wrapper *)

(** State of the wrapping loop: the finished [lines] and [current_line]. *)
Record WrapState := { lines : list string; current_line : string }.

Definition wrap_step (target_chars : nat) (st : WrapState) (word : string) : WrapState :=
  let current := current_line st in
  let test_line := current +:+ (if Str.nonempty current then " " else "") +:+ word in
  if (String.length test_line <=? target_chars)%nat then
    {| lines := lines st; current_line := test_line |}
  else if Str.nonempty current then
    {| lines := lines st ++ [current]; current_line := word |}
  else if (target_chars <? String.length word)%nat then
    let force_break :=
      {| lines := lines st ++ [Str.take (target_chars - 1) word +:+ "-"];
         current_line := Str.drop (target_chars - 1) word |} in
    match Str.split_once "-"%char word with
    | Some (head, tail) =>
        if (String.length head <=? target_chars - 1)%nat then
          {| lines := lines st ++ [head +:+ "-"]; current_line := tail |}
        else force_break
    | None => force_break
    end
  else {| lines := lines st; current_line := word |}.

Definition _wrap_label_intelligently (text : string) : string * Z :=
  if negb (Str.nonempty text) then ("", 1) else
  let words := Str.split text in
  match words with
  | [] => ("", 1)
  | _ =>
      let total_chars := String.length text in
      let target_chars :=
        if (total_chars <=? 15)%nat then total_chars
        else if (total_chars <=? 30)%nat then 16%nat
        else 18%nat in
      let st := fold_left (wrap_step target_chars) words
                  {| lines := []; current_line := "" |} in
      let lines1 :=
        if Str.nonempty (current_line st) then lines st ++ [current_line st]
        else lines st in
      let lines2 := match lines1 with [] => [""] | _ => lines1 end in
      (Str.join "<br>" lines2, Z.of_nat (length lines2))
  end.

(** ** Numbers *)

(** Python's [int(x)] on a float: truncation toward zero. *)
Definition py_int (q : Q) : Z := Z.quot (Qnum q) (Z.pos (Qden q)).

(** ** Doubles

    Where a result of the program is an integer or a truth value that
    depends on how a float is rounded, the float is an IEEE 754 binary64
    value, Rocq's primitive [float], with the operations of the processor. *)

Module Float64.
Import PrimFloat SpecFloat FloatOps.
#[local] Open Scope float_scope.

(** The float literals of the source: each is the double nearest to the
    decimal fraction written there. *)
Definition c_0 : float := 0.
Definition c_1 : float := 1.
Definition c_2 : float := 2.
Definition c_0_3 : float := 0.3.
Definition c_neg_0_3 : float := -0.3.
Definition c_0_15 : float := 0.15.
Definition c_1_08 : float := 1.08.

(** An [int] used where a float is expected: the nearest double, which is
    the integer itself up to 2^53. *)
Definition of_int (z : Z) : float :=
  SF2Prim (binary_normalize prec emax z 0 false).

(** [int(x)]: truncation toward zero.  Infinities raise [OverflowError]
    and NaN raises [ValueError]. *)
Definition to_int (x : float) : Result Z :=
  match Prim2SF x with
  | S754_zero _ => Ok 0%Z
  | S754_finite sign m e =>
      let magnitude :=
        match e with
        | Z0 => Z.pos m
        | Zpos p => (Z.pos m * Z.pow_pos 2 p)%Z
        | Zneg p => (Z.pos m / Z.pow_pos 2 p)%Z
        end in
      Ok (if sign then (- magnitude)%Z else magnitude)
  | S754_infinity _ => Raise (OverflowError "cannot convert float infinity to integer")
  | S754_nan => Raise (ValueError "cannot convert float NaN to integer")
  end.

End Float64.

(** [str(n)] for an integer. *)
Definition str_of_Z (n : Z) : string := NilZero.string_of_int (Z.to_int n).

Definition Qlt_bool (a b : Q) : bool := negb (Qle_bool b a).

Definition Qmax (a b : Q) : Q := if Qle_bool a b then b else a.
Definition Qmin (a b : Q) : Q := if Qle_bool a b then a else b.

Definition Qsum (l : list Q) : Q := fold_left Qplus l 0%Q.

(** [np.mean]. *)
Definition mean (l : list Q) : Q := (Qsum l / inject_Z (Z.of_nat (length l)))%Q.

(** [np.linspace(start, stop, num)] for [num >= 2]: [start + i * step]. *)
Definition linspace (start stop : Q) (num : nat) : list Q :=
  let step := ((stop - start) / inject_Z (Z.of_nat num - 1))%Q in
  map (fun i => (start + inject_Z (Z.of_nat i) * step)%Q) (seq 0 num).

(** [np.isclose(a, b)] with the default tolerances. *)
Definition isclose (a b : Q) : bool :=
  Qle_bool (Qabs (a - b)) (1e-8 + 1e-5 * Qabs b)%Q.

(** ** Colours *)

Definition hex_digit (c : ascii) : option Z :=
  let n := Z.of_nat (nat_of_ascii c) in
  if (48 <=? n) && (n <=? 57) then Some (n - 48)
  else if (65 <=? n) && (n <=? 70) then Some (n - 55)
  else if (97 <=? n) && (n <=? 102) then Some (n - 87)
  else None.

(** The characters that [int] skips at either end of its argument. *)
Definition int_space (c : ascii) : bool :=
  let n := nat_of_ascii c in
  ((9 <=? n) && (n <=? 13) || (n =? 32) || (n =? 133) || (n =? 160))%nat.

Fixpoint lstrip_space (s : string) : string :=
  match s with
  | String c rest => if int_space c then lstrip_space rest else s
  | EmptyString => s
  end.

Fixpoint rstrip_space (s : string) : string :=
  match s with
  | String c rest =>
      match rstrip_space rest with
      | EmptyString => if int_space c then EmptyString else String c EmptyString
      | rest' => String c rest'
      end
  | EmptyString => s
  end.

(** Hexadecimal digits, single underscores allowed between them: the value
    read so far is [acc]; [after_digit] tells whether the last character
    was a digit. *)
Fixpoint hex_digits (s : string) (acc : Z) (after_digit : bool) : option Z :=
  match s with
  | EmptyString => if after_digit then Some acc else None
  | String c rest =>
      if Ascii.eqb c "_" then
        if after_digit then hex_digits rest acc false else None
      else
        match hex_digit c with
        | Some d => hex_digits rest (16 * acc + d) true
        | None => None
        end
  end.

(** What follows the sign: an optional [0x] or [0X], after which one
    underscore may stand, and the digits. *)
Definition hex_magnitude (s : string) : option Z :=
  match s with
  | String "0"%char (String x rest) =>
      if Ascii.eqb x "x" || Ascii.eqb x "X" then
        match rest with
        | String "_"%char rest' => hex_digits rest' 0 false
        | _ => hex_digits rest 0 false
        end
      else hex_digits s 0 false
  | _ => hex_digits s 0 false
  end.

(** [int(s, 16)]. *)
Definition int16 (s : string) : Result Z :=
  let body := rstrip_space (lstrip_space s) in
  let parsed :=
    match body with
    | String "+"%char rest => hex_magnitude rest
    | String "-"%char rest => option_map Z.opp (hex_magnitude rest)
    | _ => hex_magnitude body
    end in
  match parsed with
  | Some n => Ok n
  | None => Raise (ValueError s)
  end.

(** [hex_color.lstrip("#")]. *)
Fixpoint lstrip_hash (s : string) : string :=
  match s with
  | String c rest => if Ascii.eqb c "#" then lstrip_hash rest else s
  | EmptyString => s
  end.

(** The two lambdas [blend] of [_adjust_brightness]; [c] is an [int], the
    products and sums are float operations. *)
Definition blend (shift : PrimFloat.float) (c : Z) : Result Z :=
  if PrimFloat.ltb Float64.c_0 shift
  then Float64.to_int
         (PrimFloat.add (Float64.of_int c)
            (PrimFloat.mul (Float64.of_int (255 - c)) shift))
  else Float64.to_int
         (PrimFloat.mul (Float64.of_int c) (PrimFloat.add Float64.c_1 shift)).

Definition rgb_string (r g b : Z) : string :=
  "rgb(" +:+ str_of_Z r +:+ "," +:+ str_of_Z g +:+ "," +:+ str_of_Z b +:+ ")".

Definition _adjust_brightness (hex_color : string) (shift : PrimFloat.float)
  : Result string :=
  let hex_color := lstrip_hash hex_color in
  r ← int16 (substring 0 2 hex_color);
  g ← int16 (substring 2 2 hex_color);
  b ← int16 (substring 4 2 hex_color);
  r' ← blend shift r;
  g' ← blend shift g;
  b' ← blend shift b;
  Ok (rgb_string r' g' b').

Definition BRIGHTNESS_MAP : gmap Z PrimFloat.float :=
  {[ 2 := Float64.c_0_3; 3 := Float64.c_0; 4 := Float64.c_neg_0_3 ]}.

Definition TIER_LABEL_MAP : gmap Z string :=
  {[ 1 := "Optimizer"; 2 := "Optimizer"; 3 := "Partial Blocker"; 4 := "Blocker" ]}.

Definition edge_base_color (xu xv : Z) : string :=
  let tier_pair : gset Z := {[ xu; xv ]} in
  if bool_decide (tier_pair = {[ 1; 2 ]}) then "#4A90E2"
  else if bool_decide (tier_pair = {[ 1; 3 ]}) || bool_decide (tier_pair = {[ 2; 3 ]})
  then "#72CBE2"
  else if bool_decide (tier_pair ∩ {[ 1; 2; 3 ]} ≠ ∅) && bool_decide (4 ∈ tier_pair)
  then "#A680B8"
  else "#4A90E2".

Definition _get_edge_color (xu xv tier : Z) : Result string :=
  let base_color := edge_base_color xu xv in
  let brightness_shift := default Float64.c_0 (BRIGHTNESS_MAP !! tier) in
  _adjust_brightness base_color brightness_shift.

(** A colour text of six hexadecimal digits. *)
Definition hex6 (s : string) : bool :=
  (String.length s =? 6)%nat
  && forallb (fun c => match hex_digit c with Some _ => true | None => false end)
             (list_ascii_of_string s).

(** ** Tables *)

(** A row of the domain table, after [LayoutBuilder._apply_tier_mapping] has
    added the [X_GROUP] column (1 Foundational .. 4 Compilatory). *)
Record NodeRow := {
  DOMAIN_ID : string;
  DOMAIN_NAME : string;
  X_GROUP : Z;
  CURRENT_MATURITY : Q;
  CATEGORY : string;
  COLOR_HEX : string;
  BORDER_HEX : string
}.

(** A row of the dependency table. *)
Record EdgeRow := {
  SOURCE_DOMAIN_ID : string;
  TARGET_DOMAIN_ID : string;
  WEIGHT : Q;
  TIER : Z;
  DESCRIPTION : string
}.

Module LayoutConfig.
Definition x_spacing : Q := 3.4.
Definition local_y_spacing : Q := 0.7.
Definition tier_vertical_gap : Q := 0.6.
Definition corner_radius : Q := 0.06.
End LayoutConfig.

(** Keys in ascending order, as [sorted(self.TIER_BAND_COLORS)] yields them. *)
Definition TIER_BAND_COLORS : list (Q * string) :=
  [ (1.0%Q, "#fde2e2"); (1.5%Q, "#ffeeba"); (2.0%Q, "#fff9c4") ].

(** [(width, height, wrapped_label)] per domain id. *)
Record GraphBuilder := {
  nodes_df : list NodeRow;
  edges_df : list EdgeRow;
  sigmoid_steepness : Q;
  node_dimensions : gmap string (Q * Q * string)
}.

(** ** Sorting and grouping *)

Section Sorting.
Context {A : Type} (le : A -> A -> bool).

Fixpoint insert_sorted (x : A) (l : list A) : list A :=
  match l with
  | [] => [x]
  | y :: rest => if le x y then x :: l else y :: insert_sorted x rest
  end.

(** Stable insertion sort: rows with equal keys keep their table order. *)
Definition sort_by (l : list A) : list A := fold_right insert_sorted [] l.
End Sorting.

(** [Series.unique()]: the distinct values in order of first appearance. *)
Fixpoint unique (l : list Z) : list Z :=
  match l with
  | [] => []
  | x :: rest => x :: List.filter (fun y => negb (Z.eqb y x)) (unique rest)
  end.

(** The groups of [df.groupby("X_GROUP")]: keys ascending, rows in table order. *)
Definition groupby_x_group (df : list NodeRow) : list (Z * list NodeRow) :=
  map (fun k => (k, List.filter (fun row => Z.eqb (X_GROUP row) k) df))
      (sort_by Z.leb (unique (map X_GROUP df))).

(** ** Node dimensions *)

Definition longest_name (column_nodes : list NodeRow) : string :=
  fold_left
    (fun longest row =>
       if (String.length longest <? String.length (DOMAIN_NAME row))%nat
       then DOMAIN_NAME row else longest)
    column_nodes "".

Definition optimal_width (column_nodes : list NodeRow) : Q :=
  let name := longest_name column_nodes in
  if Str.nonempty name then
    let '(wrapped_text, line_count) := _wrap_label_intelligently name in
    let lines := Str.split_on "<br>" wrapped_text (S (String.length wrapped_text)) in
    let max_line_length := fold_right Nat.max 0%nat (map String.length lines) in
    let char_width := 0.07%Q in
    let padding := 0.25%Q in
    Qmin (Qmax 0.8 (inject_Z (Z.of_nat max_line_length) * char_width + padding)) 1.6
  else 0.9%Q.

Definition _calculate_optimal_column_widths (nodes : list NodeRow) : gmap Z Q :=
  fold_left
    (fun column_widths x_group =>
       let column_nodes := List.filter (fun row => Z.eqb (X_GROUP row) x_group) nodes in
       <[ x_group := optimal_width column_nodes ]> column_widths)
    (unique (map X_GROUP nodes)) ∅.

Definition _precalculate_node_dimensions (nodes : list NodeRow)
  : Result (gmap string (Q * Q * string)) :=
  let column_widths := _calculate_optimal_column_widths nodes in
  for_each
    (fun dimensions row =>
       match column_widths !! X_GROUP row with
       | None => Raise (KeyError (str_of_Z (X_GROUP row)))
       | Some node_width =>
           let '(wrapped_label, line_count) := _wrap_label_intelligently (DOMAIN_NAME row) in
           let base_height := 0.18%Q in
           let line_height := 0.12%Q in
           let total_height := (base_height + inject_Z line_count * line_height)%Q in
           Ok (<[ DOMAIN_ID row := (node_width, total_height, wrapped_label) ]> dimensions)
       end)
    nodes ∅.

(** [GraphBuilder.__init__]. *)
Definition GraphBuilder_init (nodes : list NodeRow) (edges : list EdgeRow)
    (steepness : Q) : Result GraphBuilder :=
  dims ← _precalculate_node_dimensions nodes;
  Ok {| nodes_df := nodes; edges_df := edges;
        sigmoid_steepness := steepness; node_dimensions := dims |}.

(** ** Position assignment *)

Definition _calculate_tier_offsets : list (Q * Q) :=
  map (fun '(idx, tier) =>
         (tier, inject_Z (Z.of_nat idx) * LayoutConfig.tier_vertical_gap * 6)%Q)
      (combine (seq 0 (length TIER_BAND_COLORS)) (map fst TIER_BAND_COLORS)).

Definition _calculate_y_grid (count : nat) (y_spacing : Q) : list Q :=
  if (count =? 1)%nat then [0%Q]
  else
    let y_grid := linspace 0 (inject_Z (Z.of_nat count - 1) * y_spacing) count in
    map (fun y => (y - mean y_grid)%Q) y_grid.

(** *** The arithmetic of the collision test

    The collision test and the retry loop compare and scale floats, so their
    answers depend on rounding.  They are written once, over the arithmetic
    they use: [binary64] is the arithmetic of the program, IEEE 754 double
    precision with the float literals of the source; [rational] is the same
    arithmetic without rounding, in which the geometry of the layout is
    stated. *)
Class Number (T : Type) : Type := {
  num_add : T -> T -> T;
  num_sub : T -> T -> T;
  num_mul : T -> T -> T;
  num_div : T -> T -> T;
  num_lt : T -> T -> bool;
  num_2 : T;
  num_0_15 : T;
  num_1_08 : T
}.

#[export] Instance rational : Number Q := {|
  num_add := Qplus;
  num_sub := Qminus;
  num_mul := Qmult;
  num_div := Qdiv;
  num_lt := Qlt_bool;
  num_2 := 2%Q;
  num_0_15 := 0.15%Q;
  num_1_08 := 1.08%Q
|}.

#[export] Instance binary64 : Number PrimFloat.float := {|
  num_add := PrimFloat.add;
  num_sub := PrimFloat.sub;
  num_mul := PrimFloat.mul;
  num_div := PrimFloat.div;
  num_lt := PrimFloat.ltb;
  num_2 := Float64.c_2;
  num_0_15 := Float64.c_0_15;
  num_1_08 := Float64.c_1_08
|}.

(** [used_y_coords]: a dict from [(x_group, y)] to the height placed there,
    in insertion order. *)
Definition UsedCoordsOf (T : Type) : Type := list ((Z * T) * T).

Abbreviation UsedCoords := (UsedCoordsOf Q).

Definition same_key (k1 k2 : Z * Q) : bool :=
  Z.eqb (fst k1) (fst k2) && Qeq_bool (snd k1) (snd k2).

(** [used[key] = height]: overwrite in place, or append a new entry. *)
Fixpoint used_set (used : UsedCoords) (key : Z * Q) (height : Q) : UsedCoords :=
  match used with
  | [] => [(key, height)]
  | (k, h) :: rest =>
      if same_key k key then (k, height) :: rest
      else (k, h) :: used_set rest key height
  end.

Section Collisions.
Context {T : Type} {number : Number T}.

Definition min_gap : T := num_0_15.

(** The overlap test of one new node against one placed node:
    [not (node_bottom > existing_top + min_gap
          or node_top < existing_bottom - min_gap)]. *)
Definition extents_overlap (y height existing_y existing_height : T) : bool :=
  let node_top := num_add y (num_div height num_2) in
  let node_bottom := num_sub y (num_div height num_2) in
  let existing_top := num_add existing_y (num_div existing_height num_2) in
  let existing_bottom := num_sub existing_y (num_div existing_height num_2) in
  negb (num_lt (num_add existing_top min_gap) node_bottom
        || num_lt node_top (num_sub existing_bottom min_gap)).

Definition _has_intelligent_collisions (y_positions heights : list T)
    (used_coords : UsedCoordsOf T) (current_x_group : Z) : bool :=
  existsb
    (fun '(y, height) =>
       existsb
         (fun '((x_group, existing_y), existing_height) =>
            Z.eqb x_group current_x_group
            && extents_overlap y height existing_y existing_height)
         used_coords)
    (combine y_positions heights).

(** The retry loop [for _ in range(attempts)]: returns the [y_grid] of the
    attempt that broke out of the loop, or of the last attempt.
    [calculate_y_grid] is the method [_calculate_y_grid] in the arithmetic
    at hand. *)
Fixpoint find_y_grid (calculate_y_grid : nat -> T -> list T)
    (attempts : nat) (count : nat) (y_spacing tier_offset : T)
    (heights : list T) (used : UsedCoordsOf T) (x_group : Z) (y_grid : list T)
  : list T :=
  match attempts with
  | O => y_grid
  | S attempts' =>
      let y_grid := calculate_y_grid count y_spacing in
      let y_positions := map (fun offset => num_add tier_offset offset) y_grid in
      if negb (_has_intelligent_collisions y_positions heights used x_group)
      then y_grid
      else find_y_grid calculate_y_grid attempts' count (num_mul y_spacing num_1_08)
                       tier_offset heights used x_group y_grid
  end.

(** The spacing tried at attempt [k] (counting from 0): 8% more each time. *)
Definition spacing_after (k : nat) (y_spacing : T) : T :=
  Nat.iter k (fun s => num_mul s num_1_08) y_spacing.

(** The collision test of one attempt, at spacing [y_spacing]. *)
Definition attempt_collides (calculate_y_grid : nat -> T -> list T)
    (count : nat) (tier_offset : T) (heights : list T)
    (used : UsedCoordsOf T) (x_group : Z) (y_spacing : T) : bool :=
  _has_intelligent_collisions
    (map (fun offset => num_add tier_offset offset) (calculate_y_grid count y_spacing))
    heights used x_group.

End Collisions.

Abbreviation Positions := (gmap string (Q * Q)).

(** The body of the loop over the buckets of one tier.  [sort_values] is
    modelled by a stable sort; pandas leaves the order of rows with equal
    names to its sorting routine. *)
Definition place_bucket (dims : gmap string (Q * Q * string)) (tier_offset : Q)
    (st : Positions * UsedCoords) (bucket : Z * list NodeRow)
  : Result (Positions * UsedCoords) :=
  let '(x_group, group) := bucket in
  let sorted_group :=
    sort_by (fun a b => String.leb (DOMAIN_NAME a) (DOMAIN_NAME b)) group in
  let count := length sorted_group in
  let y_spacing := LayoutConfig.local_y_spacing in
  group_heights ←
    for_each (fun acc row =>
                d ← getitem dims (DOMAIN_ID row);
                Ok (acc ++ [snd (fst d)]))
             sorted_group [];
  let y_grid :=
    find_y_grid _calculate_y_grid 15 count y_spacing tier_offset group_heights
                (snd st) x_group [] in
  Ok (fold_left
        (fun '(positions, used) '(offset, height, row) =>
           let x := (inject_Z x_group * LayoutConfig.x_spacing)%Q in
           let y := (tier_offset + offset)%Q in
           (<[ DOMAIN_ID row := (x, y) ]> positions, used_set used (x_group, y) height))
        (combine (combine y_grid group_heights) sorted_group)
        st).

(** The loop runs over the sorted tiers; each tier comes with its entry of
    [tier_offsets], which has exactly these tiers as keys. *)
Definition _assign_stacked_positions (self : GraphBuilder) : Result Positions :=
  st ← for_each
         (fun st '(tier, tier_offset) =>
            let tier_df :=
              List.filter (fun row => isclose (CURRENT_MATURITY row) tier) (nodes_df self) in
            for_each (place_bucket (node_dimensions self) tier_offset)
                     (groupby_x_group tier_df) st)
         _calculate_tier_offsets (∅, []);
  Ok (fst st).

(** ** The directed graph *)

(** The attribute dict of a node.  [glow] and [opacity] are absent until
    [_apply_node_styles] has run. *)
Record NodeAttrs := {
  label : string;
  wrapped_label : string;
  category : string;
  color : string;
  border : string;
  original_border : string;
  pos : Q * Q;
  width : Q;
  height : Q;
  glow : option bool;
  opacity : option Q
}.

Record EdgeData := {
  weight : Q;
  tier : Z;
  description : string
}.

Definition Edge : Type := string * string * EdgeData.

(** [nx.DiGraph]: nodes in insertion order, each with its attribute dict
    ([None] is the empty dict of a node that only [add_edge] created); one
    entry per ordered pair of endpoints, in order of first insertion. *)
Record DiGraph := {
  g_nodes : list (string * option NodeAttrs);
  g_edges : list Edge
}.

Module DiGraph.

Definition empty : DiGraph := {| g_nodes := []; g_edges := [] |}.

Definition node_ids (G : DiGraph) : list string := map fst (g_nodes G).

(** [n in G.nodes]. *)
Definition has_node (G : DiGraph) (n : string) : bool :=
  existsb (String.eqb n) (node_ids G).

(** [set(G.nodes)]. *)
Definition node_set (G : DiGraph) : gset string := list_to_set (node_ids G).

Fixpoint set_attrs (nodes : list (string * option NodeAttrs)) (n : string)
    (a : option NodeAttrs) : list (string * option NodeAttrs) :=
  match nodes with
  | [] => [(n, a)]
  | (m, b) :: rest =>
      if String.eqb m n then (m, a) :: rest else (m, b) :: set_attrs rest n a
  end.

(** [G.add_node(n, **attrs)] with a full set of attributes. *)
Definition add_node (G : DiGraph) (n : string) (a : NodeAttrs) : DiGraph :=
  {| g_nodes := set_attrs (g_nodes G) n (Some a); g_edges := g_edges G |}.

(** A node that [add_edge] meets for the first time gets an empty dict. *)
Definition touch_node (nodes : list (string * option NodeAttrs)) (n : string)
  : list (string * option NodeAttrs) :=
  if existsb (String.eqb n) (map fst nodes) then nodes else nodes ++ [(n, None)].

Fixpoint set_edge (edges : list Edge) (u v : string) (d : EdgeData) : list Edge :=
  match edges with
  | [] => [(u, v, d)]
  | (u', v', d') :: rest =>
      if String.eqb u' u && String.eqb v' v then (u', v', d) :: rest
      else (u', v', d') :: set_edge rest u v d
  end.

(** [G.add_edge(u, v, **data)]: a second edge between the same endpoints
    replaces the data of the first. *)
Definition add_edge (G : DiGraph) (u v : string) (d : EdgeData) : DiGraph :=
  {| g_nodes := touch_node (touch_node (g_nodes G) u) v;
     g_edges := set_edge (g_edges G) u v d |}.

(** [G.nodes[n]]. *)
Fixpoint attrs_of (nodes : list (string * option NodeAttrs)) (n : string)
  : option NodeAttrs :=
  match nodes with
  | [] => None
  | (m, a) :: rest => if String.eqb m n then a else attrs_of rest n
  end.

(** [G.nodes[n][key]] for a key that [_build_networkx_graph] sets. *)
Definition node_attrs (G : DiGraph) (n : string) (key : string) : Result NodeAttrs :=
  match attrs_of (g_nodes G) n with
  | Some a => Ok a
  | None => Raise (KeyError (if has_node G n then key else n))
  end.

(** [G.out_edges(n)] and [G.in_edges(n)] for a node of the graph, with the
    edge data [G[u][v]] attached. *)
Definition out_edges (G : DiGraph) (n : string) : list Edge :=
  List.filter (fun '(u, v, _) => String.eqb u n) (g_edges G).

Definition in_edges (G : DiGraph) (n : string) : list Edge :=
  List.filter (fun '(u, v, _) => String.eqb v n) (g_edges G).

(** [G.edges(data=True)]: by source node in node order. *)
Definition edges (G : DiGraph) : list Edge :=
  flat_map (out_edges G) (node_ids G).

(** [nx.get_node_attributes(G, "pos")]. *)
Definition get_pos (G : DiGraph) : gmap string (Q * Q) :=
  fold_left
    (fun acc '(n, a) =>
       match a with
       | Some a => <[ n := pos a ]> acc
       | None => acc
       end)
    (g_nodes G) ∅.

End DiGraph.

Definition source (e : Edge) : string := fst (fst e).
Definition target (e : Edge) : string := snd (fst e).
Definition data (e : Edge) : EdgeData := snd e.

Definition _build_networkx_graph (self : GraphBuilder) (positions : Positions)
  : Result DiGraph :=
  G ← for_each
        (fun G row =>
           d ← getitem (node_dimensions self) (DOMAIN_ID row);
           let '(width, height, wrapped_label) := d in
           p ← getitem positions (DOMAIN_ID row);
           Ok (DiGraph.add_node G (DOMAIN_ID row)
                 {| label := DOMAIN_NAME row;
                    wrapped_label := wrapped_label;
                    category := CATEGORY row;
                    color := COLOR_HEX row;
                    border := BORDER_HEX row;
                    original_border := BORDER_HEX row;
                    pos := p;
                    width := width;
                    height := height;
                    glow := None;
                    opacity := None |}))
        (nodes_df self) DiGraph.empty;
  Ok (fold_left
        (fun G row =>
           DiGraph.add_edge G (SOURCE_DOMAIN_ID row) (TARGET_DOMAIN_ID row)
             {| weight := WEIGHT row; tier := TIER row;
                description := DESCRIPTION row |})
        (edges_df self) G).

(** ** Interaction state *)

Definition reset_hover (hovered : option string) : option string :=
  match hovered with
  | Some h => if String.eqb h "RESET" then None else hovered
  | None => None
  end.

Definition is_all (selected : option string) : bool :=
  match selected with
  | Some s => String.eqb s "All"
  | None => false
  end.

Definition is_none (o : option string) : bool :=
  match o with
  | Some _ => false
  | None => true
  end.

(** [x and x in G.nodes], yielding the node. *)
Definition node_in (G : DiGraph) (x : option string) : option string :=
  match x with
  | Some n => if truthy x && DiGraph.has_node G n then Some n else None
  | None => None
  end.

Definition _determine_interaction_state (G : DiGraph) (selected hovered : option string)
    (mode : string) : gset string * gset string * gset string :=
  let hovered := reset_hover hovered in
  if String.eqb mode "filter" && (is_none selected || is_all selected) then (∅, ∅, ∅)
  else
    let '(highlight_nodes, secondary_nodes) :=
      match node_in G selected with
      | Some s =>
          ({[ s ]} : gset string,
           (list_to_set (map target (DiGraph.out_edges G s))
            ∪ list_to_set (map source (DiGraph.in_edges G s)) : gset string))
      | None => (∅, ∅)
      end in
    let highlight_nodes :=
      match node_in G hovered with
      | Some h =>
          if bool_decide (hovered ≠ selected) then highlight_nodes ∪ {[ h ]}
          else highlight_nodes
      | None => highlight_nodes
      end in
    let dim_nodes : gset string :=
      if String.eqb mode "filter" then
        DiGraph.node_set G ∖ highlight_nodes ∖ secondary_nodes
      else if String.eqb mode "interactive" && truthy selected then
        DiGraph.node_set G ∖ highlight_nodes ∖ secondary_nodes
      else ∅ in
    (highlight_nodes, secondary_nodes, dim_nodes).

Record NodeStyle := {
  style_glow : bool;
  style_opacity : Q;
  style_border : string;
  style_original_border : string
}.

(** The style that the loop body of [_apply_node_styles] computes for [node]. *)
Definition node_style (node : string) (a : NodeAttrs) (selected hovered : option string)
    (dim_nodes : gset string) : NodeStyle :=
  let style :=
    {| style_glow := false; style_opacity := 1.0;
       style_border := original_border a;
       style_original_border := original_border a |} in
  let style :=
    if bool_decide (Some node = selected)
    then {| style_glow := style_glow style; style_opacity := 1.0;
            style_border := "#000000";
            style_original_border := style_original_border style |}
    else style in
  let style :=
    if bool_decide (Some node = hovered)
    then {| style_glow := true; style_opacity := style_opacity style;
            style_border :=
              if bool_decide (Some node ≠ selected) then "#FFD700"
              else style_border style;
            style_original_border := style_original_border style |}
    else style in
  if bool_decide (dim_nodes ≠ ∅) && bool_decide (node ∈ dim_nodes)
  then {| style_glow := style_glow style; style_opacity := 0.2;
          style_border := style_border style;
          style_original_border := style_original_border style |}
  else style.

Definition with_style (a : NodeAttrs) (st : NodeStyle) : NodeAttrs :=
  {| label := label a; wrapped_label := wrapped_label a; category := category a;
     color := color a; border := style_border st;
     original_border := original_border a; pos := pos a;
     width := width a; height := height a;
     glow := Some (style_glow st); opacity := Some (style_opacity st) |}.

(** Mutates the attribute dicts of [G] in place; the result is the graph
    after the loop.  [highlight_nodes] is accepted and not used. *)
Definition _apply_node_styles (G : DiGraph) (selected hovered : option string)
    (highlight_nodes dim_nodes : gset string) : Result DiGraph :=
  let hovered := reset_hover hovered in
  for_each
    (fun G node =>
       a ← DiGraph.node_attrs G node "original_border";
       let style := node_style node a selected hovered dim_nodes in
       Ok {| g_nodes := DiGraph.set_attrs (g_nodes G) node (Some (with_style a style));
             g_edges := g_edges G |})
    (DiGraph.node_ids G) G.

(** ** Visible elements *)

Definition _get_directional_edges (G : DiGraph) (node : string)
    (directions : list string) : list Edge :=
  let edges := [] in
  let edges :=
    if existsb (String.eqb "upstream") directions
    then edges ++ DiGraph.in_edges G node else edges in
  let edges :=
    if existsb (String.eqb "downstream") directions
    then edges ++ DiGraph.out_edges G node else edges in
  edges.

(** The branch taken for a selection that is a node of the graph. *)
Definition visible_around (G : DiGraph) (selected : string) (directions : list string)
  : gset string * list Edge :=
  let visible_edges := _get_directional_edges G selected directions in
  let visible_nodes : gset string :=
    fold_left (fun acc e => acc ∪ {[ source e ]} ∪ {[ target e ]})
              visible_edges {[ selected ]} in
  (visible_nodes, visible_edges).

Definition _determine_visible_elements (G : DiGraph) (selected hovered : option string)
    (directions : list string) (mode : string) : gset string * list Edge :=
  let hovered := reset_hover hovered in
  let all_nodes := DiGraph.node_set G in
  let selected := if is_all selected then None else selected in
  if String.eqb mode "filter" then
    match node_in G selected with
    | Some s => visible_around G s directions
    | None => (all_nodes, DiGraph.edges G)
    end
  else if String.eqb mode "interactive" then
    match node_in G selected with
    | Some s => visible_around G s directions
    | None => (all_nodes, DiGraph.edges G)
    end
  else (∅, []).

(** ** Rendering *)

(** One [go.Scatter] line trace.  The sampled curve ([x], [y]) and the hover
    text are geometry and formatting and are not part of the model; the
    endpoints name the edge the trace is drawn for. *)
Record EdgeTrace := {
  trace_source : string;
  trace_target : string;
  line_width : Q;
  line_color : string;
  trace_opacity : Q;
  trace_tier_label : string
}.

(** One node rectangle: the corners of the rounded-rectangle path, and the
    node it is drawn for. *)
Record NodeShape := {
  shape_node : string;
  shape_x0 : Q;
  shape_y0 : Q;
  shape_x1 : Q;
  shape_y1 : Q;
  shape_radius : Q;
  shape_fillcolor : string;
  shape_line_color : string;
  shape_line_width : Z;
  shape_opacity : Q
}.

Record Annotation := {
  ann_node : string;
  ann_x : Q;
  ann_y : Q;
  ann_text : string;
  ann_opacity : Q
}.

(** [int(self.nodes_df[self.nodes_df["DOMAIN_ID"] == u]["X_GROUP"].values[0])]. *)
Definition x_group_of (self : GraphBuilder) (u : string) : Result Z :=
  match List.filter (fun row => String.eqb (DOMAIN_ID row) u) (nodes_df self) with
  | row :: _ => Ok (X_GROUP row)
  | [] => Raise (IndexError u)
  end.

(** What plotly checks of the values that come from the tables when a
    trace or a shape is created: a colour must be a string plotly reads as a
    colour, and a line width must not be negative.  Which strings plotly
    reads as colours is fixed by the installed plotly; it is the parameter
    [valid_color] of the model.  The payload of the [ValueError] names the
    property that is rejected. *)
Definition check_color (valid_color : string -> bool) (property color : string)
  : Result () :=
  if valid_color color then Ok () else Raise (ValueError property).

Definition check_width (property : string) (width : Q) : Result () :=
  if Qlt_bool width 0 then Raise (ValueError property) else Ok ().

(** The body of the loop of [_create_edge_traces].  [go.Scatter] checks the
    properties of [line] in alphabetical order, the colour before the
    width. *)
Definition edge_trace (valid_color : string -> bool) (self : GraphBuilder)
    (G : DiGraph) (pos : gmap string (Q * Q)) (e : Edge) : Result EdgeTrace :=
  let '(u, v, data) := e in
  p0 ← getitem pos u;
  p1 ← getitem pos v;
  xu ← x_group_of self u;
  xv ← x_group_of self v;
  au ← DiGraph.node_attrs G u "width";
  av ← DiGraph.node_attrs G v "width";
  edge_color ← _get_edge_color xu xv (tier data);
  let edge_opacity := 0.6%Q in
  let tier_label :=
    default ("Tier " +:+ str_of_Z (tier data)) (TIER_LABEL_MAP !! tier data) in
  _ ← check_color valid_color "scatter.line.color" edge_color;
  _ ← check_width "scatter.line.width" (3 * weight data)%Q;
  Ok {| trace_source := u; trace_target := v;
        line_width := (3 * weight data)%Q;
        line_color := edge_color;
        trace_opacity := edge_opacity;
        trace_tier_label := tier_label |}.

(** [visible_nodes] and [mode] are accepted and not used.  The arrow shapes
    are derived from the sampled curve and are not part of the model. *)
Definition _create_edge_traces (valid_color : string -> bool) (self : GraphBuilder)
    (G : DiGraph) (pos : gmap string (Q * Q)) (visible_edges : list Edge)
    (visible_nodes : gset string) (mode : string) : Result (list EdgeTrace) :=
  for_each (fun edge_traces e =>
              t ← edge_trace valid_color self G pos e; Ok (edge_traces ++ [t]))
           visible_edges [].

Definition node_shape_and_annotation (G : DiGraph) (pos : gmap string (Q * Q))
    (n : string) : Result (NodeShape * Annotation) :=
  p ← getitem pos n;
  let '(x, y) := p in
  a ← DiGraph.node_attrs G n "width";
  let x0 := (x - width a / 2)%Q in
  let x1 := (x + width a / 2)%Q in
  let y0 := (y - height a / 2)%Q in
  let y1 := (y + height a / 2)%Q in
  Ok ({| shape_node := n;
         shape_x0 := x0; shape_y0 := y0; shape_x1 := x1; shape_y1 := y1;
         shape_radius := LayoutConfig.corner_radius;
         shape_fillcolor := color a;
         shape_line_color := border a;
         shape_line_width := 4;
         shape_opacity := default 1.0%Q (opacity a) |},
      {| ann_node := n; ann_x := x; ann_y := y;
         ann_text := wrapped_label a;
         ann_opacity := default 1.0%Q (opacity a) |}).

(** [visible_nodes] is accepted and not used: the loop runs over [G.nodes()]. *)
Definition _create_node_shapes_and_annotations (G : DiGraph)
    (pos : gmap string (Q * Q)) (visible_nodes : gset string)
  : Result (list NodeShape * list Annotation) :=
  for_each
    (fun '(shapes, annotations) n =>
       sa ← node_shape_and_annotation G pos n;
       Ok (shapes ++ [fst sa], annotations ++ [snd sa]))
    (DiGraph.node_ids G) ([], []).

(** [min(node_x_coords)] in [_create_tier_backgrounds] needs one position. *)
Definition check_tier_backgrounds (pos : gmap string (Q * Q)) : Result () :=
  if bool_decide (pos = ∅) then Raise (ValueError "min() arg is an empty sequence")
  else Ok ().

Definition X_GROUP_LABELS : gmap Z string :=
  {[ 1 := "Foundational Domains"; 2 := "Tier 1 Dependency Domains";
     3 := "Tier 2 Dependency Domains"; 4 := "Resulting Domains" ]}.

(** [x_group_positions[x_group].append(...)] in [_create_x_group_annotations]
    needs the group of every positioned node to be a key of the label table.
    [pos] lists the nodes of [G] that have a position, in node order. *)
Definition check_x_group_annotations (self : GraphBuilder) (G : DiGraph)
    (pos : gmap string (Q * Q)) : Result () :=
  for_each
    (fun _ node_id =>
       x_group ← x_group_of self node_id;
       match X_GROUP_LABELS !! x_group with
       | Some _ => Ok ()
       | None => Raise (KeyError (str_of_Z x_group))
       end)
    (List.filter (fun n => bool_decide (is_Some (pos !! n))) (DiGraph.node_ids G)) ().

(** The parts of the assembled figure that depend on nodes, edges and
    interaction inputs. *)
Record Figure := {
  edge_traces : list EdgeTrace;
  node_shapes : list NodeShape;
  node_annotations : list Annotation;
  datarevision : Z
}.

(** [fig.update_layout(shapes=...)]: plotly checks the node shapes one
    after the other, the fill colour of a shape before the colour of its
    line.  The tier bands before them are drawn in constant colours, and the
    arrow heads after them in the colours of the edge traces, which
    [go.Scatter] has checked already. *)
Definition check_node_shapes (valid_color : string -> bool) (shapes : list NodeShape)
  : Result () :=
  for_each
    (fun _ shape =>
       _ ← check_color valid_color "layout.shape.fillcolor" (shape_fillcolor shape);
       check_color valid_color "layout.shape.line.color" (shape_line_color shape))
    shapes ().

(** [build_figure].  [valid_color] is plotly's test of a colour string and
    [now] is the reading of [time.time()].  Tier bands, column headers, the
    hit-test marker trace and the axis ranges are pure float geometry over
    the same graph; of these steps the model keeps only the two places
    where they raise.  The figure is assembled last, and that is where
    plotly checks the node shapes. *)
Definition build_figure (valid_color : string -> bool) (self : GraphBuilder)
    (selected : option string) (directions : list string) (mode : string)
    (hovered : option string) (now : Q) : Result Figure :=
  positions ← _assign_stacked_positions self;
  G ← _build_networkx_graph self positions;
  let pos := DiGraph.get_pos G in
  let state := _determine_interaction_state G selected hovered mode in
  let highlight_nodes := fst (fst state) in
  let dim_nodes := snd state in
  G ← _apply_node_styles G selected hovered highlight_nodes dim_nodes;
  let visible := _determine_visible_elements G selected hovered directions mode in
  let visible_nodes := fst visible in
  let visible_edges := snd visible in
  traces ←
    match visible_edges with
    | [] => Ok []
    | _ => _create_edge_traces valid_color self G pos visible_edges visible_nodes mode
    end;
  _ ← check_tier_backgrounds pos;
  sa ← _create_node_shapes_and_annotations G pos visible_nodes;
  _ ← check_x_group_annotations self G pos;
  let revision_trigger := py_int (now * 1000)%Q in
  _ ← check_node_shapes valid_color (fst sa);
  Ok {| edge_traces := traces;
        node_shapes := fst sa;
        node_annotations := snd sa;
        datarevision := revision_trigger |}.

(** ** The rendering callback *)

Module Callbacks.

(** [_extract_hover_node_id]: the [customdata] of the hovered point, unless
    it is one of the sentinels. *)
Definition _extract_hover_node_id (customdata : option string) : option string :=
  match customdata with
  | Some id =>
      if String.eqb id "__background__" || String.eqb id "RESET" then None
      else Some id
  | None => None
  end.

Definition is_valid_direction (d : string) : bool :=
  String.eqb d "upstream" || String.eqb d "downstream".

(** The order in which Python iterates over the set
    [valid = {"upstream", "downstream"}].  It follows from the hashes of the
    two strings, which Python draws anew for each process. *)
Inductive SetOrder : Type := UpstreamFirst | DownstreamFirst.

(** [list(valid)]. *)
Definition list_valid (order : SetOrder) : list string :=
  match order with
  | UpstreamFirst => ["upstream"; "downstream"]
  | DownstreamFirst => ["downstream"; "upstream"]
  end.

(** [_validate_directions]:
    [[d for d in (directions or valid) if d in valid] or list(valid)]. *)
Definition _validate_directions (order : SetOrder) (directions : option (list string))
  : list string :=
  let valid := list_valid order in
  let given :=
    match directions with
    | Some (d :: ds) => d :: ds
    | _ => valid
    end in
  match List.filter is_valid_direction given with
  | [] => valid
  | kept => kept
  end.

(** [update_graph]: the stored selection, the direction toggle, the mode and
    the hover event become the arguments of [build_figure]. *)
Definition update_graph (valid_color : string -> bool) (order : SetOrder)
    (graph_builder : GraphBuilder) (selected_node : option string)
    (directions : option (list string)) (mode : string) (hover : option string)
    (now : Q) : Result Figure :=
  let selected := if is_none selected_node || is_all selected_node then None
                  else selected_node in
  let hovered := _extract_hover_node_id hover in
  build_figure valid_color graph_builder selected
               (_validate_directions order directions) mode hovered now.

End Callbacks.

(** ** Reference definitions

    The statements below compare the code with these definitions, which
    follow the wording of the specification. *)

(** [cur] extended by the words [ws], each after a single blank. *)
Definition tail_of (cur : string) (ws : list string) : string :=
  match ws with
  | [] => cur
  | _ :: _ => cur +:+ " " +:+ String.concat " " ws
  end.

Module Spec.

(** The unordered pair [{a, b}] is [{x, y}]. *)
Definition pair_is (a b x y : Z) : bool :=
  (a =? x) && (b =? y) || (a =? y) && (b =? x).

Definition in_123 (a : Z) : bool := (a =? 1) || (a =? 2) || (a =? 3).

(** [{1,2}] blue; [{1,3}] or [{2,3}] cyan; group 4 with one of 1..3
    purple; anything else blue. *)
Definition base_color (xu xv : Z) : string :=
  if pair_is xu xv 1 2 then "#4A90E2"
  else if pair_is xu xv 1 3 || pair_is xu xv 2 3 then "#72CBE2"
  else if (xu =? 4) && in_123 xv || (xv =? 4) && in_123 xu then "#A680B8"
  else "#4A90E2".

(** The shift map [{2: +0.3, 3: 0.0, 4: -0.3}]; no shift for other tiers. *)
Definition shift (tier : Z) : Q :=
  if tier =? 2 then 0.3%Q
  else if tier =? 3 then 0.0%Q
  else if tier =? 4 then (-0.3)%Q
  else 0.0%Q.

(** A channel moved toward white (255) by the fraction [f] of its distance
    to white, and toward black (0) by the fraction [f] of its value; the
    result is cut to an integer. *)
Definition toward_white (f : Q) (c : Z) : Z :=
  Qfloor (inject_Z c + f * (255 - inject_Z c))%Q.

Definition toward_black (f : Q) (c : Z) : Z :=
  Qfloor (inject_Z c - f * inject_Z c)%Q.

Definition shifted (s : Q) (c : Z) : Z :=
  if Qlt_bool 0 s then toward_white s c
  else if Qlt_bool s 0 then toward_black (Qabs s) c
  else c.

(** The channels of the three colours of the table. *)
Definition channels (hex : string) : Z * Z * Z :=
  if String.eqb hex "#4A90E2" then (74, 144, 226)
  else if String.eqb hex "#72CBE2" then (114, 203, 226)
  else if String.eqb hex "#A680B8" then (166, 128, 184)
  else (0, 0, 0).


Definition edge_color (xu xv tier : Z) : string :=
  let '(r, g, b) := channels (base_color xu xv) in
  let s := shift tier in
  rgb_string (shifted s r) (shifted s g) (shifted s b).

End Spec.

(** ** Example tables

    Domain [A] (Foundational, maturity 1.0) feeds [B] (Tier 1 Dependency,
    maturity 1.0); [C] (Foundational, maturity 1.5) has no dependency. *)

Module Example.

Definition domain (id name : string) (x_group : Z) (maturity : Q) : NodeRow :=
  {| DOMAIN_ID := id; DOMAIN_NAME := name; X_GROUP := x_group;
     CURRENT_MATURITY := maturity; CATEGORY := "Core";
     COLOR_HEX := "#f0f0f0"; BORDER_HEX := "#333" |}.

(** A colour test that reads what plotly reads among the colours of the
    examples: "#" with three or six hexadecimal digits, and [rgb(...)]. *)
Definition valid_color (s : string) : bool :=
  match s with
  | String "#" digits =>
      forallb (fun c => bool_decide (is_Some (hex_digit c))) (list_ascii_of_string digits)
      && ((String.length digits =? 3) || (String.length digits =? 6))%nat
  | String "r" (String "g" (String "b" (String "(" _))) => true
  | _ => false
  end.

Definition dependency (u v : string) (w : Q) (t : Z) : EdgeRow :=
  {| SOURCE_DOMAIN_ID := u; TARGET_DOMAIN_ID := v; WEIGHT := w; TIER := t;
     DESCRIPTION := "feeds" |}.

Definition nodes : list NodeRow :=
  [ domain "A" "Data Governance" 1 1.0; domain "B" "Data Quality" 2 1.0;
    domain "C" "Analytics" 1 1.5 ].

Definition edges : list EdgeRow := [ dependency "A" "B" 1 1 ].

(** What [__init__] returns on these tables. *)
Definition builder_of (nodes : list NodeRow) (edges : list EdgeRow) : GraphBuilder :=
  match GraphBuilder_init nodes edges 6 with
  | Ok b => b
  | Raise _ =>
      {| nodes_df := nodes; edges_df := edges; sigmoid_steepness := 6;
         node_dimensions := ∅ |}
  end.

Definition builder : GraphBuilder := builder_of nodes edges.

(** The graph that [build_figure] builds from [builder] before styling. *)
Definition graph_of (b : GraphBuilder) : DiGraph :=
  match
    positions ← _assign_stacked_positions b; _build_networkx_graph b positions
  with
  | Ok G => G
  | Raise _ => DiGraph.empty
  end.

Definition graph : DiGraph := graph_of builder.

(** The same tables with one more domain, of maturity 3.0. *)
Definition nodes_with_level_3 : list NodeRow :=
  nodes ++ [ domain "E" "Reporting" 2 3.0 ].

End Example.

(** The opacity with which each node is drawn. *)
Definition drawn_opacities (r : Result Figure) : list (string * Q) :=
  match r with
  | Ok fig => map (fun s => (shape_node s, shape_opacity s)) (node_shapes fig)
  | Raise _ => []
  end.

(** Where a node's label is drawn. *)
Definition place (a : Annotation) : string * Q * Q := (ann_node a, ann_x a, ann_y a).

(** The second placement state has a position for every domain that the
    first one has. *)
Definition keeps (st st' : Positions * UsedCoords) : Prop :=
  forall id, is_Some (fst st !! id) -> is_Some (fst st' !! id).

(** ** Valid models *)

(** What the program relies on plotly to read as colours: the two border
    colours of the node styles and the colours it computes for the edges. *)
Record reads_program_colors (valid_color : string -> bool) : Prop := {
  reads_selected_border : valid_color "#000000" = true;
  reads_hovered_border : valid_color "#FFD700" = true;
  reads_edge_colors :
    forall xu xv tier edge_color,
      _get_edge_color xu xv tier = Ok edge_color -> valid_color edge_color = true
}.

(** A model the builder is meant for: at least one domain, every maturity
    on one of the three tier bands, every column one of the four labelled
    groups, every colour of the table one that plotly reads, every
    dependency between domains of the table, and no negative weight. *)
Record valid_model (valid_color : string -> bool)
    (nodes : list NodeRow) (edges : list EdgeRow) : Prop := {
  valid_nonempty : nodes <> [];
  valid_bands :
    forall row, In row nodes ->
      exists tier, In tier (map fst TIER_BAND_COLORS)
                   /\ isclose (CURRENT_MATURITY row) tier = true;
  valid_groups : forall row, In row nodes -> 1 <= X_GROUP row <= 4;
  valid_colors :
    forall row, In row nodes ->
      valid_color (COLOR_HEX row) = true /\ valid_color (BORDER_HEX row) = true;
  valid_edges :
    forall e, In e edges ->
      In (SOURCE_DOMAIN_ID e) (map DOMAIN_ID nodes)
      /\ In (TARGET_DOMAIN_ID e) (map DOMAIN_ID nodes);
  valid_weights : forall e, In e edges -> (0 <= WEIGHT e)%Q
}.

(** A graph as [_build_networkx_graph] leaves it for a valid model: every
    node has its attributes and is a domain of the table, and every edge
    joins two nodes. *)
Record well_built (nodes : list NodeRow) (G : DiGraph) : Prop := {
  built_attrs : forall n x, In (n, x) (g_nodes G) -> exists a, x = Some a;
  built_ids : forall n, In n (DiGraph.node_ids G) -> In n (map DOMAIN_ID nodes);
  built_edges :
    forall e, In e (g_edges G) ->
      In (source e) (DiGraph.node_ids G) /\ In (target e) (DiGraph.node_ids G)
}.

(** Every colour among the attributes of the graph is one that plotly
    reads. *)
Definition well_colored (valid_color : string -> bool) (G : DiGraph) : Prop :=
  forall n a, In (n, Some a) (g_nodes G) ->
    valid_color (color a) = true /\ valid_color (border a) = true
    /\ valid_color (original_border a) = true.

(** What styling makes of one entry of the node table. *)
Definition styled_entry (selected hovered : option string) (dim_nodes : gset string)
    (entry : string * option NodeAttrs) : string * option NodeAttrs :=
  (fst entry,
   match snd entry with
   | Some a => Some (with_style a (node_style (fst entry) a selected hovered dim_nodes))
   | None => None
   end).

(** The endpoints of an edge, and the data a dependency row puts on it. *)
Definition endpoints (e : Edge) : string * string := (source e, target e).

Definition row_data (row : EdgeRow) : EdgeData :=
  {| weight := WEIGHT row; tier := TIER row; description := DESCRIPTION row |}.

(** The example tables with a dependency on a domain that has no row. *)
Definition dangling_edges : list EdgeRow := [ Example.dependency "A" "Z" 1 1 ].

(** The body of the second loop of [_build_networkx_graph]. *)
Definition edge_step (G : DiGraph) (row : EdgeRow) : DiGraph :=
  DiGraph.add_edge G (SOURCE_DOMAIN_ID row) (TARGET_DOMAIN_ID row) (row_data row).

(** The example graph after styling with domain A selected and B hovered. *)
Definition styled_graph : DiGraph :=
  let state := _determine_interaction_state Example.graph (Some "A") (Some "B")
                 "interactive" in
  match _apply_node_styles Example.graph (Some "A") (Some "B")
          (fst (fst state)) (snd state) with
  | Ok G => G
  | Raise _ => DiGraph.empty
  end.

(** What styling leaves of a node's attributes, and what it sets. *)
Definition restyled (a a' : NodeAttrs) (st : NodeStyle) : Prop :=
  label a' = label a /\ wrapped_label a' = wrapped_label a
  /\ category a' = category a /\ color a' = color a
  /\ original_border a' = original_border a /\ pos a' = pos a
  /\ width a' = width a /\ height a' = height a
  /\ border a' = style_border st
  /\ glow a' = Some (style_glow st) /\ opacity a' = Some (style_opacity st).

(** The example tables with two dependency rows between the same domains. *)
Definition parallel_edges : list EdgeRow :=
  [ Example.dependency "A" "B" 1 1; Example.dependency "A" "B" 2 3 ].

(** ** The lines of a wrapped label *)

(** The line length that [_wrap_label_intelligently] aims at. *)
Definition wrap_target (text : string) : nat :=
  let total_chars := String.length text in
  if (total_chars <=? 15)%nat then total_chars
  else if (total_chars <=? 30)%nat then 16%nat
  else 18%nat.

(** The list [lines] that [_wrap_label_intelligently] joins with "<br>". *)
Definition wrap_lines (text : string) : list string :=
  let st := fold_left (wrap_step (wrap_target text)) (Str.split text)
              {| lines := []; current_line := "" |} in
  let lines1 :=
    if Str.nonempty (current_line st) then lines st ++ [current_line st]
    else lines st in
  match lines1 with [] => [""] | _ => lines1 end.

(** A line of at most [target_chars] characters. *)
Definition fits (target_chars : nat) (s : string) : Prop :=
  (String.length s <= target_chars)%nat.

(** What the wrapping loop keeps while no word is longer than the target:
    the finished lines and the current line fit, and together they hold the
    words read so far, in order. *)
Definition wrap_inv (target_chars : nat) (seen : list string) (st : WrapState) : Prop :=
  Forall (fits target_chars) (lines st) /\ fits target_chars (current_line st)
  /\ ((current_line st = "" /\ lines st = [] /\ seen = [])
      \/ (Str.nonempty (current_line st) = true
          /\ Str.join " " (lines st ++ [current_line st]) = Str.join " " seen
          /\ seen <> []
          /\ (S (length (lines st)) <= length seen)%nat)).

(** The body of the loop of [_apply_node_styles], for a hover that has been reset. *)
Definition style_body (selected hovered : option string) (dim_nodes : gset string)
    (G : DiGraph) (node : string) : Result DiGraph :=
  a ← DiGraph.node_attrs G node "original_border";
  let style := node_style node a selected hovered dim_nodes in
  Ok {| g_nodes := DiGraph.set_attrs (g_nodes G) node (Some (with_style a style));
        g_edges := g_edges G |}.

(** The body of the first loop of [_build_networkx_graph]. *)
Definition node_row_body (self : GraphBuilder) (positions : Positions)
    (G : DiGraph) (row : NodeRow) : Result DiGraph :=
  d ← getitem (node_dimensions self) (DOMAIN_ID row);
  let '(width, height, wrapped_label) := d in
  p ← getitem positions (DOMAIN_ID row);
  Ok (DiGraph.add_node G (DOMAIN_ID row)
        {| label := DOMAIN_NAME row;
           wrapped_label := wrapped_label;
           category := CATEGORY row;
           color := COLOR_HEX row;
           border := BORDER_HEX row;
           original_border := BORDER_HEX row;
           pos := p;
           width := width;
           height := height;
           glow := None;
           opacity := None |}).

(** * Properties *)

(** ** Strings and the label wrapper *)

Module StrFacts.
Import Str.

Lemma length_app (a b : string) :
  String.length (a +:+ b) = (String.length a + String.length b)%nat.
Proof. induction a as [|c a IH]; simpl; [reflexivity | now rewrite IH]. Qed.

Lemma app_assoc (a b c : string) : (a +:+ b) +:+ c = a +:+ b +:+ c.
Proof. induction a as [|x a IH]; simpl; [reflexivity | now rewrite IH]. Qed.

Lemma nonempty_false (s : string) : nonempty s = false -> s = "".
Proof.
  unfold nonempty. intros H. apply negb_false_iff in H.
  now apply String.eqb_eq in H.
Qed.

Lemma nonempty_cons (c : ascii) (s : string) : nonempty (String c s) = true.
Proof. reflexivity. Qed.

Lemma nonempty_app_l (a b : string) : nonempty a = true -> nonempty (a +:+ b) = true.
Proof. destruct a; [discriminate | reflexivity]. Qed.

Lemma concat_cons_char (sep : string) (c : ascii) (w : string) (ws : list string) :
  String.concat sep (String c w :: ws) = String c (String.concat sep (w :: ws)).
Proof. destruct ws; reflexivity. Qed.

Lemma starts_word_split (s : string) : starts_word s = true -> split s <> [].
Proof.
  destruct s as [|c rest]; simpl; [discriminate|].
  intros H. apply negb_true_iff in H. rewrite H.
  destruct (starts_word rest); [destruct (split rest)|]; discriminate.
Qed.

Lemma split_nonempty (s : string) : Forall (fun w => nonempty w = true) (split s).
Proof.
  induction s as [|c rest IH]; simpl; [constructor|].
  destruct (isspace c); [exact IH|].
  destruct (starts_word rest).
  - destruct (split rest) as [|w ws]; repeat constructor.
    now inversion IH.
  - constructor; [reflexivity | exact IH].
Qed.

(** The words of a text, joined by single blanks, are no longer than the
    text; a leading whitespace character is not needed at all. *)
Lemma join_split_length (s : string) :
  (String.length (join " " (split s)) + (if starts_word s then 0 else 1)
   <= String.length s + (if nonempty s then 0 else 1))%nat.
Proof.
  unfold join. induction s as [|c rest IH]; simpl; [lia|].
  destruct (isspace c) eqn:Hc; simpl.
  - destruct rest as [|c' r]; [simpl; lia|].
    rewrite nonempty_cons in IH. destruct (starts_word _); lia.
  - destruct rest as [|c' r]; [simpl; lia|].
    rewrite nonempty_cons in IH.
    remember (String c' r) as rest eqn:Hrest.
    destruct (starts_word rest) eqn:Hw.
    + destruct (split rest) as [|w ws] eqn:Hs.
      * now apply starts_word_split in Hw.
      * rewrite concat_cons_char. cbn [String.length]. lia.
    + destruct (split rest) as [|w ws] eqn:Hs; [simpl; lia|].
      change (String.concat " " (String c "" :: w :: ws))
        with (String c "" +:+ " " +:+ String.concat " " (w :: ws)).
      rewrite !length_app. cbn [String.length]. lia.
Qed.

Lemma split_length (s : string) :
  (String.length (join " " (split s)) <= String.length s)%nat.
Proof.
  pose proof (join_split_length s) as H.
  destruct s; [simpl; lia|].
  rewrite nonempty_cons in H. destruct (starts_word _); lia.
Qed.

Lemma split_single_spaced (s : string) :
  blanks_single s = true ->
  join " " (split s) =
    match s with
    | String c rest => if isspace c then rest else s
    | EmptyString => ""
    end.
Proof.
  unfold join. induction s as [|c rest IH]; simpl; [reflexivity|].
  destruct (isspace c) eqn:Hc.
  - intros H. apply andb_prop in H as [H Hb]. apply andb_prop in H as [_ Hw].
    rewrite (IH Hb). destruct rest as [|c' r]; [discriminate|].
    simpl in Hw. apply negb_true_iff in Hw. now rewrite Hw.
  - intros Hb. specialize (IH Hb).
    destruct (starts_word rest) eqn:Hw.
    + destruct (split rest) as [|w ws] eqn:Hs.
      * now apply starts_word_split in Hw.
      * rewrite concat_cons_char, IH.
        destruct rest as [|c' r]; [discriminate|].
        simpl in Hw. apply negb_true_iff in Hw. now rewrite Hw.
    + destruct rest as [|c' r]; [reflexivity|].
      simpl in Hw. apply negb_false_iff in Hw. rewrite Hw in IH.
      simpl in Hb. rewrite Hw in Hb.
      apply andb_prop in Hb as [Hb _]. apply andb_prop in Hb as [Hsp Hr].
      apply Ascii.eqb_eq in Hsp. subst c'.
      simpl split. simpl isspace. cbv iota.
      assert (Hne : split r <> []) by now apply starts_word_split.
      simpl split in IH. simpl isspace in IH. cbv iota in IH.
      destruct (split r) as [|w ws]; [congruence|].
      change (String.concat " " (String c "" :: w :: ws))
        with (String c "" +:+ " " +:+ String.concat " " (w :: ws)).
      now rewrite IH.
Qed.

Lemma single_spaced_join (s : string) :
  single_spaced s = true -> join " " (split s) = s.
Proof.
  unfold single_spaced. intros H. apply andb_prop in H as [Hs Hb].
  rewrite (split_single_spaced s Hb).
  destruct s as [|c rest]; [reflexivity|].
  simpl in Hs. apply negb_true_iff in Hs. now rewrite Hs.
Qed.

End StrFacts.

Section WrapLoop.
Variable target_chars : nat.

(** While everything still fits on the line, the loop only extends
    [current_line]. *)
Lemma wrap_loop_fits (ws : list string) :
  forall (ls : list string) (cur : string),
    Str.nonempty cur = true ->
    (String.length (tail_of cur ws) <= target_chars)%nat ->
    fold_left (wrap_step target_chars) ws {| lines := ls; current_line := cur |}
    = {| lines := ls; current_line := tail_of cur ws |}.
Proof.
  induction ws as [|w ws IH]; intros ls cur Hcur Hlen; [reflexivity|].
  assert (Htl : tail_of cur (w :: ws) = tail_of (cur +:+ " " +:+ w) ws).
  { unfold tail_of. destruct ws as [|w' ws]; [reflexivity|].
    change (String.concat " " (w :: w' :: ws))
      with (w +:+ " " +:+ String.concat " " (w' :: ws)).
    now rewrite !StrFacts.app_assoc. }
  assert (Hfit : (String.length (cur +:+ " " +:+ w) <= target_chars)%nat).
  { rewrite Htl in Hlen. unfold tail_of in Hlen. destruct ws; [exact Hlen|].
    rewrite StrFacts.length_app in Hlen. lia. }
  cbn [fold_left]. unfold wrap_step at 2. cbn [current_line lines].
  rewrite Hcur. apply Nat.leb_le in Hfit. rewrite Hfit.
  rewrite Htl. apply IH.
  - now apply StrFacts.nonempty_app_l.
  - now rewrite <- Htl.
Qed.

Lemma wrap_loop_one_line (w : string) (ws : list string) :
  Str.nonempty w = true ->
  (String.length (Str.join " " (w :: ws)) <= target_chars)%nat ->
  fold_left (wrap_step target_chars) (w :: ws) {| lines := []; current_line := "" |}
  = {| lines := []; current_line := Str.join " " (w :: ws) |}.
Proof.
  intros Hw Hlen.
  assert (Hfit : (String.length w <= target_chars)%nat).
  { unfold Str.join in Hlen. destruct ws; [exact Hlen|].
    change (String.concat " " (w :: s :: ws))
      with (w +:+ " " +:+ String.concat " " (s :: ws)) in Hlen.
    rewrite StrFacts.length_app in Hlen. lia. }
  cbn [fold_left]. unfold wrap_step at 2. cbn [current_line lines Str.nonempty].
  simpl. apply Nat.leb_le in Hfit. rewrite Hfit.
  now apply wrap_loop_fits.
Qed.
End WrapLoop.

Lemma wrap_short_normalises (text : string) :
  (String.length text <= 15)%nat ->
  _wrap_label_intelligently text = (Str.join " " (Str.split text), 1).
Proof.
  intros Hshort. unfold _wrap_label_intelligently.
  destruct (Str.nonempty text) eqn:Hne; simpl negb; cbv iota.
  2:{ apply StrFacts.nonempty_false in Hne. now subst text. }
  pose proof (StrFacts.split_nonempty text) as Hwords.
  pose proof (StrFacts.split_length text) as Hlen.
  destruct (Str.split text) as [|w ws]; [reflexivity|].
  apply Nat.leb_le in Hshort. rewrite Hshort.
  inversion Hwords as [|? ? Hw _]; subst.
  rewrite wrap_loop_one_line by assumption.
  cbn [current_line lines].
  assert (Hj : Str.nonempty (Str.join " " (w :: ws)) = true).
  { unfold Str.join. destruct ws; [exact Hw|].
    change (String.concat " " (w :: s :: ws))
      with (w +:+ " " +:+ String.concat " " (s :: ws)).
    now apply StrFacts.nonempty_app_l. }
  rewrite Hj. reflexivity.
Qed.

(** C8 (as amended).  For a text of at most 15 characters the wrapper returns
    one line holding the words of the text joined by single blanks; the text
    comes back unchanged when it is already in that form (words separated by
    single blanks, no whitespace at either end). *)
Theorem C8_wrap_short_text (text : string) :
  (String.length text <= 15)%nat ->
  _wrap_label_intelligently text = (Str.join " " (Str.split text), 1)
  /\ (Str.single_spaced text = true -> _wrap_label_intelligently text = (text, 1)).
Proof.
  intros Hshort. split; [now apply wrap_short_normalises|].
  intros Hs. rewrite wrap_short_normalises by assumption.
  now rewrite StrFacts.single_spaced_join.
Qed.

Lemma C8_wrap_short_text_witness :
  _wrap_label_intelligently "Data Governance" = ("Data Governance", 1)
  /\ _wrap_label_intelligently " Risk  Mgmt " = ("Risk Mgmt", 1).
Proof.
  split.
  - apply (C8_wrap_short_text "Data Governance"); [simpl; lia | reflexivity].
  - apply (C8_wrap_short_text " Risk  Mgmt "). simpl; lia.
Defined.

(** C8 (as stated) fails: a short text with a doubled blank comes back with
    a single one. *)
Lemma C8_wrap_short_text_counterexample :
  ~ (forall text : string,
        (String.length text <= 15)%nat ->
        _wrap_label_intelligently text = (text, 1)).
Proof.
  intros H. specialize (H "a  b" ltac:(simpl; lia)). discriminate H.
Qed.

(** ** Edge colours *)

Section PairFacts.
Implicit Types a b x y : Z.

Lemma pair_eq_iff a b x y :
  ({[ a; b ]} : gset Z) = {[ x; y ]} <-> (a = x /\ b = y) \/ (a = y /\ b = x)
                                          \/ (a = x /\ b = x /\ x = y).
Proof.
  split.
  - intros H.
    set_unfold in H.
    pose proof (H a) as Ha. pose proof (H b) as Hb.
    pose proof (H x) as Hx. pose proof (H y) as Hy.
    cbv beta in Ha, Hb, Hx, Hy. lia.
  - intros H. set_unfold. intros z. cbv beta. lia.
Qed.

Lemma pair_is_decide a b x y :
  x <> y -> bool_decide (({[ a; b ]} : gset Z) = {[ x; y ]}) = Spec.pair_is a b x y.
Proof.
  intros Hxy. unfold Spec.pair_is.
  apply eq_true_iff_eq. rewrite bool_decide_eq_true, pair_eq_iff.
  rewrite orb_true_iff, !andb_true_iff, !Z.eqb_eq. lia.
Qed.

Lemma touches_4_decide a b :
  bool_decide (({[ a; b ]} : gset Z) ∩ {[ 1; 2; 3 ]} ≠ ∅)
  && bool_decide (4 ∈ ({[ a; b ]} : gset Z))
  = (a =? 4) && Spec.in_123 b || (b =? 4) && Spec.in_123 a.
Proof.
  unfold Spec.in_123. apply eq_true_iff_eq.
  rewrite andb_true_iff, !bool_decide_eq_true.
  rewrite !orb_true_iff, !andb_true_iff, !orb_true_iff, !Z.eqb_eq.
  split.
  - intros [Hne H4]. apply set_choose_L in Hne as [z Hz].
    set_unfold. lia.
  - intros H. split.
    + assert (Hz : exists z, z ∈ ({[ a; b ]} : gset Z) ∩ {[ 1; 2; 3 ]}).
      { destruct H as [[-> H] | [-> H]]; [exists b | exists a]; set_unfold; lia. }
      destruct Hz as [z Hz]. intros Hempty. rewrite Hempty in Hz.
      now apply not_elem_of_empty in Hz.
    + set_unfold. lia.
Qed.
End PairFacts.

Lemma edge_base_color_spec (xu xv : Z) : edge_base_color xu xv = Spec.base_color xu xv.
Proof.
  unfold edge_base_color, Spec.base_color.
  rewrite !pair_is_decide by lia. now rewrite touches_4_decide.
Qed.

(** The entry of the code's shift map, beside the shift of the table. *)
Lemma brightness_shift_cases (tier : Z) :
  (default Float64.c_0 (BRIGHTNESS_MAP !! tier) = Float64.c_0_3
   /\ Spec.shift tier = 0.3%Q)
  \/ (default Float64.c_0 (BRIGHTNESS_MAP !! tier) = Float64.c_0
      /\ Spec.shift tier = 0.0%Q)
  \/ (default Float64.c_0 (BRIGHTNESS_MAP !! tier) = Float64.c_neg_0_3
      /\ Spec.shift tier = (-0.3)%Q).
Proof.
  unfold BRIGHTNESS_MAP, Spec.shift.
  destruct (Z.eqb_spec tier 2) as [->|H2]; [left; now split|].
  destruct (Z.eqb_spec tier 3) as [->|H3]; [right; left; now split|].
  destruct (Z.eqb_spec tier 4) as [->|H4]; [right; right; now split|].
  right; left. rewrite !lookup_insert_ne, lookup_singleton_ne by congruence.
  now split.
Qed.

Lemma base_color_cases (xu xv : Z) :
  Spec.base_color xu xv = "#4A90E2" \/ Spec.base_color xu xv = "#72CBE2"
  \/ Spec.base_color xu xv = "#A680B8".
Proof.
  unfold Spec.base_color.
  repeat match goal with |- context [if ?c then _ else _] => destruct c end; auto.
Qed.

Lemma get_edge_color_spec (xu xv tier : Z) :
  _get_edge_color xu xv tier = Ok (Spec.edge_color xu xv tier).
Proof.
  unfold _get_edge_color, Spec.edge_color.
  rewrite edge_base_color_spec.
  destruct (base_color_cases xu xv) as [-> | [-> | ->]];
    destruct (brightness_shift_cases tier) as [[-> ->] | [[-> ->] | [-> ->]]];
    vm_compute; reflexivity.
Qed.

(** C7.  The colour of an edge is the table colour of the unordered pair of
    endpoint groups, shifted by the tier's entry of the shift map: toward
    white for a positive shift, toward black for a negative one, channel by
    channel; a tier-1 edge between groups 1 and 2 keeps the channels
    (74, 144, 226) of #4A90E2. *)
Theorem C7_edge_color (xu xv tier : Z) :
  _get_edge_color xu xv tier = Ok (Spec.edge_color xu xv tier)
  /\ _get_edge_color 1 2 1 = Ok (rgb_string 74 144 226)
  /\ _get_edge_color 2 1 1 = Ok (rgb_string 74 144 226).
Proof. split; [apply get_edge_color_spec | split; reflexivity]. Qed.

(** ** Loops *)

Section ForEach.
Context {A S : Type}.

Lemma for_each_inv (P : S -> Prop) (body : S -> A -> Result S) (xs : list A) :
  forall acc r,
    P acc ->
    (forall s x s', In x xs -> P s -> body s x = Ok s' -> P s') ->
    for_each body xs acc = Ok r -> P r.
Proof.
  induction xs as [|x xs IH]; intros acc r Hacc Hstep Hrun; simpl in Hrun.
  - now inversion Hrun; subst.
  - destruct (body acc x) as [acc'|e] eqn:Hb; simpl in Hrun; [|discriminate].
    apply (IH acc' r); auto.
    + apply (Hstep acc x); simpl; auto.
    + intros s y s' Hy. apply Hstep. now right.
Qed.

Lemma fold_left_inv (P : S -> Prop) (f : S -> A -> S) (xs : list A) :
  forall acc,
    P acc -> (forall s x, In x xs -> P s -> P (f s x)) -> P (fold_left f xs acc).
Proof.
  induction xs as [|x xs IH]; intros acc Hacc Hstep; simpl; [exact Hacc|].
  apply IH; [apply Hstep; simpl; auto|].
  intros s y Hy. apply Hstep. now right.
Qed.
End ForEach.

(** A loop that appends one result per element yields the results in the
    order of the elements. *)
Lemma for_each_collect {A B : Type} (f : A -> Result B) (xs : list A) :
  forall acc r,
    for_each (fun acc x => y ← f x; Ok (acc ++ [y])) xs acc = Ok r ->
    exists ys, r = acc ++ ys /\ Forall2 (fun x y => f x = Ok y) xs ys.
Proof.
  induction xs as [|x xs IH]; intros acc r Hrun; simpl in Hrun.
  - inversion Hrun; subst. exists []. split; [now rewrite app_nil_r | constructor].
  - destruct (f x) as [y|e] eqn:Hf; simpl in Hrun; [|discriminate].
    destruct (IH _ _ Hrun) as (ys & -> & Hall).
    exists (y :: ys). split; [now rewrite <- app_assoc | now constructor].
Qed.

(** ** Graph queries *)

Module DiGraphFacts.

Lemma existsb_eqb_In (x : string) (l : list string) :
  existsb (String.eqb x) l = true <-> In x l.
Proof.
  rewrite existsb_exists. split.
  - intros (y & Hy & Heq). apply String.eqb_eq in Heq. now subst.
  - intros H. exists x. split; [exact H | apply String.eqb_refl].
Qed.

Lemma in_edges_In (G : DiGraph) (n : string) (e : Edge) :
  In e (DiGraph.in_edges G n) <-> In e (g_edges G) /\ target e = n.
Proof.
  unfold DiGraph.in_edges. rewrite filter_In.
  destruct e as [[u v] d]. unfold target. simpl. now rewrite String.eqb_eq.
Qed.

Lemma out_edges_In (G : DiGraph) (n : string) (e : Edge) :
  In e (DiGraph.out_edges G n) <-> In e (g_edges G) /\ source e = n.
Proof.
  unfold DiGraph.out_edges. rewrite filter_In.
  destruct e as [[u v] d]. unfold source. simpl. now rewrite String.eqb_eq.
Qed.

Lemma edges_In (G : DiGraph) (e : Edge) :
  In e (DiGraph.edges G) -> In e (g_edges G).
Proof.
  unfold DiGraph.edges. rewrite in_flat_map. intros (n & _ & H).
  now apply out_edges_In in H.
Qed.

Lemma directional_edges_In (G : DiGraph) (n : string) (directions : list string)
    (e : Edge) :
  In e (_get_directional_edges G n directions) <->
  In e (g_edges G)
  /\ (In "upstream" directions /\ target e = n
      \/ In "downstream" directions /\ source e = n).
Proof.
  unfold _get_directional_edges.
  pose proof (existsb_eqb_In "upstream" directions) as Hup.
  pose proof (existsb_eqb_In "downstream" directions) as Hdown.
  destruct (existsb (String.eqb "upstream") directions);
    destruct (existsb (String.eqb "downstream") directions);
    simpl; rewrite ?in_app_iff, ?in_edges_In, ?out_edges_In;
    intuition congruence.
Qed.

Lemma has_node_In (G : DiGraph) (n : string) :
  DiGraph.has_node G n = true <-> In n (DiGraph.node_ids G).
Proof. apply existsb_eqb_In. Qed.

Lemma node_in_selected (G : DiGraph) (S : string) :
  In S (DiGraph.node_ids G) -> S <> "" -> node_in G (Some S) = Some S.
Proof.
  intros Hin Hne. unfold node_in, truthy.
  apply has_node_In in Hin. rewrite Hin.
  apply String.eqb_neq in Hne. now rewrite Hne.
Qed.

(** The nodes collected from a list of edges. *)
Lemma endpoints_fold (es : list Edge) :
  forall (acc : gset string) (n : string),
    n ∈ fold_left (fun acc e => acc ∪ {[ source e ]} ∪ {[ target e ]}) es acc
    <-> n ∈ acc \/ exists e, In e es /\ (n = source e \/ n = target e).
Proof.
  induction es as [|e es IH]; intros acc n; simpl.
  - split; [auto | intros [H | (e & [] & _)]; exact H].
  - rewrite IH, !elem_of_union, !elem_of_singleton. split.
    + intros [[[H | H] | H] | (e' & He' & H)]; eauto 6.
    + intros [H | (e' & [<- | He'] & H)]; [tauto | tauto | eauto 6].
Qed.

End DiGraphFacts.

(** ** Direction filter *)

(** C5.  From a selected node [S] of the graph, the upstream direction
    yields only edges whose target is [S], and the downstream direction only
    edges whose source is [S]. *)
Theorem C5_direction_filter (G : DiGraph) (S : string) :
  In S (DiGraph.node_ids G) ->
  (forall e, In e (_get_directional_edges G S ["upstream"]) -> target e = S)
  /\ (forall e, In e (_get_directional_edges G S ["downstream"]) -> source e = S).
Proof.
  intros _. split; intros e He; apply DiGraphFacts.directional_edges_In in He;
    destruct He as [_ [[Hd He] | [Hd He]]]; try exact He;
    simpl in Hd; destruct Hd as [Hd | []]; discriminate Hd.
Qed.

Lemma C5_direction_filter_witness :
  In "B" (DiGraph.node_ids Example.graph)
  /\ (forall e, In e (_get_directional_edges Example.graph "B" ["upstream"]) ->
                target e = "B")
  /\ (forall e, In e (_get_directional_edges Example.graph "B" ["downstream"]) ->
                source e = "B").
Proof.
  assert (H : In "B" (DiGraph.node_ids Example.graph)).
  { vm_compute. right. left. reflexivity. }
  split; [exact H | exact (C5_direction_filter Example.graph "B" H)].
Defined.

(** ** Visibility and dimming *)

Lemma visible_filter_selection (G : DiGraph) (S : string) (hovered : option string)
    (directions : list string) :
  In S (DiGraph.node_ids G) -> S <> "" -> S <> "All" ->
  _determine_visible_elements G (Some S) hovered directions "filter"
  = visible_around G S directions.
Proof.
  intros Hin Hne Hall. unfold _determine_visible_elements, is_all.
  apply String.eqb_neq in Hall. rewrite Hall. simpl String.eqb. cbv iota.
  now rewrite DiGraphFacts.node_in_selected.
Qed.

Lemma node_shape_names (G : DiGraph) (pos : gmap string (Q * Q)) (n : string)
    (s : NodeShape) (a : Annotation) :
  node_shape_and_annotation G pos n = Ok (s, a) -> shape_node s = n /\ ann_node a = n.
Proof.
  unfold node_shape_and_annotation.
  destruct (getitem pos n) as [[x y]|]; simpl; [|discriminate].
  destruct (DiGraph.node_attrs G n "width"); simpl; [|discriminate].
  intros H. inversion H; subst. now split.
Qed.

(** The node loop draws every node it is given, whatever the visible set. *)
Lemma node_shapes_cover (G : DiGraph) (pos : gmap string (Q * Q)) (ns : list string) :
  forall acc r,
    for_each
      (fun '(shapes, annotations) n =>
         sa ← node_shape_and_annotation G pos n;
         Ok (shapes ++ [fst sa], annotations ++ [snd sa]))
      ns acc = Ok r ->
    map shape_node (fst r) = map shape_node (fst acc) ++ ns
    /\ map ann_node (snd r) = map ann_node (snd acc) ++ ns.
Proof.
  induction ns as [|n ns IH]; intros [shapes anns] r Hrun; simpl in Hrun.
  - inversion Hrun; subst. simpl. now rewrite !app_nil_r.
  - destruct (node_shape_and_annotation G pos n) as [[s a]|] eqn:Hn;
      simpl in Hrun; [|discriminate].
    apply node_shape_names in Hn as [Hs Ha].
    apply IH in Hrun as [H1 H2]. simpl in H1, H2.
    rewrite H1, H2, !map_app. simpl. rewrite Hs, Ha, <- !app_assoc. now split.
Qed.

Lemma edge_trace_names (valid_color : string -> bool) (self : GraphBuilder)
    (G : DiGraph) (pos : gmap string (Q * Q)) (e : Edge) (t : EdgeTrace) :
  edge_trace valid_color self G pos e = Ok t ->
  trace_source t = source e /\ trace_target t = target e
  /\ trace_opacity t = 0.6%Q /\ line_width t = (3 * weight (data e))%Q.
Proof.
  destruct e as [[u v] d]. unfold edge_trace.
  repeat match goal with
         | |- context [mbind _ ?m] => destruct m; simpl; [|discriminate]
         end.
  intros H. inversion H; subst. now repeat split.
Qed.

(** C3 (as amended).  In filter mode with a selection [S] of the graph, the
    visible edges are exactly the edges at [S] in the allowed directions, the
    visible nodes are exactly [S] and the other endpoints of those edges, and
    only the visible edges get a trace; every node of the graph, visible or
    not, still gets its shape and its annotation. *)
Theorem C3_filter_selection (G : DiGraph) (S : string) (hovered : option string)
    (directions : list string) :
  In S (DiGraph.node_ids G) -> S <> "" -> S <> "All" ->
  let visible := _determine_visible_elements G (Some S) hovered directions "filter" in
  (forall e, In e (snd visible) <->
             In e (g_edges G)
             /\ (In "upstream" directions /\ target e = S
                 \/ In "downstream" directions /\ source e = S))
  /\ (forall n, n ∈ fst visible <->
                n = S
                \/ (In "upstream" directions /\ exists d, In (n, S, d) (g_edges G))
                \/ (In "downstream" directions /\ exists d, In (S, n, d) (g_edges G)))
  /\ (forall valid_color self pos mode traces,
         _create_edge_traces valid_color self G pos (snd visible) (fst visible) mode
         = Ok traces ->
         map (fun t => (trace_source t, trace_target t)) traces
         = map (fun e => (source e, target e)) (snd visible))
  /\ (forall pos shapes annotations,
         _create_node_shapes_and_annotations G pos (fst visible)
         = Ok (shapes, annotations) ->
         map shape_node shapes = DiGraph.node_ids G
         /\ map ann_node annotations = DiGraph.node_ids G).
Proof.
  intros Hin Hne Hall visible. subst visible.
  rewrite visible_filter_selection by assumption.
  unfold visible_around. cbn [fst snd].
  split; [|split; [|split]].
  - intros e. apply DiGraphFacts.directional_edges_In.
  - intros n. rewrite DiGraphFacts.endpoints_fold, elem_of_singleton. split.
    + intros [H | (e & He & Hn)]; [now left|].
      apply DiGraphFacts.directional_edges_In in He as [He Hd].
      destruct e as [[u v] d]. unfold source, target in *. simpl in *.
      destruct Hd as [[Hd ->] | [Hd ->]], Hn as [-> | ->]; eauto 6.
    + intros [H | [[Hd [d He]] | [Hd [d He]]]]; [now left | right | right].
      * exists (n, S, d). split; [|now left].
        apply DiGraphFacts.directional_edges_In. split; [exact He | now left].
      * exists (S, n, d). split; [|now right].
        apply DiGraphFacts.directional_edges_In. split; [exact He | now right].
  - intros valid_color self pos mode traces Hrun. unfold _create_edge_traces in Hrun.
    apply for_each_collect in Hrun as (ts & -> & Hall2). simpl.
    induction Hall2 as [|e t es ts He _ IH]; [reflexivity|].
    apply edge_trace_names in He as (Hs & Ht & _). simpl.
    now rewrite Hs, Ht, IH.
  - intros pos shapes annotations Hrun.
    unfold _create_node_shapes_and_annotations in Hrun.
    apply node_shapes_cover in Hrun. exact Hrun.
Qed.

Lemma C3_filter_selection_witness :
  In "A" (DiGraph.node_ids Example.graph)
  /\ "A" <> "" /\ "A" <> "All"
  /\ (let visible :=
        _determine_visible_elements Example.graph (Some "A") None ["downstream"]
          "filter" in
      forall n, n ∈ fst visible <->
                n = "A"
                \/ (In "upstream" ["downstream"]
                    /\ exists d, In (n, "A", d) (g_edges Example.graph))
                \/ (In "downstream" ["downstream"]
                    /\ exists d, In ("A", n, d) (g_edges Example.graph))).
Proof.
  assert (Hin : In "A" (DiGraph.node_ids Example.graph)).
  { vm_compute. left. reflexivity. }
  assert (Hne : "A" <> "") by discriminate.
  assert (Hall : "A" <> "All") by discriminate.
  split; [exact Hin | split; [exact Hne | split; [exact Hall|]]].
  exact (proj1 (proj2 (C3_filter_selection Example.graph "A" None ["downstream"]
                         Hin Hne Hall))).
Defined.

(** C3 (as stated) fails: with [A] selected in filter mode and only the
    downstream direction allowed, [C] is outside the visible set and is drawn
    all the same, shape and annotation. *)
Lemma C3_filter_selection_counterexample :
  exists fig,
    build_figure Example.valid_color Example.builder (Some "A") ["downstream"] "filter" None 0 = Ok fig
    /\ ("C" ∉ fst (_determine_visible_elements Example.graph (Some "A") None
                     ["downstream"] "filter"))
    /\ In "C" (map shape_node (node_shapes fig))
    /\ In "C" (map ann_node (node_annotations fig)).
Proof.
  eexists. split; [vm_compute; reflexivity|].
  split; [|split; vm_compute; tauto].
  vm_compute. intros H. discriminate H.
Qed.

Lemma node_style_opacity (node : string) (a : NodeAttrs) (selected hovered : option string)
    (dim_nodes : gset string) :
  style_opacity (node_style node a selected hovered dim_nodes)
  = if bool_decide (node ∈ dim_nodes) then 0.2%Q else 1.0%Q.
Proof.
  unfold node_style.
  destruct (bool_decide (node ∈ dim_nodes)) eqn:Hin.
  - apply bool_decide_eq_true in Hin.
    assert (Hne : bool_decide (dim_nodes ≠ ∅) = true).
    { apply bool_decide_eq_true. intros ->. now apply not_elem_of_empty in Hin. }
    now rewrite Hne.
  - rewrite andb_false_r.
    destruct (bool_decide (Some node = selected)), (bool_decide (Some node = hovered));
      reflexivity.
Qed.

(** C4 (as amended).  The dim set is empty when nothing is selected (no
    selection in any mode, or "All" in filter mode) and in any mode other than
    the two known ones; in filter mode with a selection it is every node that
    is neither highlighted nor secondary, exactly as in interactive mode with
    a non-empty selection other than "All", and exactly the nodes of the dim
    set are styled with opacity 0.2. *)
Theorem C4_dim_set (G : DiGraph) (selected hovered : option string) (mode : string) :
  let state := _determine_interaction_state G selected hovered mode in
  let highlight := fst (fst state) in
  let secondary := snd (fst state) in
  let dim := snd state in
  (selected = None -> dim = ∅)
  /\ (mode = "filter" -> selected = Some "All" -> dim = ∅)
  /\ (mode <> "filter" -> mode <> "interactive" -> dim = ∅)
  /\ (mode = "filter" -> selected <> None -> selected <> Some "All" ->
      dim = DiGraph.node_set G ∖ highlight ∖ secondary)
  /\ (mode = "interactive" -> truthy selected = true -> selected <> Some "All" ->
      dim = DiGraph.node_set G ∖ highlight ∖ secondary)
  /\ (forall node a,
         style_opacity (node_style node a selected (reset_hover hovered) dim)
         = if bool_decide (node ∈ dim) then 0.2%Q else 1.0%Q).
Proof.
  cbv zeta. unfold _determine_interaction_state.
  repeat split.
  - intros ->. simpl.
    destruct (String.eqb mode "filter") eqn:Hf; [reflexivity|].
    simpl. rewrite andb_false_r.
    destruct (node_in G (reset_hover hovered)); try destruct (bool_decide _);
      reflexivity.
  - intros -> ->. reflexivity.
  - intros Hf Hi.
    apply String.eqb_neq in Hf. apply String.eqb_neq in Hi. rewrite Hf, Hi. simpl.
    destruct (node_in G selected), (node_in G (reset_hover hovered));
      try destruct (bool_decide _); reflexivity.
  - intros -> Hsome Hall.
    assert (Hsel : is_none selected || is_all selected = false).
    { destruct selected as [s|]; [|congruence]. simpl. unfold is_all.
      apply String.eqb_neq. congruence. }
    rewrite Hsel. simpl.
    destruct (node_in G selected), (node_in G (reset_hover hovered));
      try destruct (bool_decide _); reflexivity.
  - intros -> Htruthy _. rewrite Htruthy. simpl.
    destruct (node_in G selected), (node_in G (reset_hover hovered));
      try destruct (bool_decide _); reflexivity.
  - intros node a. apply node_style_opacity.
Qed.

(** C4 (as stated) fails: in filter mode with [A] selected, [C] is in the
    dim set, is drawn with opacity 0.2 and is outside the visible set. *)
Lemma C4_dim_set_counterexample :
  snd (_determine_interaction_state Example.graph (Some "A") None "filter") = {[ "C" ]}
  /\ fst (_determine_visible_elements Example.graph (Some "A") None
            ["upstream"; "downstream"] "filter") = {[ "A"; "B" ]}
  /\ drawn_opacities
       (build_figure Example.valid_color Example.builder (Some "A")
          ["upstream"; "downstream"] "filter" None 0)
     = [ ("A", 1.0%Q); ("B", 1.0%Q); ("C", 0.2%Q) ].
Proof. repeat split; vm_compute; reflexivity. Qed.

(** ** The "All" selection *)

(** Visibility treats "All" as no selection, in every mode. *)
Lemma visible_all_is_none (G : DiGraph) (hovered : option string)
    (directions : list string) (mode : string) :
  _determine_visible_elements G (Some "All") hovered directions mode
  = _determine_visible_elements G None hovered directions mode.
Proof. reflexivity. Qed.

(** So does the interaction state in filter mode. *)
Lemma state_all_is_none_filter (G : DiGraph) (hovered : option string) :
  _determine_interaction_state G (Some "All") hovered "filter"
  = _determine_interaction_state G None hovered "filter".
Proof. reflexivity. Qed.

(** The rendering callback drops "All" before it calls the builder. *)
Lemma update_graph_all_is_none (valid_color : string -> bool)
    (order : Callbacks.SetOrder) (graph_builder : GraphBuilder)
    (directions : option (list string)) (mode : string) (hover : option string) (now : Q) :
  Callbacks.update_graph valid_color order graph_builder (Some "All") directions mode
    hover now
  = Callbacks.update_graph valid_color order graph_builder None directions mode
      hover now.
Proof. reflexivity. Qed.

(** C2.  In interactive mode the interaction state does not treat "All" as
    no selection: on the example graph nothing is dimmed without a selection,
    and every node is dimmed and drawn with opacity 0.2 when "All" is
    selected. *)
Theorem C2_all_in_interactive_mode :
  _determine_interaction_state Example.graph None None "interactive" = (∅, ∅, ∅)
  /\ _determine_interaction_state Example.graph (Some "All") None "interactive"
     = (∅, ∅, {[ "A"; "B"; "C" ]})
  /\ drawn_opacities
       (build_figure Example.valid_color Example.builder None
          ["upstream"; "downstream"] "interactive" None 0)
     = [ ("A", 1.0%Q); ("B", 1.0%Q); ("C", 1.0%Q) ]
  /\ drawn_opacities
       (build_figure Example.valid_color Example.builder (Some "All")
          ["upstream"; "downstream"] "interactive" None 0)
     = [ ("A", 0.2%Q); ("B", 0.2%Q); ("C", 0.2%Q) ].
Proof. repeat split; vm_compute; reflexivity. Qed.

(** ** Graph construction and styling *)

(** Splits a hypothesis [x ← m; k = Ok r] into [m = Ok x] and [k x = Ok r]. *)
Ltac bind_inv H :=
  cbv beta in H;
  match type of H with
  | mbind _ ?m = Ok _ =>
      let x := fresh "x" in
      let E := fresh "E" in
      destruct m as [x|] eqn:E; cbn [mbind Result_bind] in H; [|discriminate H]
  end.

Module BuildFacts.

Lemma set_edge_In (es : list Edge) (u v : string) (d : EdgeData) (e : Edge) :
  In e (DiGraph.set_edge es u v d) -> e = (u, v, d) \/ In e es.
Proof.
  induction es as [|[[u' v'] d'] es IH]; simpl.
  - intros [<- | []]. now left.
  - destruct (String.eqb u' u && String.eqb v' v) eqn:Heq; simpl.
    + apply andb_prop in Heq as [Hu Hv].
      apply String.eqb_eq in Hu. apply String.eqb_eq in Hv. subst.
      intros [<- | H]; auto.
    + intros [<- | H]; auto. destruct (IH H); auto.
Qed.

Lemma attrs_of_In (nodes : list (string * option NodeAttrs)) (n : string)
    (a : NodeAttrs) :
  DiGraph.attrs_of nodes n = Some a -> In n (map fst nodes).
Proof.
  induction nodes as [|[m b] nodes IH]; simpl; [discriminate|].
  destruct (String.eqb_spec m n) as [->|Hne]; auto.
Qed.

Lemma set_attrs_ids (nodes : list (string * option NodeAttrs)) (n : string)
    (a : option NodeAttrs) :
  In n (map fst nodes) -> map fst (DiGraph.set_attrs nodes n a) = map fst nodes.
Proof.
  induction nodes as [|[m b] nodes IH]; simpl; [intros []|].
  destruct (String.eqb_spec m n) as [->|Hne]; [reflexivity|].
  intros [H | H]; [contradiction|]. simpl. now rewrite IH.
Qed.

Lemma node_attrs_Ok (G : DiGraph) (n key : string) (a : NodeAttrs) :
  DiGraph.node_attrs G n key = Ok a -> DiGraph.attrs_of (g_nodes G) n = Some a.
Proof.
  unfold DiGraph.node_attrs. destruct (DiGraph.attrs_of (g_nodes G) n); [|discriminate].
  now intros [= ->].
Qed.

(** Styling changes attribute dicts only: the nodes and edges stay. *)
Lemma apply_node_styles_shape (G G' : DiGraph) (selected hovered : option string)
    (highlight_nodes dim_nodes : gset string) :
  _apply_node_styles G selected hovered highlight_nodes dim_nodes = Ok G' ->
  g_edges G' = g_edges G /\ DiGraph.node_ids G' = DiGraph.node_ids G.
Proof.
  unfold _apply_node_styles.
  apply (for_each_inv
           (fun H => g_edges H = g_edges G
                     /\ DiGraph.node_ids H = DiGraph.node_ids G)); [now split|].
  intros H node H' _ [He Hn] Hstep. bind_inv Hstep.
  inversion Hstep; subst H'. unfold DiGraph.node_ids in *. cbn [g_edges g_nodes].
  split; [exact He|]. rewrite <- Hn. apply set_attrs_ids.
  eapply attrs_of_In, node_attrs_Ok, E.
Qed.

(** Every edge of the built graph carries the data of a dependency row
    with the same endpoints. *)
Lemma build_graph_edges (self : GraphBuilder) (positions : Positions) (G : DiGraph) :
  _build_networkx_graph self positions = Ok G ->
  forall e, In e (g_edges G) ->
    exists row, In row (edges_df self)
                /\ SOURCE_DOMAIN_ID row = source e
                /\ TARGET_DOMAIN_ID row = target e
                /\ WEIGHT row = weight (data e)
                /\ TIER row = tier (data e).
Proof.
  unfold _build_networkx_graph. intros Hrun. bind_inv Hrun.
  inversion Hrun; subst G; clear Hrun.
  assert (H0 : g_edges x = []).
  { eapply (for_each_inv (fun H => g_edges H = [])); [| |exact E]; [reflexivity|].
    intros H row H' _ He Hstep. bind_inv Hstep. destruct x0 as [[w h] l].
    bind_inv Hstep. inversion Hstep; subst H'. exact He. }
  apply fold_left_inv.
  - rewrite H0. intros e [].
  - intros H row Hrow IH e He. cbn [DiGraph.add_edge g_edges] in He.
    apply set_edge_In in He as [-> | He]; [|now apply IH].
    exists row. now repeat split.
Qed.

Lemma visible_edges_In (G : DiGraph) (selected hovered : option string)
    (directions : list string) (mode : string) (e : Edge) :
  In e (snd (_determine_visible_elements G selected hovered directions mode)) ->
  In e (g_edges G).
Proof.
  unfold _determine_visible_elements, visible_around.
  repeat match goal with
         | |- context [if ?c then _ else _] => destruct c
         | |- context [match ?c with Some _ => _ | None => _ end] => destruct c
         end; cbn [snd]; try (intros []);
    solve [ apply DiGraphFacts.edges_In
          | intros H; now apply DiGraphFacts.directional_edges_In in H ].
Qed.

End BuildFacts.

(** ** Edge styling *)

(** C10.  Whatever the selection, hover, mode and directions, every edge
    trace of a figure has opacity 0.6 and a line width of three times the
    weight of the dependency it draws. *)
Theorem C10_edge_style (valid_color : string -> bool) (self : GraphBuilder)
    (selected : option string) (directions : list string) (mode : string)
    (hovered : option string) (now : Q) (fig : Figure) :
  build_figure valid_color self selected directions mode hovered now = Ok fig ->
  Forall
    (fun t =>
       trace_opacity t = 0.6%Q
       /\ exists row, In row (edges_df self)
                      /\ SOURCE_DOMAIN_ID row = trace_source t
                      /\ TARGET_DOMAIN_ID row = trace_target t
                      /\ line_width t = (3 * WEIGHT row)%Q)
    (edge_traces fig).
Proof.
  unfold build_figure. intros Hrun.
  bind_inv Hrun. rename x into positions, E into Hpos.
  bind_inv Hrun. rename x into G, E into Hbuild.
  bind_inv Hrun. rename x into G', E into Hstyle.
  bind_inv Hrun. rename x into traces, E into Htraces.
  bind_inv Hrun. bind_inv Hrun. bind_inv Hrun. bind_inv Hrun.
  inversion Hrun; subst fig; clear Hrun. cbn [edge_traces].
  apply BuildFacts.apply_node_styles_shape in Hstyle as [Hedges _].
  set (ve := snd (_determine_visible_elements G' selected hovered directions mode)) in *.
  assert (Hve : forall e, In e ve -> In e (g_edges G)).
  { intros e He. rewrite <- Hedges. eapply BuildFacts.visible_edges_In, He. }
  assert (Hall : Forall2 (fun e t => edge_trace valid_color self G'
                                          (DiGraph.get_pos G) e = Ok t)
                         ve traces).
  { destruct ve as [|e0 ve0] eqn:Hv.
    - inversion Htraces; subst. constructor.
    - unfold _create_edge_traces in Htraces.
      apply for_each_collect in Htraces as (ts & -> & H). exact H. }
  clear Htraces. induction Hall as [|e t es ts He _ IH]; constructor.
  - apply edge_trace_names in He as (Hs & Ht & Ho & Hw). split; [exact Ho|].
    destruct (BuildFacts.build_graph_edges _ _ _ Hbuild e) as (row & Hrow & H1 & H2 & H3 & _).
    { apply Hve. now left. }
    exists row. rewrite Hs, Ht, Hw, H3. now repeat split.
  - apply IH. intros e' He'. apply Hve. now right.
Qed.

Lemma C10_edge_style_witness :
  exists fig,
    build_figure Example.valid_color Example.builder (Some "A") ["downstream"]
      "interactive" (Some "B") 0
    = Ok fig
    /\ Forall
         (fun t =>
            trace_opacity t = 0.6%Q
            /\ exists row, In row (edges_df Example.builder)
                           /\ SOURCE_DOMAIN_ID row = trace_source t
                           /\ TARGET_DOMAIN_ID row = trace_target t
                           /\ line_width t = (3 * WEIGHT row)%Q)
         (edge_traces fig).
Proof.
  eexists. split; [vm_compute; reflexivity|].
  apply (C10_edge_style Example.valid_color Example.builder (Some "A") ["downstream"]
           "interactive" (Some "B") 0).
  vm_compute. reflexivity.
Defined.

(** ** Collision test and retry loop *)

Lemma Qlt_bool_iff (a b : Q) : Qlt_bool a b = true <-> (a < b)%Q.
Proof.
  unfold Qlt_bool. rewrite negb_true_iff, <- not_true_iff_false, Qle_bool_iff.
  split; [apply Qnot_le_lt | apply Qlt_not_le].
Qed.

Section Retry.
Context {T : Type} {number : Number T}.
Variables (calculate_y_grid : nat -> T -> list T) (count : nat) (tier_offset : T)
          (heights : list T) (used : UsedCoordsOf T) (x_group : Z).



Lemma find_y_grid_attempts (attempts : nat) :
  forall (y_spacing : T) (y_grid : list T),
    exists k,
      (k < S attempts)%nat
      /\ find_y_grid calculate_y_grid (S attempts) count y_spacing tier_offset heights
           used x_group y_grid
         = calculate_y_grid count (spacing_after k y_spacing)
      /\ (forall j, (j < k)%nat ->
                    attempt_collides calculate_y_grid count tier_offset heights used
                      x_group (spacing_after j y_spacing) = true)
      /\ (k = attempts
          \/ attempt_collides calculate_y_grid count tier_offset heights used x_group
               (spacing_after k y_spacing) = false).
Proof.
  induction attempts as [|attempts IH]; intros y_spacing y_grid.
  - exists 0%nat. simpl. split; [lia | split; [|split]].
    + now destruct (_has_intelligent_collisions _ _ _ _).
    + intros j Hj. lia.
    + now left.
  - cbn [find_y_grid].
    destruct (_has_intelligent_collisions _ heights used x_group) eqn:Hc; cbn [negb].
    + destruct (IH (num_mul y_spacing num_1_08) (calculate_y_grid count y_spacing))
        as (k & Hk & Hres & Hbefore & Hlast).
      exists (S k). unfold spacing_after in *. rewrite !Nat.iter_succ_r.
      split; [lia | split; [exact Hres | split]].
      * intros [|j] Hj; [exact Hc|]. rewrite Nat.iter_succ_r. apply Hbefore. lia.
      * destruct Hlast as [-> | Hlast]; [now left | now right].
    + exists 0%nat. split; [lia | split; [reflexivity | split]].
      * intros j Hj. lia.
      * now right.
Qed.
End Retry.

Section Doubles.
Import PrimFloat.



(** A bucket that collides on all fifteen attempts is committed all the same:
    a single node keeps offset 0 however the spacing grows. *)
Example retry_exhausted :
  let calculate_y_grid := fun (count : nat) (y_spacing : float) => [0%float] in
  let used : UsedCoordsOf float := [ ((1, 3.6%float), 0.3%float) ] in
  attempt_collides (number := binary64) calculate_y_grid 1 3.6%float [0.3%float] used 1
    (spacing_after 14 0.7%float)
  = true
  /\ find_y_grid (number := binary64) calculate_y_grid 15 1 0.7%float 3.6%float
       [0.3%float] used 1 []
     = [0%float].
Proof. split; vm_compute; reflexivity. Qed.

(** Rounding decides the test at the edge of the gap.  A node of height 0.3
    at 3.6 and a placed node of height 0.3 at 3.15 are exactly 0.15 apart;
    in doubles [3.6 - 0.15] is above [3.15 + 0.15 + 0.15], and the program
    sees no collision where exact arithmetic sees one. *)
Example gap_edge_rounding :
  extents_overlap (number := binary64) 3.6%float 0.3%float 3.15%float 0.3%float = false
  /\ extents_overlap (number := rational) 3.6%Q 0.3%Q 3.15%Q 0.3%Q = true.
Proof. split; vm_compute; reflexivity. Qed.

End Doubles.

(** ** Positions in the figure *)

Module PlaceFacts.

Lemma getitem_Ok {V : Type} (d : gmap string V) (k : string) (v : V) :
  getitem d k = Ok v -> d !! k = Some v.
Proof. unfold getitem. destruct (d !! k); [now intros [= ->] | discriminate]. Qed.

Lemma set_attrs_In (nodes : list (string * option NodeAttrs)) (n : string)
    (a : option NodeAttrs) (m : string) (x : option NodeAttrs) :
  In (m, x) (DiGraph.set_attrs nodes n a) -> (m = n /\ x = a) \/ In (m, x) nodes.
Proof.
  induction nodes as [|[k b] nodes IH]; simpl.
  - intros [[= <- <-] | []]. now left.
  - destruct (String.eqb_spec k n) as [->|Hne]; simpl.
    + intros [[= <- <-] | H]; auto.
    + intros [H | H]; auto. destruct (IH H); auto.
Qed.

Lemma touch_node_In (nodes : list (string * option NodeAttrs)) (n m : string)
    (a : NodeAttrs) :
  In (m, Some a) (DiGraph.touch_node nodes n) -> In (m, Some a) nodes.
Proof.
  unfold DiGraph.touch_node. destruct (existsb _ _); [auto|].
  rewrite in_app_iff. intros [H | [[=] | []]]. exact H.
Qed.

(** Every position of the graph's [pos] attribute map is the [pos] attribute
    of one of its nodes. *)
Lemma get_pos_In (G : DiGraph) (n : string) (p : Q * Q) :
  DiGraph.get_pos G !! n = Some p ->
  exists a, In (n, Some a) (g_nodes G) /\ pos a = p.
Proof.
  unfold DiGraph.get_pos. revert n p.
  apply (fold_left_inv
           (fun (m : gmap string (Q * Q)) =>
              forall n p, m !! n = Some p ->
                          exists a, In (n, Some a) (g_nodes G) /\ pos a = p)).
  - intros n p H. now rewrite lookup_empty in H.
  - intros m [k [a|]] Hin IH n p; [|apply IH].
    destruct (decide (k = n)) as [->|Hne].
    + rewrite lookup_insert_eq. intros [= <-]. now exists a.
    + rewrite lookup_insert_ne by exact Hne. apply IH.
Qed.

(** The [pos] attribute of a node of the built graph is its entry in the
    position table. *)
Lemma build_graph_positions (self : GraphBuilder) (positions : Positions) (G : DiGraph) :
  _build_networkx_graph self positions = Ok G ->
  forall n a, In (n, Some a) (g_nodes G) -> positions !! n = Some (pos a).
Proof.
  unfold _build_networkx_graph. intros Hrun. bind_inv Hrun.
  inversion Hrun; subst G; clear Hrun.
  apply (fold_left_inv
           (fun H => forall n a, In (n, Some a) (g_nodes H) ->
                                 positions !! n = Some (pos a))).
  - eapply (for_each_inv
              (fun H => forall n a, In (n, Some a) (g_nodes H) ->
                                    positions !! n = Some (pos a))); [| |exact E].
    + intros n a [].
    + intros H row H' _ IH Hstep. bind_inv Hstep. destruct x0 as [[w h] l].
      bind_inv Hstep. inversion Hstep; subst H'. cbn [DiGraph.add_node g_nodes].
      intros n a Hin. apply set_attrs_In in Hin as [[-> Ha] | Hin]; [|now apply IH].
      inversion Ha; subst a. cbn [pos]. now apply getitem_Ok.
  - intros H row _ IH n a Hin. cbn [DiGraph.add_edge g_nodes] in Hin.
    now apply touch_node_In, touch_node_In, IH in Hin.
Qed.

(** The annotation loop places each node where the [pos] map says. *)
Lemma annotations_placed (G : DiGraph) (pos : gmap string (Q * Q)) (ns : list string) :
  forall acc r,
    for_each
      (fun '(shapes, annotations) n =>
         sa ← node_shape_and_annotation G pos n;
         Ok (shapes ++ [fst sa], annotations ++ [snd sa]))
      ns acc = Ok r ->
    exists anns,
      snd r = snd acc ++ anns
      /\ Forall2 (fun n a => pos !! n = Some (ann_x a, ann_y a) /\ ann_node a = n) ns anns.
Proof.
  induction ns as [|n ns IH]; intros [shapes annotations] r Hrun; simpl in Hrun.
  - inversion Hrun; subst. exists []. simpl. split; [now rewrite app_nil_r | constructor].
  - destruct (node_shape_and_annotation G pos n) as [[s a]|] eqn:Hn;
      simpl in Hrun; [|discriminate].
    apply IH in Hrun as (anns & Hr & Hall). simpl in Hr.
    exists (a :: anns). split; [now rewrite Hr, <- app_assoc|].
    constructor; [|exact Hall].
    unfold node_shape_and_annotation in Hn.
    destruct (getitem pos n) as [[x y]|] eqn:Hp; simpl in Hn; [|discriminate].
    destruct (DiGraph.node_attrs G n "width"); simpl in Hn; [|discriminate].
    inversion Hn; subst. cbn [ann_x ann_y ann_node]. split; [|reflexivity].
    now apply getitem_Ok.
Qed.

Lemma places_agree (pos : gmap string (Q * Q)) (ns : list string) :
  forall anns1 anns2,
    Forall2 (fun n a => pos !! n = Some (ann_x a, ann_y a) /\ ann_node a = n) ns anns1 ->
    Forall2 (fun n a => pos !! n = Some (ann_x a, ann_y a) /\ ann_node a = n) ns anns2 ->
    map place anns1 = map place anns2.
Proof.
  induction ns as [|n ns IH]; intros anns1 anns2 H1 H2;
    inversion H1 as [|? a1 ? l1 [Hp1 Hn1] Ht1]; subst;
    inversion H2 as [|? a2 ? l2 [Hp2 Hn2] Ht2]; subst; [reflexivity|].
  simpl. rewrite (IH _ _ Ht1 Ht2). unfold place.
  rewrite Hp1 in Hp2. inversion Hp2. now rewrite Hn2.
Qed.

Lemma placed_from_table (self : GraphBuilder) (positions : Positions) (G : DiGraph) :
  _build_networkx_graph self positions = Ok G ->
  forall ns anns,
    Forall2 (fun n a => DiGraph.get_pos G !! n = Some (ann_x a, ann_y a)
                        /\ ann_node a = n) ns anns ->
    Forall (fun a => positions !! ann_node a = Some (ann_x a, ann_y a)) anns.
Proof.
  intros Hbuild ns anns Hall.
  induction Hall as [|n a ns l [Hp Hn] _ IH]; constructor; [|exact IH].
  apply get_pos_In in Hp as (attrs & Hin & Hxy).
  rewrite Hn, <- Hxy. eapply build_graph_positions; eassumption.
Qed.

(** What a run of [build_figure] fixes about the labels it draws. *)
Lemma figure_places (valid_color : string -> bool) (self : GraphBuilder)
    (selected : option string) (directions : list string) (mode : string)
    (hovered : option string) (now : Q) (fig : Figure) :
  build_figure valid_color self selected directions mode hovered now = Ok fig ->
  exists positions G,
    _assign_stacked_positions self = Ok positions
    /\ _build_networkx_graph self positions = Ok G
    /\ Forall2 (fun n a => DiGraph.get_pos G !! n = Some (ann_x a, ann_y a)
                           /\ ann_node a = n)
               (DiGraph.node_ids G) (node_annotations fig)
    /\ datarevision fig = py_int (now * 1000)%Q.
Proof.
  unfold build_figure. intros Hrun.
  bind_inv Hrun. rename x into positions, E into Hpos.
  bind_inv Hrun. rename x into G, E into Hbuild.
  bind_inv Hrun. rename x into G', E into Hstyle.
  bind_inv Hrun. bind_inv Hrun. bind_inv Hrun. rename x1 into sa, E1 into Hsa.
  bind_inv Hrun. bind_inv Hrun. inversion Hrun; subst fig; clear Hrun.
  exists positions, G. cbn [node_annotations datarevision].
  split; [reflexivity | split; [exact Hbuild | split; [|reflexivity]]].
  apply BuildFacts.apply_node_styles_shape in Hstyle as [_ Hids].
  unfold _create_node_shapes_and_annotations in Hsa.
  apply annotations_placed in Hsa as (anns & Hr & Hall).
  simpl in Hr. rewrite Hr, <- Hids. exact Hall.
Qed.

End PlaceFacts.

(** C6.  Two runs of the figure builder over the same tables draw every node
    at the same coordinates, whatever the interaction inputs and the clock
    readings of the two runs; the coordinates are those of the position
    table, which is a function of the domain table alone. *)
Theorem C6_positions_deterministic (valid_color : string -> bool) (self : GraphBuilder)
    (selected1 selected2 hovered1 hovered2 : option string)
    (directions1 directions2 : list string) (mode1 mode2 : string) (now1 now2 : Q)
    (fig1 fig2 : Figure) :
  build_figure valid_color self selected1 directions1 mode1 hovered1 now1 = Ok fig1 ->
  build_figure valid_color self selected2 directions2 mode2 hovered2 now2 = Ok fig2 ->
  map place (node_annotations fig1) = map place (node_annotations fig2)
  /\ exists positions,
      _assign_stacked_positions self = Ok positions
      /\ Forall (fun a => positions !! ann_node a = Some (ann_x a, ann_y a))
                (node_annotations fig1 ++ node_annotations fig2).
Proof.
  intros H1 H2.
  apply PlaceFacts.figure_places in H1 as (positions & G & Hpos & Hbuild & Hall1 & _).
  apply PlaceFacts.figure_places in H2 as (positions' & G' & Hpos' & Hbuild' & Hall2 & _).
  rewrite Hpos in Hpos'. inversion Hpos'; subst positions'.
  rewrite Hbuild in Hbuild'. inversion Hbuild'; subst G'.
  split; [eapply PlaceFacts.places_agree; eassumption|].
  exists positions. split; [exact Hpos|].
  apply Forall_app.
  split; eapply PlaceFacts.placed_from_table; eassumption.
Qed.

Lemma C6_positions_deterministic_witness :
  exists fig1 fig2,
    build_figure Example.valid_color Example.builder (Some "A") ["downstream"]
      "filter" None 17 = Ok fig1
    /\ build_figure Example.valid_color Example.builder None ["upstream"]
         "interactive" (Some "B") 42 = Ok fig2
    /\ map place (node_annotations fig1) = map place (node_annotations fig2)
    /\ datarevision fig1 <> datarevision fig2.
Proof.
  eexists. eexists.
  split; [vm_compute; reflexivity|]. split; [vm_compute; reflexivity|].
  split; [|vm_compute; discriminate].
  refine (proj1 (C6_positions_deterministic Example.valid_color Example.builder
                   (Some "A") None None (Some "B") ["downstream"] ["upstream"]
                   "filter" "interactive" 17 42 _ _ _ _));
    vm_compute; reflexivity.
Defined.

(** The position table does not read the dependency table. *)
Lemma positions_ignore_edges (nodes : list NodeRow) (edges1 edges2 : list EdgeRow)
    (steepness1 steepness2 : Q) (b1 b2 : GraphBuilder) :
  GraphBuilder_init nodes edges1 steepness1 = Ok b1 ->
  GraphBuilder_init nodes edges2 steepness2 = Ok b2 ->
  _assign_stacked_positions b1 = _assign_stacked_positions b2.
Proof.
  unfold GraphBuilder_init. intros H1 H2.
  destruct (_precalculate_node_dimensions nodes) as [dims|]; simpl in H1, H2;
    [|discriminate].
  inversion H1; inversion H2; subst. reflexivity.
Qed.

(** ** Totality of position assignment on the tier bands *)

Module PositionFacts.

(** A loop whose every step succeeds, never loses what [R] tracks and
    establishes [Q] for its element, succeeds and establishes [Q] for all. *)
Lemma for_each_grow {A S : Type} (R : S -> S -> Prop) (Q : A -> S -> Prop)
    (body : S -> A -> Result S) (xs : list A) :
  (forall s, R s s) ->
  (forall s1 s2 s3, R s1 s2 -> R s2 s3 -> R s1 s3) ->
  (forall x s s', Q x s -> R s s' -> Q x s') ->
  (forall s x, In x xs -> exists s', body s x = Ok s' /\ R s s' /\ Q x s') ->
  forall acc, exists r, for_each body xs acc = Ok r /\ R acc r
                        /\ forall x, In x xs -> Q x r.
Proof.
  intros Hrefl Htrans Hmono. induction xs as [|x xs IH]; intros Hstep acc.
  - exists acc. repeat split; [apply Hrefl | intros x []].
  - destruct (Hstep acc x) as (s' & Hb & Hr & Hq); [now left|].
    destruct (IH (fun s y Hy => Hstep s y (or_intror Hy)) s') as (r & Hrun & Hr' & Hall).
    exists r. simpl. rewrite Hb. simpl. split; [exact Hrun|]. split; [eauto|].
    intros y [<- | Hy]; [eapply Hmono; eassumption | now apply Hall].
Qed.

Lemma insert_sorted_In {A : Type} (le : A -> A -> bool) (x y : A) (l : list A) :
  In y (insert_sorted le x l) <-> y = x \/ In y l.
Proof.
  induction l as [|z l IH]; simpl; [intuition|].
  destruct (le x z); simpl; [intuition|]. rewrite IH. intuition.
Qed.

Lemma sort_by_In {A : Type} (le : A -> A -> bool) (y : A) (l : list A) :
  In y (sort_by le l) <-> In y l.
Proof.
  unfold sort_by. induction l as [|x l IH]; simpl; [reflexivity|].
  rewrite insert_sorted_In, IH. intuition.
Qed.

Lemma insert_sorted_length {A : Type} (le : A -> A -> bool) (x : A) (l : list A) :
  length (insert_sorted le x l) = S (length l).
Proof. induction l as [|z l IH]; simpl; [|destruct (le x z); simpl]; congruence. Qed.

Lemma unique_In (y : Z) (l : list Z) : In y (unique l) <-> In y l.
Proof.
  induction l as [|x l IH]; simpl; [reflexivity|].
  rewrite filter_In, IH, negb_true_iff, Z.eqb_neq.
  destruct (Z.eq_dec y x); intuition.
Qed.

(** Every row of a table is in the group of its own key. *)
Lemma groupby_covers (df : list NodeRow) (row : NodeRow) :
  In row df ->
  exists rows, In (X_GROUP row, rows) (groupby_x_group df) /\ In row rows.
Proof.
  intros Hin. unfold groupby_x_group.
  exists (List.filter (fun r => Z.eqb (X_GROUP r) (X_GROUP row)) df). split.
  - apply in_map_iff. exists (X_GROUP row). split; [reflexivity|].
    apply sort_by_In, unique_In, in_map, Hin.
  - apply filter_In. split; [exact Hin | apply Z.eqb_refl].
Qed.

Lemma groupby_rows (df : list NodeRow) (k : Z) (rows : list NodeRow) (row : NodeRow) :
  In (k, rows) (groupby_x_group df) -> In row rows -> In row df.
Proof.
  unfold groupby_x_group. rewrite in_map_iff. intros (k' & [= <- <-] & _) Hin.
  now apply filter_In in Hin.
Qed.

Lemma y_grid_length (count : nat) (y_spacing : Q) :
  length (_calculate_y_grid count y_spacing) = count.
Proof.
  unfold _calculate_y_grid. destruct (Nat.eqb_spec count 1) as [->|_]; [reflexivity|].
  unfold linspace. now rewrite !length_map, length_seq.
Qed.

Lemma getitem_Some {V : Type} (d : gmap string V) (k : string) (v : V) :
  d !! k = Some v -> getitem d k = Ok v.
Proof. unfold getitem. now intros ->. Qed.

Lemma heights_total (dims : gmap string (Q * Q * string)) (rows : list NodeRow) :
  (forall row, In row rows -> is_Some (dims !! DOMAIN_ID row)) ->
  forall acc, exists hs,
    for_each (fun acc row => d ← getitem dims (DOMAIN_ID row); Ok (acc ++ [snd (fst d)]))
             rows acc = Ok (acc ++ hs)
    /\ length hs = length rows.
Proof.
  induction rows as [|row rows IH]; intros Hdims acc.
  - exists []. now rewrite app_nil_r.
  - destruct (Hdims row) as [d Hd]; [now left|].
    destruct (IH (fun r Hr => Hdims r (or_intror Hr)) (acc ++ [snd (fst d)]))
      as (hs & Hrun & Hlen).
    exists (snd (fst d) :: hs). simpl. rewrite (getitem_Some _ _ _ Hd). simpl.
    rewrite Hrun, <- app_assoc. simpl. now rewrite Hlen.
Qed.

Lemma combine_rows {A : Type} (l : list A) (rows : list NodeRow) :
  length l = length rows -> map snd (combine l rows) = rows.
Proof.
  revert l. induction rows as [|r rows IH]; intros [|x l] Hlen;
    simpl in *; try discriminate; [reflexivity|]. now rewrite IH by lia.
Qed.

(** Committing a batch keeps the positions there were and adds one for
    every row of the batch. *)
Lemma commit_keys (x_group : Z) (tier_offset : Q) (l : list (Q * Q * NodeRow)) :
  forall (st : Positions * UsedCoords) (id : string),
    is_Some (fst st !! id) \/ In id (map (fun t => DOMAIN_ID (snd t)) l) ->
    is_Some
      (fst (fold_left
              (fun '(positions, used) '(offset, height, row) =>
                 let x := (inject_Z x_group * LayoutConfig.x_spacing)%Q in
                 let y := (tier_offset + offset)%Q in
                 (<[ DOMAIN_ID row := (x, y) ]> positions,
                  used_set used (x_group, y) height))
              l st) !! id).
Proof.
  induction l as [|[[offset height] row] l IH]; intros [positions used] id; simpl.
  - intros [H | []]. exact H.
  - intros H. apply IH. cbn [fst snd].
    destruct (decide (DOMAIN_ID row = id)) as [<-|Hne].
    + left. rewrite lookup_insert_eq. eauto.
    + rewrite lookup_insert_ne by exact Hne. destruct H as [H | [H | H]]; tauto.
Qed.

Lemma place_bucket_total (dims : gmap string (Q * Q * string)) (tier_offset : Q)
    (st : Positions * UsedCoords) (x_group : Z) (group : list NodeRow) :
  (forall row, In row group -> is_Some (dims !! DOMAIN_ID row)) ->
  exists st', place_bucket dims tier_offset st (x_group, group) = Ok st'
              /\ keeps st st'
              /\ forall row, In row group -> is_Some (fst st' !! DOMAIN_ID row).
Proof.
  intros Hdims. unfold place_bucket.
  set (sorted := sort_by _ group).
  destruct (heights_total dims sorted) with (acc := @nil Q) as (hs & Hrun & Hlen).
  { intros row Hrow. apply Hdims. now apply sort_by_In in Hrow. }
  rewrite Hrun. cbn [mbind Result_bind app].
  eexists. split; [reflexivity|].
  destruct (find_y_grid_attempts _calculate_y_grid (length sorted) tier_offset hs
              (snd st) x_group 14 LayoutConfig.local_y_spacing [])
    as (k & _ & Hgrid & _).
  assert (Hrows : map (fun t : Q * Q * NodeRow => DOMAIN_ID (snd t))
                      (combine (combine
                                  (find_y_grid _calculate_y_grid 15 (length sorted)
                                     LayoutConfig.local_y_spacing tier_offset hs
                                     (snd st) x_group [])
                                  hs) sorted)
                  = map DOMAIN_ID sorted).
  { rewrite <- (map_map snd DOMAIN_ID), combine_rows; [reflexivity|].
    now rewrite length_combine, Hgrid, y_grid_length, Hlen, Nat.min_id. }
  split.
  - intros id Hid. apply commit_keys. now left.
  - intros row Hrow. apply commit_keys. right. rewrite Hrows.
    apply in_map. now apply sort_by_In.
Qed.

(** Position assignment never raises once every domain has dimensions, and
    places every domain whose maturity is one of the three tier bands. *)
Lemma positions_cover_bands (self : GraphBuilder) :
  (forall row, In row (nodes_df self) ->
               is_Some (node_dimensions self !! DOMAIN_ID row)) ->
  exists positions,
    _assign_stacked_positions self = Ok positions
    /\ forall row tier,
        In row (nodes_df self) ->
        In tier (map fst TIER_BAND_COLORS) ->
        isclose (CURRENT_MATURITY row) tier = true ->
        is_Some (positions !! DOMAIN_ID row).
Proof.
  intros Hdims. unfold _assign_stacked_positions.
  destruct (for_each_grow keeps
              (fun (t : Q * Q) st =>
                 forall row, In row (nodes_df self) ->
                             isclose (CURRENT_MATURITY row) (fst t) = true ->
                             is_Some (fst st !! DOMAIN_ID row))
              (fun st '(tier, tier_offset) =>
                 let tier_df :=
                   List.filter (fun row => isclose (CURRENT_MATURITY row) tier)
                               (nodes_df self) in
                 for_each (place_bucket (node_dimensions self) tier_offset)
                          (groupby_x_group tier_df) st)
              _calculate_tier_offsets) with (acc := (∅ : Positions, @nil (Z * Q * Q)))
    as (r & Hrun & _ & Hall).
  - intros st id H. exact H.
  - intros s1 s2 s3 H12 H23 id H. auto.
  - intros t st st' Hq Hk row Hrow Hc. apply Hk. now apply Hq.
  - intros st [tier tier_offset] _. cbv zeta.
    set (tier_df := List.filter _ (nodes_df self)).
    destruct (for_each_grow keeps
                (fun (b : Z * list NodeRow) st =>
                   forall row, In row (snd b) -> is_Some (fst st !! DOMAIN_ID row))
                (place_bucket (node_dimensions self) tier_offset)
                (groupby_x_group tier_df)) with (acc := st)
      as (r & Hrun & Hk & Hall).
    + intros s id H. exact H.
    + intros s1 s2 s3 H12 H23 id H. auto.
    + intros b s s' Hq Hk' row Hrow. apply Hk'. now apply Hq.
    + intros s [x_group group] Hb.
      apply place_bucket_total. intros row Hrow. apply Hdims.
      apply (groupby_rows _ _ _ row) in Hb; [|exact Hrow].
      now apply filter_In in Hb.
    + exists r. split; [exact Hrun | split; [exact Hk|]].
      intros row Hrow Hc. cbn [fst] in Hc.
      destruct (groupby_covers tier_df row) as (rows & Hg & Hr).
      { apply filter_In. now split. }
      exact (Hall _ Hg row Hr).
  - exists (fst r). split.
    { transitivity (st ← Ok r; Ok (fst st)); [|reflexivity].
      f_equal. exact Hrun. }
    intros row tier Hrow Htier Hc.
    assert (Ht : exists off, In (tier, off) _calculate_tier_offsets).
    { change (map fst TIER_BAND_COLORS) with (map fst _calculate_tier_offsets) in Htier.
      apply in_map_iff in Htier as ([t off] & <- & Hin). now exists off. }
    destruct Ht as (off & Hin). exact (Hall _ Hin row Hrow Hc).
Qed.

Lemma column_widths_cover (nodes : list NodeRow) (row : NodeRow) :
  In row nodes -> is_Some (_calculate_optimal_column_widths nodes !! X_GROUP row).
Proof.
  intros Hin. unfold _calculate_optimal_column_widths.
  assert (Hk : In (X_GROUP row) (unique (map X_GROUP nodes))).
  { apply unique_In, in_map, Hin. }
  revert Hk. generalize (unique (map X_GROUP nodes)) as keys.
  assert (Hgen : forall keys (m : gmap Z Q),
             is_Some (m !! X_GROUP row) \/ In (X_GROUP row) keys ->
             is_Some
               (fold_left
                  (fun column_widths x_group =>
                     let column_nodes :=
                       List.filter (fun r => Z.eqb (X_GROUP r) x_group) nodes in
                     <[ x_group := optimal_width column_nodes ]> column_widths)
                  keys m !! X_GROUP row)).
  { induction keys as [|k keys IH]; intros m; simpl.
    - intros [H | []]. exact H.
    - intros H. apply IH. destruct (decide (k = X_GROUP row)) as [->|Hne].
      + left. rewrite lookup_insert_eq. eauto.
      + rewrite lookup_insert_ne by exact Hne. destruct H as [H | [H | H]]; tauto. }
  intros keys Hk. apply Hgen. now right.
Qed.

(** [__init__] never raises, and gives every domain its dimensions. *)
Lemma init_total (nodes : list NodeRow) (edges : list EdgeRow) (steepness : Q) :
  exists self,
    GraphBuilder_init nodes edges steepness = Ok self
    /\ nodes_df self = nodes /\ edges_df self = edges
    /\ forall row, In row nodes -> is_Some (node_dimensions self !! DOMAIN_ID row).
Proof.
  unfold GraphBuilder_init, _precalculate_node_dimensions.
  set (column_widths := _calculate_optimal_column_widths nodes).
  destruct (for_each_grow
              (fun (d d' : gmap string (Q * Q * string)) =>
                 forall id, is_Some (d !! id) -> is_Some (d' !! id))
              (fun row d => is_Some (d !! DOMAIN_ID row))
              (fun dimensions row =>
                 match column_widths !! X_GROUP row with
                 | None => Raise (KeyError (str_of_Z (X_GROUP row)))
                 | Some node_width =>
                     let '(wrapped_label, line_count) :=
                       _wrap_label_intelligently (DOMAIN_NAME row) in
                     let base_height := 0.18%Q in
                     let line_height := 0.12%Q in
                     let total_height :=
                       (base_height + inject_Z line_count * line_height)%Q in
                     Ok (<[ DOMAIN_ID row := (node_width, total_height, wrapped_label) ]>
                           dimensions)
                 end)
              nodes) with (acc := (∅ : gmap string (Q * Q * string)))
    as (dims & Hrun & _ & Hall).
  - auto.
  - auto.
  - intros row d d' Hq Hk. now apply Hk.
  - intros d row Hrow.
    destruct (column_widths_cover nodes row Hrow) as [w Hw].
    fold column_widths in Hw. rewrite Hw.
    destruct (_wrap_label_intelligently (DOMAIN_NAME row)) as [wrapped count].
    eexists. split; [reflexivity|]. split.
    + intros id Hid. destruct (decide (DOMAIN_ID row = id)) as [<-|Hne].
      * rewrite lookup_insert_eq. eauto.
      * now rewrite lookup_insert_ne.
    + rewrite lookup_insert_eq. eauto.
  - eexists. split.
    { transitivity (d ← Ok dims;
                    Ok {| nodes_df := nodes; edges_df := edges;
                          sigmoid_steepness := steepness; node_dimensions := d |});
        [|reflexivity].
      f_equal. exact Hrun. }
    cbn [nodes_df edges_df node_dimensions]. auto.
Qed.

(** Every domain of a table whose maturities are all tier-band levels gets a
    position. *)
Lemma band_tables_placed (nodes : list NodeRow) (edges : list EdgeRow) (steepness : Q) :
  (forall row, In row nodes ->
               exists tier, In tier (map fst TIER_BAND_COLORS)
                            /\ isclose (CURRENT_MATURITY row) tier = true) ->
  exists self positions,
    GraphBuilder_init nodes edges steepness = Ok self
    /\ _assign_stacked_positions self = Ok positions
    /\ forall row, In row nodes -> is_Some (positions !! DOMAIN_ID row).
Proof.
  intros Hbands.
  destruct (init_total nodes edges steepness) as (self & Hinit & Hn & _ & Hdims).
  destruct (positions_cover_bands self) as (positions & Hpos & Hall).
  { rewrite Hn. exact Hdims. }
  exists self, positions. split; [exact Hinit | split; [exact Hpos|]].
  intros row Hrow. destruct (Hbands row Hrow) as (tier & Ht & Hc).
  apply (Hall row tier); [now rewrite Hn | exact Ht | exact Hc].
Qed.

End PositionFacts.

(** ** Totality on valid models *)

Module TotalFacts.

(** A loop whose every step succeeds and keeps [P], establishes [Q] for its
    element and never loses what [R] tracks, succeeds with all of these. *)
Lemma for_each_total {A S : Type} (P : S -> Prop) (R : S -> S -> Prop)
    (Q : A -> S -> Prop) (body : S -> A -> Result S) (xs : list A) :
  (forall s, R s s) ->
  (forall s1 s2 s3, R s1 s2 -> R s2 s3 -> R s1 s3) ->
  (forall x s s', Q x s -> R s s' -> Q x s') ->
  (forall s x, In x xs -> P s -> exists s', body s x = Ok s' /\ P s' /\ R s s' /\ Q x s') ->
  forall acc, P acc ->
    exists r, for_each body xs acc = Ok r /\ P r /\ R acc r /\ forall x, In x xs -> Q x r.
Proof.
  intros Hrefl Htrans Hmono. induction xs as [|x xs IH]; intros Hstep acc Hacc.
  - exists acc. repeat split; [exact Hacc | apply Hrefl | intros x []].
  - destruct (Hstep acc x) as (s' & Hb & Hp & Hr & Hq); [now left | exact Hacc|].
    destruct (IH (fun s y Hy => Hstep s y (or_intror Hy)) s' Hp)
      as (r & Hrun & Hp' & Hr' & Hall).
    exists r. simpl. rewrite Hb. simpl. split; [exact Hrun|]. split; [exact Hp'|].
    split; [eauto|].
    intros y [<- | Hy]; [eapply Hmono; eassumption | now apply Hall].
Qed.

Lemma for_each_collect_total {A B : Type} (f : A -> Result B) (xs : list A) :
  (forall x, In x xs -> exists y, f x = Ok y) ->
  forall acc, exists ys,
    for_each (fun acc x => y ← f x; Ok (acc ++ [y])) xs acc = Ok (acc ++ ys).
Proof.
  induction xs as [|x xs IH]; intros Hall acc.
  - exists []. now rewrite app_nil_r.
  - destruct (Hall x) as [y Hy]; [now left|].
    destruct (IH (fun z Hz => Hall z (or_intror Hz)) (acc ++ [y])) as [ys Hrun].
    exists (y :: ys). simpl. rewrite Hy. simpl. now rewrite Hrun, <- app_assoc.
Qed.

Lemma attrs_of_found (nodes : list (string * option NodeAttrs)) (n : string) :
  In n (map fst nodes) -> In (n, DiGraph.attrs_of nodes n) nodes.
Proof.
  induction nodes as [|[m b] nodes IH]; simpl; [intros []|].
  destruct (String.eqb_spec m n) as [->|Hne]; [now left|].
  intros [H | H]; [contradiction | right; now apply IH].
Qed.

Lemma set_attrs_ids_In (nodes : list (string * option NodeAttrs)) (n m : string)
    (x : option NodeAttrs) :
  In m (map fst (DiGraph.set_attrs nodes n x)) <-> m = n \/ In m (map fst nodes).
Proof.
  induction nodes as [|[k b] nodes IH]; simpl; [intuition|].
  destruct (String.eqb_spec k n) as [->|Hne]; simpl; [intuition|].
  rewrite IH. intuition.
Qed.

Lemma touch_node_present (nodes : list (string * option NodeAttrs)) (n : string) :
  In n (map fst nodes) -> DiGraph.touch_node nodes n = nodes.
Proof.
  intros H. unfold DiGraph.touch_node.
  apply DiGraphFacts.existsb_eqb_In in H. now rewrite H.
Qed.

Lemma node_attrs_total (nodes : list NodeRow) (G : DiGraph) (n key : string) :
  well_built nodes G -> In n (DiGraph.node_ids G) ->
  exists a, DiGraph.node_attrs G n key = Ok a.
Proof.
  intros Hwb Hin. pose proof (attrs_of_found _ _ Hin) as Hfound.
  destruct (built_attrs _ _ Hwb _ _ Hfound) as [a Ha].
  exists a. unfold DiGraph.node_attrs. now rewrite Ha.
Qed.

Lemma x_group_of_total (self : GraphBuilder) (n : string) :
  In n (map DOMAIN_ID (nodes_df self)) ->
  exists row, In row (nodes_df self) /\ x_group_of self n = Ok (X_GROUP row).
Proof.
  intros Hin. unfold x_group_of. apply in_map_iff in Hin as (row & <- & Hrow).
  destruct (List.filter _ (nodes_df self)) as [|r rs] eqn:Hf.
  - assert (H : In row []); [|destruct H].
    rewrite <- Hf. apply filter_In. split; [exact Hrow | apply String.eqb_refl].
  - exists r. split; [|reflexivity].
    assert (H : In r (r :: rs)) by now left.
    rewrite <- Hf in H. now apply filter_In in H.
Qed.

(** Graph construction succeeds once every domain has dimensions and a
    position. *)
Lemma build_graph_total (self : GraphBuilder) (positions : Positions) :
  (forall row, In row (nodes_df self) ->
               is_Some (node_dimensions self !! DOMAIN_ID row)) ->
  (forall row, In row (nodes_df self) -> is_Some (positions !! DOMAIN_ID row)) ->
  (forall e, In e (edges_df self) ->
             In (SOURCE_DOMAIN_ID e) (map DOMAIN_ID (nodes_df self))
             /\ In (TARGET_DOMAIN_ID e) (map DOMAIN_ID (nodes_df self))) ->
  exists G,
    _build_networkx_graph self positions = Ok G
    /\ well_built (nodes_df self) G
    /\ forall row, In row (nodes_df self) -> In (DOMAIN_ID row) (DiGraph.node_ids G).
Proof.
  intros Hdims Hpos Hedges. unfold _build_networkx_graph.
  destruct (for_each_total
              (fun G => well_built (nodes_df self) G /\ g_edges G = [])
              (fun G G' => forall n, In n (DiGraph.node_ids G) ->
                                     In n (DiGraph.node_ids G'))
              (fun row G => In (DOMAIN_ID row) (DiGraph.node_ids G))
              (fun G row =>
                 d ← getitem (node_dimensions self) (DOMAIN_ID row);
                 let '(width, height, wrapped_label) := d in
                 p ← getitem positions (DOMAIN_ID row);
                 Ok (DiGraph.add_node G (DOMAIN_ID row)
                       {| label := DOMAIN_NAME row;
                          wrapped_label := wrapped_label;
                          category := CATEGORY row;
                          color := COLOR_HEX row;
                          border := BORDER_HEX row;
                          original_border := BORDER_HEX row;
                          pos := p;
                          width := width;
                          height := height;
                          glow := None;
                          opacity := None |}))
              (nodes_df self)) with (acc := DiGraph.empty)
    as (G0 & Hrun & [Hwb0 He0] & _ & Hcover).
  - auto.
  - auto.
  - intros row G G' Hq Hr. now apply Hr.
  - intros G row Hrow [Hwb He].
    destruct (Hdims row Hrow) as [[[w h] l] Hd]. destruct (Hpos row Hrow) as [p Hp].
    rewrite (PositionFacts.getitem_Some _ _ _ Hd). cbn [mbind Result_bind].
    rewrite (PositionFacts.getitem_Some _ _ _ Hp). cbn [mbind Result_bind].
    eexists. split; [reflexivity|].
    unfold DiGraph.node_ids, DiGraph.add_node.
    split; [split; [constructor|exact He]|split]; cbn [g_nodes g_edges].
    + intros n x Hin. apply PlaceFacts.set_attrs_In in Hin as [[_ ->] | Hin]; [eauto|].
      eapply built_attrs; eassumption.
    + intros n Hin.
      apply set_attrs_ids_In in Hin as [-> | Hin]; [now apply in_map|].
      eapply built_ids; eassumption.
    + rewrite He. intros e [].
    + intros n Hin. apply set_attrs_ids_In. now right.
    + apply set_attrs_ids_In. now left.
  - split; [constructor; [intros n x [] | intros n [] | intros e []] | reflexivity].
  - assert (Hfold :
      well_built (nodes_df self)
        (fold_left
           (fun G row =>
              DiGraph.add_edge G (SOURCE_DOMAIN_ID row) (TARGET_DOMAIN_ID row)
                {| weight := WEIGHT row; tier := TIER row;
                   description := DESCRIPTION row |})
           (edges_df self) G0)
      /\ g_nodes (fold_left
           (fun G row =>
              DiGraph.add_edge G (SOURCE_DOMAIN_ID row) (TARGET_DOMAIN_ID row)
                {| weight := WEIGHT row; tier := TIER row;
                   description := DESCRIPTION row |})
           (edges_df self) G0) = g_nodes G0).
    { apply (fold_left_inv
               (fun G => well_built (nodes_df self) G /\ g_nodes G = g_nodes G0)).
      - now split.
      - intros G e He [Hwb Hn]. destruct (Hedges e He) as [Hs Ht].
        assert (Hu : In (SOURCE_DOMAIN_ID e) (map fst (g_nodes G))).
        { rewrite Hn. apply in_map_iff in Hs as (r & <- & Hr). now apply Hcover. }
        assert (Hv : In (TARGET_DOMAIN_ID e) (map fst (g_nodes G))).
        { rewrite Hn. apply in_map_iff in Ht as (r & <- & Hr). now apply Hcover. }
        assert (Hnodes : g_nodes (DiGraph.add_edge G (SOURCE_DOMAIN_ID e)
                                    (TARGET_DOMAIN_ID e)
                                    {| weight := WEIGHT e; tier := TIER e;
                                       description := DESCRIPTION e |})
                         = g_nodes G).
        { cbn [DiGraph.add_edge g_nodes].
          rewrite (touch_node_present _ _ Hu). now apply touch_node_present. }
        split; [|now rewrite Hnodes].
        constructor; unfold DiGraph.node_ids; rewrite ?Hnodes.
        + apply (built_attrs _ _ Hwb).
        + apply (built_ids _ _ Hwb).
        + intros e' He'. cbn [DiGraph.add_edge g_edges] in He'.
          apply BuildFacts.set_edge_In in He' as [-> | He'];
            [now split | now apply (built_edges _ _ Hwb)]. }
    destruct Hfold as [Hwb Hn].
    eexists. split; [|split; [exact Hwb|]].
    + transitivity (G ← Ok G0;
                    Ok (fold_left
                          (fun G row =>
                             DiGraph.add_edge G (SOURCE_DOMAIN_ID row)
                               (TARGET_DOMAIN_ID row)
                               {| weight := WEIGHT row; tier := TIER row;
                                  description := DESCRIPTION row |})
                          (edges_df self) G)); [|reflexivity].
      f_equal. exact Hrun.
    + intros row Hrow. unfold DiGraph.node_ids. rewrite Hn. now apply Hcover.
Qed.

(** Styling succeeds on a well-built graph and leaves it well built. *)
Lemma styles_total (nodes : list NodeRow) (G : DiGraph) (selected hovered : option string)
    (highlight_nodes dim_nodes : gset string) :
  well_built nodes G ->
  exists G',
    _apply_node_styles G selected hovered highlight_nodes dim_nodes = Ok G'
    /\ well_built nodes G'
    /\ DiGraph.node_ids G' = DiGraph.node_ids G
    /\ g_edges G' = g_edges G.
Proof.
  intros Hwb. unfold _apply_node_styles.
  destruct (for_each_total
              (fun H => well_built nodes H
                        /\ DiGraph.node_ids H = DiGraph.node_ids G
                        /\ g_edges H = g_edges G)
              (fun _ _ => True) (fun _ _ => True)
              (fun G node =>
                 a ← DiGraph.node_attrs G node "original_border";
                 let style := node_style node a selected (reset_hover hovered) dim_nodes in
                 Ok {| g_nodes := DiGraph.set_attrs (g_nodes G) node
                                    (Some (with_style a style));
                       g_edges := g_edges G |})
              (DiGraph.node_ids G)) with (acc := G)
    as (G' & Hrun & (Hwb' & Hids & Hedges) & _).
  - auto.
  - auto.
  - auto.
  - intros H node Hnode (HwbH & HidsH & HedgesH).
    assert (Hin : In node (DiGraph.node_ids H)) by now rewrite HidsH.
    destruct (node_attrs_total nodes H node "original_border" HwbH Hin) as [a Ha].
    rewrite Ha. cbn [mbind Result_bind]. eexists. split; [reflexivity|].
    assert (Hsame : map fst (DiGraph.set_attrs (g_nodes H) node
                               (Some (with_style a
                                        (node_style node a selected
                                           (reset_hover hovered) dim_nodes))))
                    = map fst (g_nodes H)).
    { apply BuildFacts.set_attrs_ids. exact Hin. }
    split; [|auto]. unfold DiGraph.node_ids in *. cbn [g_nodes g_edges].
    split; [|split; [now rewrite Hsame | exact HedgesH]].
    constructor; unfold DiGraph.node_ids; cbn [g_nodes g_edges]; rewrite ?Hsame.
    + intros n x Hx. apply PlaceFacts.set_attrs_In in Hx as [[_ ->] | Hx]; [eauto|].
      eapply built_attrs; eassumption.
    + apply (built_ids _ _ HwbH).
    + apply (built_edges _ _ HwbH).
  - split; [exact Hwb | split; reflexivity].
  - exists G'. auto.
Qed.

(** Every node of a well-built graph has an entry in the [pos] map. *)
Lemma get_pos_total (nodes : list NodeRow) (G : DiGraph) (n : string) :
  well_built nodes G -> In n (DiGraph.node_ids G) -> is_Some (DiGraph.get_pos G !! n).
Proof.
  intros Hwb Hin. pose proof (attrs_of_found _ _ Hin) as Hfound.
  destruct (built_attrs _ _ Hwb _ _ Hfound) as [a Ha]. rewrite Ha in Hfound.
  unfold DiGraph.get_pos.
  assert (Hgen : forall l (m : gmap string (Q * Q)),
             is_Some (m !! n) \/ In (n, Some a) l ->
             is_Some
               (fold_left
                  (fun acc '(k, x) =>
                     match x with
                     | Some x => <[ k := pos x ]> acc
                     | None => acc
                     end) l m !! n)).
  { induction l as [|[k x] l IH]; intros m; simpl.
    - intros [H | []]. exact H.
    - intros H. apply IH. destruct H as [H | [[= -> ->] | H]]; [| |now right].
      + left. destruct x as [x|]; [|exact H].
        destruct (decide (k = n)) as [->|Hne];
          [rewrite lookup_insert_eq; eauto | now rewrite lookup_insert_ne].
      + left. rewrite lookup_insert_eq. eauto. }
  apply Hgen. now right.
Qed.

Lemma check_width_total (property : string) (weight : Q) :
  (0 <= weight)%Q -> check_width property (3 * weight) = Ok ().
Proof.
  intros Hw. unfold check_width.
  destruct (Qlt_bool (3 * weight) 0) eqn:Hlt; [|reflexivity].
  unfold Qlt_bool in Hlt. apply negb_true_iff in Hlt.
  assert (Hle : Qle_bool 0 (3 * weight) = true).
  { apply Qle_bool_iff. apply Qmult_le_0_compat; [discriminate | exact Hw]. }
  congruence.
Qed.

Lemma edge_trace_total (valid_color : string -> bool) (self : GraphBuilder)
    (G G' : DiGraph) (e : Edge) :
  reads_program_colors valid_color ->
  well_built (nodes_df self) G -> well_built (nodes_df self) G' ->
  DiGraph.node_ids G' = DiGraph.node_ids G ->
  In e (g_edges G') ->
  (0 <= weight (data e))%Q ->
  exists t, edge_trace valid_color self G' (DiGraph.get_pos G) e = Ok t.
Proof.
  intros Hreads Hwb Hwb' Hids He Hweight.
  destruct (built_edges _ _ Hwb' e He) as [Hu Hv].
  destruct e as [[u v] d]. unfold source, target in Hu, Hv. cbn [fst snd] in Hu, Hv.
  unfold data in Hweight. cbn [snd] in Hweight.
  unfold edge_trace.
  destruct (get_pos_total _ G u Hwb) as [p0 Hp0]; [now rewrite <- Hids|].
  destruct (get_pos_total _ G v Hwb) as [p1 Hp1]; [now rewrite <- Hids|].
  destruct (x_group_of_total self u) as (ru & _ & Hxu); [now apply (built_ids _ _ Hwb')|].
  destruct (x_group_of_total self v) as (rv & _ & Hxv); [now apply (built_ids _ _ Hwb')|].
  destruct (node_attrs_total _ G' u "width" Hwb' Hu) as [au Hau].
  destruct (node_attrs_total _ G' v "width" Hwb' Hv) as [av Hav].
  rewrite (PositionFacts.getitem_Some _ _ _ Hp0), (PositionFacts.getitem_Some _ _ _ Hp1).
  cbn [mbind Result_bind]. rewrite Hxu, Hxv. cbn [mbind Result_bind].
  rewrite Hau, Hav. cbn [mbind Result_bind].
  pose proof (get_edge_color_spec (X_GROUP ru) (X_GROUP rv) (tier d)) as Hcolor.
  rewrite Hcolor. cbn [mbind Result_bind].
  unfold check_color. rewrite (reads_edge_colors _ Hreads _ _ _ _ Hcolor).
  cbn [mbind Result_bind]. rewrite (check_width_total _ _ Hweight).
  cbn [mbind Result_bind]. eauto.
Qed.

(** The colours of the built graph are the colours of the domain table. *)
Lemma build_graph_colored (valid_color : string -> bool) (self : GraphBuilder)
    (positions : Positions) (G : DiGraph) :
  (forall row, In row (nodes_df self) ->
     valid_color (COLOR_HEX row) = true /\ valid_color (BORDER_HEX row) = true) ->
  _build_networkx_graph self positions = Ok G ->
  well_colored valid_color G.
Proof.
  intros Hcolors. unfold _build_networkx_graph. intros Hrun. bind_inv Hrun.
  inversion Hrun; subst G; clear Hrun.
  assert (H0 : well_colored valid_color x).
  { eapply (for_each_inv (well_colored valid_color)); [| |exact E].
    - intros n a [].
    - intros H row H' Hrow IH Hstep. bind_inv Hstep. destruct x0 as [[w h] l].
      bind_inv Hstep. inversion Hstep; subst H'. intros n a Hin.
      cbn [DiGraph.add_node g_nodes] in Hin.
      apply PlaceFacts.set_attrs_In in Hin as [[_ [= ->]] | Hin]; [|now apply (IH n)].
      cbn [color border original_border].
      destruct (Hcolors row Hrow). auto. }
  apply fold_left_inv; [exact H0|].
  intros H row _ IH n a Hin. cbn [DiGraph.add_edge g_nodes] in Hin.
  apply PlaceFacts.touch_node_In, PlaceFacts.touch_node_In in Hin. now apply (IH n).
Qed.

Lemma node_style_border (node : string) (a : NodeAttrs) (selected hovered : option string)
    (dim_nodes : gset string) :
  style_border (node_style node a selected hovered dim_nodes) = original_border a
  \/ style_border (node_style node a selected hovered dim_nodes) = "#000000"
  \/ style_border (node_style node a selected hovered dim_nodes) = "#FFD700".
Proof.
  unfold node_style.
  destruct (bool_decide (Some node = selected)), (bool_decide (Some node = hovered)),
    (bool_decide (Some node ≠ selected)),
    (bool_decide (dim_nodes ≠ ∅) && bool_decide (node ∈ dim_nodes));
    cbn [style_border]; auto.
Qed.

(** Styling keeps the colours among those plotly reads. *)
Lemma styles_colored (valid_color : string -> bool) (G G' : DiGraph)
    (selected hovered : option string) (highlight_nodes dim_nodes : gset string) :
  reads_program_colors valid_color ->
  well_colored valid_color G ->
  _apply_node_styles G selected hovered highlight_nodes dim_nodes = Ok G' ->
  well_colored valid_color G'.
Proof.
  intros Hreads Hcol. unfold _apply_node_styles.
  apply (for_each_inv (well_colored valid_color)); [exact Hcol|].
  intros H node H' _ IH Hstep. bind_inv Hstep. rename x into a0.
  inversion Hstep; subst H'. intros n a Hin. cbn [g_nodes] in Hin.
  apply PlaceFacts.set_attrs_In in Hin as [[_ [= ->]] | Hin]; [|now apply (IH n)].
  apply BuildFacts.node_attrs_Ok in E.
  assert (Hfound : In (node, Some a0) (g_nodes H)).
  { rewrite <- E. apply attrs_of_found. eapply BuildFacts.attrs_of_In, E. }
  destruct (IH _ _ Hfound) as (Hc & _ & Ho).
  cbn [with_style color border original_border].
  split; [exact Hc | split; [|exact Ho]].
  destruct (node_style_border node a0 selected (reset_hover hovered) dim_nodes)
    as [-> | [-> | ->]];
    [exact Ho | apply (reads_selected_border _ Hreads)
     | apply (reads_hovered_border _ Hreads)].
Qed.

(** The shapes are drawn in the colours of the graph, so plotly reads them. *)
Lemma shapes_colored (valid_color : string -> bool) (G : DiGraph)
    (pos : gmap string (Q * Q)) (visible_nodes : gset string)
    (sa : list NodeShape * list Annotation) :
  well_colored valid_color G ->
  _create_node_shapes_and_annotations G pos visible_nodes = Ok sa ->
  check_node_shapes valid_color (fst sa) = Ok ().
Proof.
  intros Hcol Hrun.
  assert (Hall : Forall (fun shape =>
                           valid_color (shape_fillcolor shape) = true
                           /\ valid_color (shape_line_color shape) = true) (fst sa)).
  { revert Hrun. unfold _create_node_shapes_and_annotations.
    apply (for_each_inv
             (fun acc : list NodeShape * list Annotation =>
                Forall (fun shape =>
                          valid_color (shape_fillcolor shape) = true
                          /\ valid_color (shape_line_color shape) = true) (fst acc)));
      [constructor|].
    intros [shapes anns] n acc' _ IH Hstep. bind_inv Hstep.
    inversion Hstep; subst acc'. cbn [fst] in *.
    apply Forall_app. split; [exact IH|]. constructor; [|constructor].
    unfold node_shape_and_annotation in E. bind_inv E. destruct x0 as [px py].
    bind_inv E. rename x0 into a. inversion E; subst x. cbn [fst shape_fillcolor shape_line_color].
    apply BuildFacts.node_attrs_Ok in E1.
    assert (Hfound : In (n, Some a) (g_nodes G)).
    { rewrite <- E1. apply attrs_of_found. eapply BuildFacts.attrs_of_In, E1. }
    destruct (Hcol _ _ Hfound) as (Hc & Hb & _). now split. }
  unfold check_node_shapes. clear Hrun. generalize dependent (fst sa).
  intros shapes Hall.
  assert (Hcheck : forall property c,
             valid_color c = true -> check_color valid_color property c = Ok ()).
  { intros property c Hc. unfold check_color. now rewrite Hc. }
  induction Hall as [|shape shapes [Hf Hl] _ IH]; [reflexivity|].
  cbn [for_each]. rewrite (Hcheck _ _ Hf). cbn [mbind Result_bind].
  rewrite (Hcheck _ _ Hl). cbn [mbind Result_bind]. exact IH.
Qed.

Lemma shapes_total (nodes : list NodeRow) (G G' : DiGraph) (visible_nodes : gset string) :
  well_built nodes G -> well_built nodes G' ->
  DiGraph.node_ids G' = DiGraph.node_ids G ->
  exists sa, _create_node_shapes_and_annotations G' (DiGraph.get_pos G) visible_nodes
             = Ok sa.
Proof.
  intros Hwb Hwb' Hids. unfold _create_node_shapes_and_annotations.
  destruct (for_each_total
              (fun _ : list NodeShape * list Annotation => True)
              (fun _ _ => True) (fun (_ : string) _ => True)
              (fun '(shapes, annotations) n =>
                 sa ← node_shape_and_annotation G' (DiGraph.get_pos G) n;
                 Ok (shapes ++ [fst sa], annotations ++ [snd sa]))
              (DiGraph.node_ids G')) with (acc := (@nil NodeShape, @nil Annotation))
    as (r & Hrun & _); auto.
  - intros [shapes annotations] n Hn _.
    unfold node_shape_and_annotation.
    destruct (get_pos_total _ G n Hwb) as [[x y] Hp]; [now rewrite <- Hids|].
    destruct (node_attrs_total _ G' n "width" Hwb' Hn) as [a Ha].
    rewrite (PositionFacts.getitem_Some _ _ _ Hp). cbn [mbind Result_bind].
    rewrite Ha. cbn [mbind Result_bind]. eauto.
  - exists r. exact Hrun.
Qed.

Lemma labelled_group (x_group : Z) :
  1 <= x_group <= 4 -> is_Some (X_GROUP_LABELS !! x_group).
Proof.
  intros H.
  assert (Hc : x_group = 1 \/ x_group = 2 \/ x_group = 3 \/ x_group = 4) by lia.
  destruct Hc as [-> | [-> | [-> | ->]]]; vm_compute; eauto.
Qed.

Lemma group_annotations_total (self : GraphBuilder) (G : DiGraph)
    (pos : gmap string (Q * Q)) :
  well_built (nodes_df self) G ->
  (forall row, In row (nodes_df self) -> 1 <= X_GROUP row <= 4) ->
  check_x_group_annotations self G pos = Ok ().
Proof.
  intros Hwb Hgroups. unfold check_x_group_annotations.
  destruct (for_each_total
              (fun _ : () => True) (fun _ _ => True) (fun (_ : string) _ => True)
              (fun _ node_id =>
                 x_group ← x_group_of self node_id;
                 match X_GROUP_LABELS !! x_group with
                 | Some _ => Ok ()
                 | None => Raise (KeyError (str_of_Z x_group))
                 end)
              (List.filter (fun n => bool_decide (is_Some (pos !! n)))
                           (DiGraph.node_ids G))) with (acc := ())
    as ([] & Hrun & _); auto.
  intros s n Hn _. apply filter_In in Hn as [Hn _].
  destruct (x_group_of_total self n) as (row & Hrow & Hx);
    [now apply (built_ids _ _ Hwb)|].
  rewrite Hx. cbn [mbind Result_bind].
  destruct (labelled_group (X_GROUP row) (Hgroups row Hrow)) as [l ->]. eauto.
Qed.

End TotalFacts.

(** C1 (as amended).  Let plotly read the colours the program draws nodes
    and edges in by itself.  On a valid model - at least one domain, every
    maturity on one of the tier bands 1.0, 1.5 and 2.0, every column one of
    the groups 1 to 4, every colour of the domain table one that plotly
    reads, every dependency between domains of the table and of a weight
    that is not negative - the builder is created, position assignment
    gives every domain a position, and [build_figure] returns a figure for
    every combination of interaction inputs. *)
Theorem C1_valid_model_total (valid_color : string -> bool)
    (nodes : list NodeRow) (edges : list EdgeRow) (steepness : Q)
    (selected : option string) (directions : list string) (mode : string)
    (hovered : option string) (now : Q) :
  reads_program_colors valid_color ->
  valid_model valid_color nodes edges ->
  exists self positions fig,
    GraphBuilder_init nodes edges steepness = Ok self
    /\ _assign_stacked_positions self = Ok positions
    /\ (forall row, In row nodes -> is_Some (positions !! DOMAIN_ID row))
    /\ build_figure valid_color self selected directions mode hovered now = Ok fig.
Proof.
  intros Hreads Hvalid.
  destruct (PositionFacts.init_total nodes edges steepness)
    as (self & Hinit & Hn & He & Hdims).
  rewrite <- Hn in Hdims.
  destruct (PositionFacts.positions_cover_bands self Hdims) as (positions & Hpos & Hall).
  assert (Hplaced : forall row, In row nodes -> is_Some (positions !! DOMAIN_ID row)).
  { intros row Hrow.
    destruct (valid_bands _ _ _ Hvalid row Hrow) as (tier & Ht & Hc).
    apply (Hall row tier); [now rewrite Hn | exact Ht | exact Hc]. }
  destruct (TotalFacts.build_graph_total self positions) as (G & Hbuild & Hwb & Hcover).
  { exact Hdims. }
  { intros row Hrow. rewrite Hn in Hrow. now apply Hplaced. }
  { rewrite Hn, He. apply (valid_edges _ _ _ Hvalid). }
  assert (Hcol : well_colored valid_color G).
  { apply (TotalFacts.build_graph_colored valid_color self positions); [|exact Hbuild].
    rewrite Hn. apply (valid_colors _ _ _ Hvalid). }
  exists self, positions.
  cut (exists fig,
          build_figure valid_color self selected directions mode hovered now = Ok fig).
  { intros [fig Hfig]. exists fig. auto. }
  unfold build_figure.
  rewrite Hpos. cbn [mbind Result_bind]. rewrite Hbuild. cbn [mbind Result_bind].
  set (state := _determine_interaction_state G selected hovered mode).
  destruct (TotalFacts.styles_total _ G selected hovered (fst (fst state)) (snd state) Hwb)
    as (G' & Hstyle & Hwb' & Hids & Hedges).
  pose proof (TotalFacts.styles_colored _ _ _ _ _ _ _ Hreads Hcol Hstyle) as Hcol'.
  rewrite Hstyle. cbn [mbind Result_bind].
  set (visible := _determine_visible_elements G' selected hovered directions mode).
  assert (Htraces : exists traces,
             match snd visible with
             | [] => Ok []
             | _ :: _ =>
                 _create_edge_traces valid_color self G' (DiGraph.get_pos G)
                   (snd visible) (fst visible) mode
             end = Ok traces).
  { destruct (TotalFacts.for_each_collect_total
                (edge_trace valid_color self G' (DiGraph.get_pos G)) (snd visible))
      with (acc := @nil EdgeTrace) as [ts Hts].
    - intros e He'.
      assert (HeG : In e (g_edges G')) by (eapply BuildFacts.visible_edges_In, He').
      apply (TotalFacts.edge_trace_total valid_color self G G'); auto.
      rewrite Hedges in HeG.
      destruct (BuildFacts.build_graph_edges _ _ _ Hbuild e HeG)
        as (row & Hrow & _ & _ & Hw & _).
      rewrite <- Hw. apply (valid_weights _ _ _ Hvalid). now rewrite <- He.
    - destruct (snd visible); eauto. }
  destruct Htraces as [traces Htraces]. rewrite Htraces. cbn [mbind Result_bind].
  assert (Hbg : check_tier_backgrounds (DiGraph.get_pos G) = Ok ()).
  { unfold check_tier_backgrounds.
    destruct nodes as [|row rest]; [now destruct (valid_nonempty _ _ _ Hvalid)|].
    assert (Hrow : In row (nodes_df self)) by (rewrite Hn; now left).
    destruct (TotalFacts.get_pos_total _ G (DOMAIN_ID row) Hwb (Hcover row Hrow))
      as [p Hp].
    rewrite bool_decide_eq_false_2; [reflexivity|].
    intros Hempty. rewrite Hempty, lookup_empty in Hp. discriminate Hp. }
  rewrite Hbg. cbn [mbind Result_bind].
  destruct (TotalFacts.shapes_total _ G G' (fst visible) Hwb Hwb' Hids) as [sa Hsa].
  rewrite Hsa. cbn [mbind Result_bind].
  rewrite (TotalFacts.group_annotations_total self G' (DiGraph.get_pos G) Hwb').
  - cbn [mbind Result_bind].
    rewrite (TotalFacts.shapes_colored _ _ _ _ _ Hcol' Hsa).
    cbn [mbind Result_bind]. eauto.
  - rewrite Hn. apply (valid_groups _ _ _ Hvalid).
Qed.

Lemma C1_valid_model_total_witness :
  exists self positions fig,
    GraphBuilder_init Example.nodes Example.edges 6 = Ok self
    /\ _assign_stacked_positions self = Ok positions
    /\ (forall row, In row Example.nodes -> is_Some (positions !! DOMAIN_ID row))
    /\ build_figure Example.valid_color self (Some "B") ["upstream"] "interactive"
         (Some "RESET") 3 = Ok fig.
Proof.
  apply (C1_valid_model_total Example.valid_color Example.nodes Example.edges 6
           (Some "B") ["upstream"] "interactive" (Some "RESET") 3).
  - constructor; [reflexivity | reflexivity|].
    intros xu xv tier edge_color Hcolor.
    rewrite get_edge_color_spec in Hcolor. inversion Hcolor; subst edge_color.
    unfold Spec.edge_color. destruct (Spec.channels _) as [[r g] b].
    unfold rgb_string. reflexivity.
  - constructor.
    + discriminate.
    + intros row [<- | [<- | [<- | []]]];
        [exists 1.0%Q | exists 1.0%Q | exists 1.5%Q];
        (split; [vm_compute; tauto | vm_compute; reflexivity]).
    + intros row [<- | [<- | [<- | []]]]; vm_compute; split; discriminate.
    + intros row [<- | [<- | [<- | []]]]; vm_compute; split; reflexivity.
    + intros e [<- | []]. vm_compute. tauto.
    + intros e [<- | []]. vm_compute. discriminate.
Defined.

(** C1 (as stated) fails: a domain of maturity 3.0 gets no position, because
    position assignment only walks the tier bands 1.0, 1.5 and 2.0; the graph
    construction then looks the missing position up, and [build_figure]
    raises [KeyError] for every combination of interaction inputs, whatever
    plotly reads as a colour. *)
Lemma C1_valid_model_total_counterexample :
  let self := Example.builder_of Example.nodes_with_level_3 Example.edges in
  GraphBuilder_init Example.nodes_with_level_3 Example.edges 6 = Ok self
  /\ (exists positions,
         _assign_stacked_positions self = Ok positions
         /\ positions !! "E" = None
         /\ _build_networkx_graph self positions = Raise (KeyError "E"))
  /\ (forall valid_color selected directions mode hovered now,
         build_figure valid_color self selected directions mode hovered now
         = Raise (KeyError "E")).
Proof.
  cbv zeta. split; [vm_compute; reflexivity|].
  assert (Hpos : exists positions,
             _assign_stacked_positions
               (Example.builder_of Example.nodes_with_level_3 Example.edges)
             = Ok positions
             /\ positions !! "E" = None
             /\ _build_networkx_graph
                  (Example.builder_of Example.nodes_with_level_3 Example.edges)
                  positions
                = Raise (KeyError "E")).
  { eexists. split; [vm_compute; reflexivity|]. split; vm_compute; reflexivity. }
  split; [exact Hpos|].
  destruct Hpos as (positions & Hp & _ & Hb).
  intros valid_color selected directions mode hovered now.
  unfold build_figure. rewrite Hp. cbn [mbind Result_bind]. now rewrite Hb.
Qed.

(** The other two conditions of a valid model are needed as well: an empty
    table and a column outside the four labelled groups make [build_figure]
    raise. *)
Example empty_table_raises :
  build_figure Example.valid_color (Example.builder_of [] []) None
    ["upstream"; "downstream"] "filter" None 0
  = Raise (ValueError "min() arg is an empty sequence").
Proof. vm_compute. reflexivity. Qed.

Example unlabelled_group_raises :
  build_figure Example.valid_color
    (Example.builder_of [Example.domain "A" "Data Governance" 0 1.0] [])
    None ["upstream"; "downstream"] "filter" None 0
  = Raise (KeyError "0").
Proof. vm_compute. reflexivity. Qed.

(** So are the conditions on weights and colours: plotly rejects the line
    width of a dependency of negative weight when its trace is created, and
    a domain colour it cannot read when the figure is assembled. *)
Example negative_weight_raises :
  build_figure Example.valid_color
    (Example.builder_of Example.nodes [Example.dependency "A" "B" (-1) 1])
    None ["upstream"; "downstream"] "filter" None 0
  = Raise (ValueError "scatter.line.width").
Proof. vm_compute. reflexivity. Qed.

Example unread_color_raises :
  build_figure Example.valid_color
    (Example.builder_of
       [ {| DOMAIN_ID := "A"; DOMAIN_NAME := "Data Governance"; X_GROUP := 1;
            CURRENT_MATURITY := 1.0; CATEGORY := "Core";
            COLOR_HEX := "#f0f0f0"; BORDER_HEX := "dark" |} ] [])
    None ["upstream"; "downstream"] "filter" None 0
  = Raise (ValueError "layout.shape.line.color").
Proof. vm_compute. reflexivity. Qed.

(** * Further properties of the code *)

(** ** Direction validation *)

Lemma is_valid_direction_iff (d : string) :
  Callbacks.is_valid_direction d = true <-> d = "upstream" \/ d = "downstream".
Proof.
  unfold Callbacks.is_valid_direction. rewrite orb_true_iff, !String.eqb_eq. tauto.
Qed.

Lemma list_valid_cases (order : Callbacks.SetOrder) :
  Callbacks.list_valid order = ["upstream"; "downstream"]
  \/ Callbacks.list_valid order = ["downstream"; "upstream"].
Proof. destruct order; [now left | now right]. Qed.

(** [_validate_directions] always yields a non-empty list of valid direction
    names: a non-empty input keeps its valid names in order, and an input
    that is missing, empty or without any valid name yields both directions,
    in the order in which Python iterates over the set [valid].  Validating
    twice changes nothing, and which names the result holds does not depend
    on the iteration order. *)
Theorem validate_directions_sound (order : Callbacks.SetOrder)
    (directions : option (list string)) :
  Callbacks._validate_directions order directions <> []
  /\ Forall (fun d => d = "upstream" \/ d = "downstream")
            (Callbacks._validate_directions order directions)
  /\ (forall ds, directions = Some ds ->
                 List.filter Callbacks.is_valid_direction ds <> [] ->
                 Callbacks._validate_directions order directions
                 = List.filter Callbacks.is_valid_direction ds)
  /\ (forall ds, directions = Some ds ->
                 List.filter Callbacks.is_valid_direction ds = [] ->
                 Callbacks._validate_directions order directions
                 = Callbacks.list_valid order)
  /\ (directions = None ->
      Callbacks._validate_directions order directions = Callbacks.list_valid order)
  /\ (Callbacks.list_valid order = ["upstream"; "downstream"]
      \/ Callbacks.list_valid order = ["downstream"; "upstream"])
  /\ Callbacks._validate_directions order
       (Some (Callbacks._validate_directions order directions))
     = Callbacks._validate_directions order directions
  /\ (forall order' d,
         In d (Callbacks._validate_directions order' directions)
         <-> In d (Callbacks._validate_directions order directions)).
Proof.
  assert (Hcases : forall o,
            Callbacks._validate_directions o directions = Callbacks.list_valid o
            \/ exists ds, directions = Some ds
                          /\ List.filter Callbacks.is_valid_direction ds <> []
                          /\ Callbacks._validate_directions o directions
                             = List.filter Callbacks.is_valid_direction ds).
  { intros o. unfold Callbacks._validate_directions.
    destruct directions as [[|d ds]|]; [destruct o; now left | | destruct o; now left].
    destruct (List.filter Callbacks.is_valid_direction (d :: ds)) as [|k kept] eqn:Hf;
      [now left|].
    right. exists (d :: ds). rewrite Hf. repeat split. discriminate. }
  assert (Hvalid : Forall (fun d => d = "upstream" \/ d = "downstream")
                          (Callbacks._validate_directions order directions)).
  { destruct (Hcases order) as [-> | (ds & _ & _ & ->)].
    - destruct order; (constructor; [auto | constructor; [auto | constructor]]).
    - apply List.Forall_forall. intros d Hd. apply filter_In in Hd as [_ Hd].
      now apply is_valid_direction_iff. }
  assert (Hne : Callbacks._validate_directions order directions <> []).
  { destruct (Hcases order) as [-> | (ds & _ & Hne & ->)];
      [destruct order; discriminate | exact Hne]. }
  split; [exact Hne|]. split; [exact Hvalid|].
  split; [|split; [|split; [|split; [|split]]]].
  - intros ds -> Hds. unfold Callbacks._validate_directions.
    destruct ds as [|d ds]; [now destruct Hds|].
    destruct (List.filter Callbacks.is_valid_direction (d :: ds)); [now destruct Hds|].
    reflexivity.
  - intros ds -> Hds. unfold Callbacks._validate_directions.
    destruct ds as [|d ds]; [destruct order; reflexivity|]. now rewrite Hds.
  - intros ->. destruct order; reflexivity.
  - apply list_valid_cases.
  - set (r := Callbacks._validate_directions order directions) in *.
    assert (Hfix : List.filter Callbacks.is_valid_direction r = r).
    { clear Hne. induction Hvalid as [|d l Hd _ IH]; [reflexivity|]. simpl.
      apply is_valid_direction_iff in Hd. now rewrite Hd, IH. }
    unfold Callbacks._validate_directions at 1.
    destruct r as [|d l] eqn:Hr; [now destruct Hne|]. now rewrite Hfix.
  - assert (Hboth : forall o d, In d (Callbacks.list_valid o)
                                <-> d = "upstream" \/ d = "downstream").
    { intros o d. destruct o; simpl; intuition. }
    intros order' d. unfold Callbacks._validate_directions.
    destruct directions as [[|d0 ds]|].
    + destruct order', order; simpl; intuition.
    + destruct (List.filter Callbacks.is_valid_direction (d0 :: ds)); [|tauto].
      now rewrite !Hboth.
    + destruct order', order; simpl; intuition.
Qed.

(** ** More on colours *)

(** The colour of an edge does not depend on its direction: swapping the
    groups of source and target gives the same colour. *)
Theorem edge_color_symmetric (xu xv tier : Z) :
  _get_edge_color xu xv tier = _get_edge_color xv xu tier.
Proof.
  unfold _get_edge_color, edge_base_color.
  now rewrite (union_comm_L ({[ xu ]} : gset Z) {[ xv ]}).
Qed.

Module ColourFacts.

Lemma py_int_floor (q : Q) : (0 <= q)%Q -> py_int q = Qfloor q.
Proof.
  destruct q as [n d]. unfold Qle, py_int, Qfloor. simpl. intros H.
  apply Z.quot_div_nonneg; lia.
Qed.

Lemma hex_digit_range (c : ascii) (x : Z) : hex_digit c = Some x -> 0 <= x <= 15.
Proof.
  unfold hex_digit.
  repeat match goal with
         | |- context [if ?b then _ else _] => destruct b eqn:?
         end; intros [= <-]; lia.
Qed.

Lemma substring_length (s : string) :
  forall n m, String.length (substring n m s) = Nat.min m (String.length s - n).
Proof.
  induction s as [|c s IH]; intros [|n] [|m]; simpl; try reflexivity.
  - now rewrite IH, Nat.sub_0_r.
  - apply IH.
  - apply IH.
Qed.

Lemma int16_raises (s : string) (e : Exn) : int16 s = Raise e -> e = ValueError s.
Proof.
  unfold int16.
  destruct (match rstrip_space (lstrip_space s) with
            | String c rest => _
            | EmptyString => _
            end); [discriminate | now intros [= <-]].
Qed.

(** Two hexadecimal digits are read as the number they write, for every pair
    of characters: checked on all of them. *)
Lemma int16_pairs :
  forallb
    (fun a =>
       forallb
         (fun b =>
            match hex_digit (ascii_of_nat a), hex_digit (ascii_of_nat b) with
            | Some x, Some y =>
                match int16 (String (ascii_of_nat a)
                               (String (ascii_of_nat b) EmptyString)) with
                | Ok v => v =? 16 * x + y
                | Raise _ => false
                end
            | _, _ => true
            end)
         (seq 0 256))
    (seq 0 256) = true.
Proof. vm_compute. reflexivity. Qed.

Lemma int16_two_digits (a b : ascii) (x y : Z) :
  hex_digit a = Some x -> hex_digit b = Some y ->
  int16 (String a (String b EmptyString)) = Ok (16 * x + y) /\ 0 <= 16 * x + y <= 255.
Proof.
  intros Ha Hb.
  assert (Hin : forall c, In (nat_of_ascii c) (seq 0 256)).
  { intros c. apply in_seq. split; [lia | apply nat_ascii_bounded]. }
  pose proof int16_pairs as H. rewrite forallb_forall in H.
  specialize (H _ (Hin a)). rewrite forallb_forall in H. specialize (H _ (Hin b)).
  rewrite !ascii_nat_embedding, Ha, Hb in H.
  destruct (int16 _) as [v|]; [|discriminate H].
  apply Z.eqb_eq in H. subst v.
  apply hex_digit_range in Ha, Hb. split; [reflexivity | lia].
Qed.

(** One channel under the three shifts of the brightness map: the result is
    still a channel value, not darker at +0.3, not lighter at -0.3 and the
    channel itself at 0.0.  Checked in double arithmetic on all 256 values. *)
Lemma blend_table :
  forallb
    (fun n =>
       let c := Z.of_nat n in
       match blend Float64.c_0_3 c, blend Float64.c_0 c, blend Float64.c_neg_0_3 c with
       | Ok up, Ok same, Ok down =>
           (c <=? up) && (up <=? 255) && (same =? c) && (0 <=? down) && (down <=? c)
       | _, _, _ => false
       end)
    (seq 0 256) = true.
Proof. vm_compute. reflexivity. Qed.

Lemma blend_channel (c : Z) :
  0 <= c <= 255 ->
  exists up down,
    blend Float64.c_0_3 c = Ok up /\ blend Float64.c_0 c = Ok c
    /\ blend Float64.c_neg_0_3 c = Ok down
    /\ c <= up <= 255 /\ 0 <= down <= c.
Proof.
  intros Hc. pose proof blend_table as H. rewrite forallb_forall in H.
  assert (Hin : In (Z.to_nat c) (seq 0 256)) by (apply in_seq; lia).
  specialize (H _ Hin). cbv zeta in H. rewrite Z2Nat.id in H by lia.
  destruct (blend Float64.c_0_3 c) as [up|]; [|discriminate H].
  destruct (blend Float64.c_0 c) as [same|]; [|discriminate H].
  destruct (blend Float64.c_neg_0_3 c) as [down|]; [|discriminate H].
  rename H into Hok.
  apply andb_prop in Hok as [Hok H5]. apply andb_prop in Hok as [Hok H4].
  apply andb_prop in Hok as [Hok H3]. apply andb_prop in Hok as [H1 H2].
  apply Z.leb_le in H1, H2, H4, H5. apply Z.eqb_eq in H3. subst same.
  exists up, down. repeat split; auto.
Qed.

End ColourFacts.

(** For a colour of six hexadecimal digits after the leading [#] and the
    shift that the brightness map has for a tier (+0.3 for tier 2, -0.3 for
    tier 4, 0.0 otherwise), [_adjust_brightness] returns the [rgb(...)] text
    of three channels between 0 and 255: none darker than before for tier 2,
    none lighter for tier 4, all unchanged for the other tiers.  The
    arithmetic is that of doubles.  A colour with fewer than five characters
    after the leading [#] raises [ValueError], whatever the shift. *)
Theorem adjust_brightness_range (hex_color : string) (tier : Z) :
  (hex6 (lstrip_hash hex_color) = true ->
   exists r g b r' g' b',
     int16 (substring 0 2 (lstrip_hash hex_color)) = Ok r
     /\ int16 (substring 2 2 (lstrip_hash hex_color)) = Ok g
     /\ int16 (substring 4 2 (lstrip_hash hex_color)) = Ok b
     /\ _adjust_brightness hex_color (default Float64.c_0 (BRIGHTNESS_MAP !! tier))
        = Ok (rgb_string r' g' b')
     /\ Forall2 (fun c c' => 0 <= c <= 255 /\ 0 <= c' <= 255
                             /\ (tier = 2 -> c <= c')
                             /\ (tier = 4 -> c' <= c)
                             /\ (tier <> 2 -> tier <> 4 -> c' = c))
                [r; g; b] [r'; g'; b'])
  /\ ((String.length (lstrip_hash hex_color) < 5)%nat ->
      forall shift,
      exists what, _adjust_brightness hex_color shift = Raise (ValueError what)).
Proof.
  split.
  - intros Hhex. unfold hex6 in Hhex. apply andb_prop in Hhex as [Hlen Hdigits].
    apply Nat.eqb_eq in Hlen.
    destruct (lstrip_hash hex_color) as [|c0 [|c1 [|c2 [|c3 [|c4 [|c5 [|]]]]]]] eqn:Hs;
      try discriminate Hlen.
    cbn in Hdigits.
    destruct (hex_digit c0) as [x0|] eqn:H0; [|discriminate].
    destruct (hex_digit c1) as [x1|] eqn:H1; [|discriminate].
    destruct (hex_digit c2) as [x2|] eqn:H2; [|discriminate].
    destruct (hex_digit c3) as [x3|] eqn:H3; [|discriminate].
    destruct (hex_digit c4) as [x4|] eqn:H4; [|discriminate].
    destruct (hex_digit c5) as [x5|] eqn:H5; [|discriminate].
    destruct (ColourFacts.int16_two_digits c0 c1 x0 x1 H0 H1) as [Hr Hr'].
    destruct (ColourFacts.int16_two_digits c2 c3 x2 x3 H2 H3) as [Hg Hg'].
    destruct (ColourFacts.int16_two_digits c4 c5 x4 x5 H4 H5) as [Hb Hb'].
    set (r := 16 * x0 + x1) in *. set (g := 16 * x2 + x3) in *.
    set (b := 16 * x4 + x5) in *.
    destruct (ColourFacts.blend_channel r Hr') as (ru & rd & Hru & Hr0 & Hrd & Hrur & Hrdr).
    destruct (ColourFacts.blend_channel g Hg') as (gu & gd & Hgu & Hg0 & Hgd & Hgur & Hgdr).
    destruct (ColourFacts.blend_channel b Hb') as (bu & bd & Hbu & Hb0 & Hbd & Hbur & Hbdr).
    unfold _adjust_brightness. rewrite Hs. cbn [substring].
    rewrite Hr, Hg, Hb. cbn [mbind Result_bind].
    unfold BRIGHTNESS_MAP.
    destruct (Z.eq_dec tier 2) as [->|T2];
      [|destruct (Z.eq_dec tier 3) as [->|T3]; [|destruct (Z.eq_dec tier 4) as [->|T4]]].
    + change (default Float64.c_0 (_ !! 2)) with Float64.c_0_3.
      rewrite Hru, Hgu, Hbu. cbn [mbind Result_bind].
      exists r, g, b, ru, gu, bu. repeat (split; [reflexivity|]).
      repeat constructor; try lia; intros; lia.
    + change (default Float64.c_0 (_ !! 3)) with Float64.c_0.
      rewrite Hr0, Hg0, Hb0. cbn [mbind Result_bind].
      exists r, g, b, r, g, b. repeat (split; [reflexivity|]).
      repeat constructor; try lia; intros; lia.
    + change (default Float64.c_0 (_ !! 4)) with Float64.c_neg_0_3.
      rewrite Hrd, Hgd, Hbd. cbn [mbind Result_bind].
      exists r, g, b, rd, gd, bd. repeat (split; [reflexivity|]).
      repeat constructor; try lia; intros; lia.
    + rewrite !lookup_insert_ne, lookup_singleton_ne by congruence. cbn [default].
      rewrite Hr0, Hg0, Hb0. cbn [mbind Result_bind].
      exists r, g, b, r, g, b. repeat (split; [reflexivity|]).
      repeat constructor; try lia; intros; lia.
  - intros Hlen shift. unfold _adjust_brightness.
    assert (Hlast : substring 4 2 (lstrip_hash hex_color) = "").
    { pose proof (ColourFacts.substring_length (lstrip_hash hex_color) 4 2) as H.
      destruct (substring 4 2 (lstrip_hash hex_color)); [reflexivity|].
      cbn [String.length] in H. lia. }
    rewrite Hlast.
    destruct (int16 (substring 0 2 (lstrip_hash hex_color))) as [r|e] eqn:Hr;
      cbn [mbind Result_bind];
      [|apply ColourFacts.int16_raises in Hr; subst e; eauto].
    destruct (int16 (substring 2 2 (lstrip_hash hex_color))) as [g|e] eqn:Hg;
      cbn [mbind Result_bind];
      [|apply ColourFacts.int16_raises in Hg; subst e; eauto].
    change (int16 "") with (@Raise Z (ValueError "")). cbn [mbind Result_bind]. eauto.
Qed.

Lemma adjust_brightness_range_witness :
  hex6 (lstrip_hash "#4A90E2") = true
  /\ exists r g b r' g' b',
       int16 (substring 0 2 (lstrip_hash "#4A90E2")) = Ok r
       /\ int16 (substring 2 2 (lstrip_hash "#4A90E2")) = Ok g
       /\ int16 (substring 4 2 (lstrip_hash "#4A90E2")) = Ok b
       /\ _adjust_brightness "#4A90E2" (default Float64.c_0 (BRIGHTNESS_MAP !! 2))
          = Ok (rgb_string r' g' b')
       /\ Forall2 (fun c c' => 0 <= c <= 255 /\ 0 <= c' <= 255
                               /\ (2 = 2 -> c <= c')
                               /\ (2 = 4 -> c' <= c)
                               /\ (2 <> 2 -> 2 <> 4 -> c' = c))
                  [r; g; b] [r'; g'; b'].
Proof.
  assert (H : hex6 (lstrip_hash "#4A90E2") = true) by reflexivity.
  split; [exact H | exact (proj1 (adjust_brightness_range "#4A90E2" 2) H)].
Defined.

(** Outside these colours [int] and the float blend show: five characters
    leave a one-digit third pair, a sign or a blank inside a pair is read as
    [int] reads it, and the blend of 90 by -0.3 is [int(62.99999999999999)]. *)
Example five_characters_parsed :
  _adjust_brightness "#12345" Float64.c_0 = Ok "rgb(18,52,5)".
Proof. vm_compute. reflexivity. Qed.

Example signed_pairs_parsed :
  _adjust_brightness "#+A-B C" Float64.c_0 = Ok "rgb(10,-11,12)".
Proof. vm_compute. reflexivity. Qed.

Example blend_truncates_rounded_product :
  _adjust_brightness "#5AAAB4" Float64.c_neg_0_3 = Ok "rgb(62,118,125)".
Proof. vm_compute. reflexivity. Qed.

(** ** More on the interaction state *)

Module StateFacts.

Lemma node_in_Some (G : DiGraph) (x : option string) (n : string) :
  node_in G x = Some n -> x = Some n /\ n <> "" /\ In n (DiGraph.node_ids G).
Proof.
  unfold node_in. destruct x as [s|]; [|discriminate].
  destruct (truthy (Some s) && DiGraph.has_node G s) eqn:H; [|discriminate].
  intros [= <-]. apply andb_prop in H as [Ht Hn].
  apply DiGraphFacts.has_node_In in Hn. simpl in Ht.
  apply negb_true_iff, String.eqb_neq in Ht. auto.
Qed.

Lemma node_in_None (G : DiGraph) (s : string) :
  ~ In s (DiGraph.node_ids G) -> node_in G (Some s) = None.
Proof.
  intros Hn. unfold node_in.
  destruct (DiGraph.has_node G s) eqn:H; [|now rewrite andb_false_r].
  now apply DiGraphFacts.has_node_In in H.
Qed.

Lemma node_set_In (G : DiGraph) (n : string) :
  n ∈ DiGraph.node_set G <-> In n (DiGraph.node_ids G).
Proof. unfold DiGraph.node_set. rewrite elem_of_list_to_set. apply list_elem_of_In. Qed.

Lemma neighbours_iff (G : DiGraph) (s n : string) :
  n ∈ (list_to_set (map target (DiGraph.out_edges G s))
       ∪ list_to_set (map source (DiGraph.in_edges G s)) : gset string)
  <-> exists d, In (s, n, d) (g_edges G) \/ In (n, s, d) (g_edges G).
Proof.
  rewrite elem_of_union, !elem_of_list_to_set, !list_elem_of_In, !in_map_iff. split.
  - intros [([[u v] d] & <- & He) | ([[u v] d] & <- & He)].
    + apply DiGraphFacts.out_edges_In in He as [He <-]. exists d. now left.
    + apply DiGraphFacts.in_edges_In in He as [He <-]. exists d. now right.
  - intros [d [He | He]]; [left; exists (s, n, d) | right; exists (n, s, d)];
      (split; [reflexivity|]).
    + now apply DiGraphFacts.out_edges_In.
    + now apply DiGraphFacts.in_edges_In.
Qed.

End StateFacts.

(** The general form of the interaction state past the early return. *)
Lemma interaction_state_form (G : DiGraph) (selected hovered : option string)
    (mode : string) :
  String.eqb mode "filter" && (is_none selected || is_all selected) = false ->
  exists (base secondary extra dim : gset string),
    _determine_interaction_state G selected hovered mode
    = (base ∪ extra, secondary, dim)
    /\ extra ⊆ DiGraph.node_set G
    /\ (dim = ∅ \/ dim = DiGraph.node_set G ∖ (base ∪ extra) ∖ secondary)
    /\ match node_in G selected with
       | Some s =>
           base = {[ s ]}
           /\ secondary = list_to_set (map target (DiGraph.out_edges G s))
                          ∪ list_to_set (map source (DiGraph.in_edges G s))
       | None => base = ∅ /\ secondary = ∅
       end.
Proof.
  intros Hearly. unfold _determine_interaction_state. rewrite Hearly.
  set (pair := match node_in G selected with
               | Some s => _
               | None => _
               end).
  exists (fst pair), (snd pair).
  assert (Hpair : match node_in G selected with
                  | Some s =>
                      fst pair = {[ s ]}
                      /\ snd pair = list_to_set (map target (DiGraph.out_edges G s))
                                    ∪ list_to_set (map source (DiGraph.in_edges G s))
                  | None => fst pair = ∅ /\ snd pair = ∅
                  end).
  { subst pair. destruct (node_in G selected); now split. }
  destruct pair as [hl sec]. cbn [fst snd] in *.
  assert (Hhl : exists extra : gset string,
             extra ⊆ DiGraph.node_set G
             /\ match node_in G (reset_hover hovered) with
                | Some h =>
                    if bool_decide (reset_hover hovered ≠ selected)
                    then hl ∪ {[ h ]} else hl
                | None => hl
                end = hl ∪ extra).
  { destruct (node_in G (reset_hover hovered)) as [h|] eqn:Hh.
    - apply StateFacts.node_in_Some in Hh as (_ & _ & Hh).
      apply StateFacts.node_set_In in Hh.
      destruct (bool_decide (reset_hover hovered ≠ selected)).
      + exists {[ h ]}. split; [|reflexivity].
        intros x Hx. apply elem_of_singleton in Hx. now subst.
      + exists ∅. split; [apply empty_subseteq | now rewrite union_empty_r_L].
    - exists ∅. split; [apply empty_subseteq | now rewrite union_empty_r_L]. }
  destruct Hhl as (extra & Hextra & ->).
  exists extra.
  destruct (String.eqb mode "filter");
    [|destruct (String.eqb mode "interactive" && truthy selected)];
    eexists; (split; [reflexivity|]); (split; [exact Hextra|]);
    (split; [|exact Hpair]); auto.
Qed.

(** Whatever the inputs, the highlighted and the dimmed nodes are nodes of
    the graph and no dimmed node is highlighted or secondary.  When the
    selection is a node of the graph (and not the filter-mode "All"), it is
    highlighted, never dimmed, and the secondary nodes are exactly its
    neighbours over incoming and outgoing edges alike. *)
Theorem interaction_state_invariants (G : DiGraph) (selected hovered : option string)
    (mode : string) :
  fst (fst (_determine_interaction_state G selected hovered mode)) ⊆ DiGraph.node_set G
  /\ snd (_determine_interaction_state G selected hovered mode) ⊆ DiGraph.node_set G
  /\ (snd (_determine_interaction_state G selected hovered mode)
      ## fst (fst (_determine_interaction_state G selected hovered mode)))
  /\ (snd (_determine_interaction_state G selected hovered mode)
      ## snd (fst (_determine_interaction_state G selected hovered mode)))
  /\ (forall s, node_in G selected = Some s ->
                String.eqb mode "filter" && is_all selected = false ->
                s ∈ fst (fst (_determine_interaction_state G selected hovered mode))
                /\ (s ∉ snd (_determine_interaction_state G selected hovered mode))
                /\ forall n,
                    n ∈ snd (fst (_determine_interaction_state G selected hovered mode))
                    <-> exists d, In (s, n, d) (g_edges G) \/ In (n, s, d) (g_edges G)).
Proof.
  destruct (String.eqb mode "filter" && (is_none selected || is_all selected)) eqn:Hearly.
  { unfold _determine_interaction_state. rewrite Hearly. cbn [fst snd].
    split; [apply empty_subseteq|]. split; [apply empty_subseteq|].
    split; [apply disjoint_empty_l|]. split; [apply disjoint_empty_l|].
    intros s Hs Hall. apply StateFacts.node_in_Some in Hs as (-> & _ & _).
    unfold is_none in Hearly. rewrite orb_false_l in Hearly. congruence. }
  destruct (interaction_state_form G selected hovered mode Hearly)
    as (base & sec & extra & dim & -> & Hextra & Hdim & Hsel).
  cbn [fst snd].
  assert (Hbase : base ⊆ DiGraph.node_set G).
  { destruct (node_in G selected) as [s|] eqn:Hs.
    - destruct Hsel as [-> _]. apply StateFacts.node_in_Some in Hs as (_ & _ & Hs).
      apply StateFacts.node_set_In in Hs.
      intros x Hx. apply elem_of_singleton in Hx. now subst.
    - destruct Hsel as [-> _]. apply empty_subseteq. }
  split; [apply union_least; assumption|].
  split; [destruct Hdim as [-> | ->]; [apply empty_subseteq | set_solver]|].
  split; [destruct Hdim as [-> | ->]; [apply disjoint_empty_l | set_solver]|].
  split; [destruct Hdim as [-> | ->]; [apply disjoint_empty_l | set_solver]|].
  intros s Hs _. rewrite Hs in Hsel. destruct Hsel as [-> ->].
  split; [set_solver|].
  split; [destruct Hdim as [-> | ->]; set_solver|].
  intros n. apply StateFacts.neighbours_iff.
Qed.

(** ** The styling loop *)

Module StyleFacts.

Lemma attrs_of_app (done todo : list (string * option NodeAttrs)) (n : string) :
  ~ In n (map fst done) ->
  DiGraph.attrs_of (done ++ todo) n = DiGraph.attrs_of todo n.
Proof.
  induction done as [|[m b] done IH]; simpl; [reflexivity|].
  intros Hn. destruct (String.eqb_spec m n) as [->|_]; [tauto|]. apply IH. tauto.
Qed.

Lemma set_attrs_app (done todo : list (string * option NodeAttrs)) (n : string)
    (x : option NodeAttrs) :
  ~ In n (map fst done) ->
  DiGraph.set_attrs (done ++ todo) n x = done ++ DiGraph.set_attrs todo n x.
Proof.
  induction done as [|[m b] done IH]; simpl; [reflexivity|].
  intros Hn. destruct (String.eqb_spec m n) as [->|_]; [tauto|].
  rewrite IH by tauto. reflexivity.
Qed.

Lemma has_node_app (done todo : list (string * option NodeAttrs)) (edges : list Edge)
    (n : string) (x : option NodeAttrs) :
  DiGraph.has_node {| g_nodes := done ++ (n, x) :: todo; g_edges := edges |} n = true.
Proof.
  apply DiGraphFacts.has_node_In. unfold DiGraph.node_ids. cbn [g_nodes].
  rewrite map_app, in_app_iff. right. now left.
Qed.

Section Loop.
Variables (selected hovered : option string) (dim_nodes : gset string)
          (edges : list Edge).


(** The loop styles the entries one after the other, each from its own
    attributes, and stops with [KeyError] at the first entry without any. *)
Lemma style_loop (todo : list (string * option NodeAttrs)) :
  forall done,
    NoDup (map fst (done ++ todo)) ->
    for_each (style_body selected hovered dim_nodes) (map fst todo) {| g_nodes := done ++ todo; g_edges := edges |}
    = if forallb (fun e => bool_decide (is_Some (snd e))) todo
      then Ok {| g_nodes := done ++ map (styled_entry selected hovered dim_nodes) todo;
                 g_edges := edges |}
      else Raise (KeyError "original_border").
Proof.
  induction todo as [|[n x] todo IH]; intros done Hnd; [reflexivity|].
  assert (Hn : ~ In n (map fst done)).
  { rewrite map_app in Hnd. apply NoDup_app in Hnd as (_ & Hdis & _).
    intros Hin. apply list_elem_of_In in Hin.
    apply (Hdis n Hin). simpl. left. }
  assert (Hstep : style_body selected hovered dim_nodes {| g_nodes := done ++ (n, x) :: todo; g_edges := edges |} n
                  = match x with
                    | Some a =>
                        Ok {| g_nodes :=
                                done ++ (n, Some (with_style a
                                           (node_style n a selected hovered dim_nodes)))
                                     :: todo;
                              g_edges := edges |}
                    | None => Raise (KeyError "original_border")
                    end).
  { unfold style_body, DiGraph.node_attrs. cbn [g_nodes g_edges].
    rewrite attrs_of_app by exact Hn.
    simpl DiGraph.attrs_of. rewrite String.eqb_refl.
    destruct x as [a|].
    - cbn [mbind Result_bind]. rewrite set_attrs_app by exact Hn.
      simpl DiGraph.set_attrs. rewrite String.eqb_refl. reflexivity.
    - rewrite has_node_app. reflexivity. }
  change (map fst ((n, x) :: todo)) with (n :: map fst todo).
  cbn [for_each forallb snd]. rewrite Hstep. clear Hstep.
  destruct x as [a|].
  - cbn [mbind Result_bind].
    rewrite bool_decide_eq_true_2 by eauto. cbn [andb].
    specialize (IH (done ++ [(n, Some (with_style a
                                         (node_style n a selected hovered dim_nodes)))])).
    rewrite <- !app_assoc in IH. cbn [app] in IH.
    rewrite IH.
    + destruct (forallb _ todo); [|reflexivity].
      unfold styled_entry at 2. cbn [fst snd]. reflexivity.
    + rewrite map_app in *. simpl in *. exact Hnd.
  - cbn [mbind Result_bind].
    rewrite bool_decide_eq_false_2; [reflexivity|]. intros [? [=]].
Qed.
End Loop.

(** [_apply_node_styles] on a graph with distinct node ids. *)
Lemma apply_node_styles_eq (G : DiGraph) (selected hovered : option string)
    (highlight_nodes dim_nodes : gset string) :
  NoDup (DiGraph.node_ids G) ->
  _apply_node_styles G selected hovered highlight_nodes dim_nodes
  = if forallb (fun e => bool_decide (is_Some (snd e))) (g_nodes G)
    then Ok {| g_nodes := map (styled_entry selected (reset_hover hovered) dim_nodes)
                              (g_nodes G);
               g_edges := g_edges G |}
    else Raise (KeyError "original_border").
Proof.
  intros Hnd. unfold _apply_node_styles, DiGraph.node_ids.
  destruct G as [nodes edges]. cbn [g_nodes g_edges] in *.
  exact (style_loop selected (reset_hover hovered) dim_nodes edges nodes [] Hnd).
Qed.

End StyleFacts.

(** ** The graph that is built from the tables *)

Module BuiltFacts.

Lemma set_attrs_NoDup (nodes : list (string * option NodeAttrs)) (n : string)
    (x : option NodeAttrs) :
  NoDup (map fst nodes) -> NoDup (map fst (DiGraph.set_attrs nodes n x)).
Proof.
  induction nodes as [|[m b] nodes IH]; simpl; intros Hnd.
  - apply NoDup_cons. split; [apply not_elem_of_nil | apply NoDup_nil_2].
  - destruct (String.eqb_spec m n) as [->|Hne]; [exact Hnd|]. simpl.
    apply NoDup_cons in Hnd as [Hm Hnd]. apply NoDup_cons. split; [|now apply IH].
    rewrite list_elem_of_In in *. rewrite TotalFacts.set_attrs_ids_In.
    intros [-> | H]; [now apply Hne | now apply Hm].
Qed.

Lemma attrs_of_set_attrs (nodes : list (string * option NodeAttrs)) (n m : string)
    (x : option NodeAttrs) :
  DiGraph.attrs_of (DiGraph.set_attrs nodes n x) m
  = if String.eqb n m then x else DiGraph.attrs_of nodes m.
Proof.
  induction nodes as [|[k b] nodes IH]; simpl.
  - destruct (String.eqb n m); reflexivity.
  - destruct (String.eqb_spec k n) as [->|Hne]; simpl.
    + destruct (String.eqb n m); reflexivity.
    + destruct (String.eqb_spec k m) as [->|Hkm]; [|exact IH].
      destruct (String.eqb_spec n m) as [->|_]; [now destruct Hne | reflexivity].
Qed.

Lemma attrs_of_absent (nodes : list (string * option NodeAttrs)) (n : string) :
  ~ In n (map fst nodes) -> DiGraph.attrs_of nodes n = None.
Proof.
  intros Hn. destruct (DiGraph.attrs_of nodes n) as [a|] eqn:E; [|reflexivity].
  destruct Hn. eapply BuildFacts.attrs_of_In, E.
Qed.

Lemma touch_node_ids_In (nodes : list (string * option NodeAttrs)) (n m : string) :
  In m (map fst (DiGraph.touch_node nodes n)) <-> m = n \/ In m (map fst nodes).
Proof.
  unfold DiGraph.touch_node.
  destruct (existsb (String.eqb n) (map fst nodes)) eqn:E.
  - apply DiGraphFacts.existsb_eqb_In in E. split; [auto | intros [-> | H]; auto].
  - rewrite map_app, in_app_iff. simpl. intuition.
Qed.

Lemma touch_node_NoDup (nodes : list (string * option NodeAttrs)) (n : string) :
  NoDup (map fst nodes) -> NoDup (map fst (DiGraph.touch_node nodes n)).
Proof.
  unfold DiGraph.touch_node. intros Hnd.
  destruct (existsb (String.eqb n) (map fst nodes)) eqn:E; [exact Hnd|].
  rewrite map_app. apply NoDup_app. split; [exact Hnd|]. split.
  - intros m Hm Hm'. simpl in Hm'. apply list_elem_of_In in Hm, Hm'.
    destruct Hm' as [<- | []].
    apply DiGraphFacts.existsb_eqb_In in Hm. congruence.
  - simpl. apply NoDup_cons. split; [apply not_elem_of_nil | apply NoDup_nil_2].
Qed.

Lemma attrs_of_touch_node (nodes : list (string * option NodeAttrs)) (n m : string) :
  DiGraph.attrs_of (DiGraph.touch_node nodes n) m = DiGraph.attrs_of nodes m.
Proof.
  unfold DiGraph.touch_node.
  destruct (existsb (String.eqb n) (map fst nodes)) eqn:E; [reflexivity|].
  induction nodes as [|[k b] nodes IH]; simpl.
  - now destruct (String.eqb n m).
  - simpl in E. apply orb_false_elim in E as [_ E].
    destruct (String.eqb k m); [reflexivity | now apply IH].
Qed.

Lemma set_edge_endpoints_In (es : list Edge) (u v : string) (d : EdgeData)
    (p : string * string) :
  In p (map endpoints (DiGraph.set_edge es u v d))
  <-> p = (u, v) \/ In p (map endpoints es).
Proof.
  induction es as [|[[u' v'] d'] es IH]; simpl.
  - unfold endpoints, source, target. simpl. intuition.
  - destruct (String.eqb u' u && String.eqb v' v) eqn:E; simpl.
    + apply andb_prop in E as [Hu Hv].
      apply String.eqb_eq in Hu. apply String.eqb_eq in Hv. subst.
      unfold endpoints at 1 3, source, target. simpl. intuition.
    + rewrite IH. unfold endpoints at 1 4, source, target. simpl. intuition.
Qed.

Lemma set_edge_NoDup (es : list Edge) (u v : string) (d : EdgeData) :
  NoDup (map endpoints es) -> NoDup (map endpoints (DiGraph.set_edge es u v d)).
Proof.
  induction es as [|[[u' v'] d'] es IH]; simpl; intros Hnd.
  - apply NoDup_cons. split; [apply not_elem_of_nil | apply NoDup_nil_2].
  - destruct (String.eqb u' u && String.eqb v' v) eqn:E; [exact Hnd|]. simpl.
    apply NoDup_cons in Hnd as [Hm Hnd]. apply NoDup_cons. split; [|now apply IH].
    rewrite list_elem_of_In in *. rewrite set_edge_endpoints_In.
    intros [Heq | H]; [|now apply Hm].
    unfold endpoints, source, target in Heq. simpl in Heq. inversion Heq; subst.
    now rewrite !String.eqb_refl in E.
Qed.

Lemma set_edge_self (es : list Edge) (u v : string) (d : EdgeData) :
  In (u, v, d) (DiGraph.set_edge es u v d).
Proof.
  induction es as [|[[u' v'] d'] es IH]; simpl; [now left|].
  destruct (String.eqb u' u && String.eqb v' v) eqn:E; simpl; [|now right].
  apply andb_prop in E as [Hu Hv].
  apply String.eqb_eq in Hu. apply String.eqb_eq in Hv. subst. now left.
Qed.

Lemma set_edge_other (es : list Edge) (u v : string) (d : EdgeData) (e : Edge) :
  In e es -> endpoints e <> (u, v) -> In e (DiGraph.set_edge es u v d).
Proof.
  intros Hin Hne. induction es as [|[[u' v'] d'] es IH]; simpl; [destruct Hin|].
  destruct (String.eqb u' u && String.eqb v' v) eqn:E; simpl.
  - destruct Hin as [<- | Hin]; [|now right].
    apply andb_prop in E as [Hu Hv].
    apply String.eqb_eq in Hu. apply String.eqb_eq in Hv. subst.
    now destruct Hne.
  - destruct Hin as [<- | Hin]; [now left | right; now apply IH].
Qed.

(** ** The two loops of [_build_networkx_graph] *)

Section NodeLoop.
Variables (self : GraphBuilder) (positions : Positions).

Lemma node_step (G G' : DiGraph) (row : NodeRow) :
  node_row_body self positions G row = Ok G' -> exists a, G' = DiGraph.add_node G (DOMAIN_ID row) a.
Proof.
  unfold node_row_body. intros H. bind_inv H. destruct x as [[w h] l]. bind_inv H.
  inversion H. eauto.
Qed.

Lemma node_loop (rows : list NodeRow) :
  forall G0 G,
    for_each (node_row_body self positions) rows G0 = Ok G ->
    g_edges G = g_edges G0
    /\ (forall n, In n (DiGraph.node_ids G)
                  <-> In n (DiGraph.node_ids G0) \/ In n (map DOMAIN_ID rows))
    /\ (NoDup (DiGraph.node_ids G0) -> NoDup (DiGraph.node_ids G))
    /\ (forall n, In n (map DOMAIN_ID rows) -> is_Some (DiGraph.attrs_of (g_nodes G) n))
    /\ (forall n, is_Some (DiGraph.attrs_of (g_nodes G0) n) ->
                  is_Some (DiGraph.attrs_of (g_nodes G) n)).
Proof.
  induction rows as [|row rows IH]; intros G0 G Hrun; simpl in Hrun.
  - inversion Hrun; subst G. simpl. intuition.
  - destruct (node_row_body self positions G0 row) as [G1|] eqn:Hb; cbn [mbind Result_bind] in Hrun;
      [|discriminate].
    destruct (node_step _ _ _ Hb) as [a ->].
    destruct (IH _ _ Hrun) as (He & Hids & Hnd & Hnew & Hold). clear IH Hrun Hb.
    unfold DiGraph.node_ids, DiGraph.add_node in *. cbn [g_nodes g_edges] in *.
    assert (Hrow : is_Some (DiGraph.attrs_of (g_nodes G) (DOMAIN_ID row))).
    { apply Hold. rewrite attrs_of_set_attrs, String.eqb_refl. eauto. }
    split; [exact He|]. split; [|split; [|split]].
    + intros n. rewrite Hids, TotalFacts.set_attrs_ids_In. simpl. intuition.
    + intros H. now apply Hnd, set_attrs_NoDup.
    + simpl. intros n [<- | Hn]; [exact Hrow | now apply Hnew].
    + intros n Hn. apply Hold. rewrite attrs_of_set_attrs.
      destruct (String.eqb (DOMAIN_ID row) n); [eauto | exact Hn].
Qed.
End NodeLoop.

Lemma edge_loop (rows : list EdgeRow) :
  forall G0,
    let G := fold_left edge_step rows G0 in
    (forall n, In n (DiGraph.node_ids G)
               <-> In n (DiGraph.node_ids G0)
                   \/ exists row, In row rows
                                  /\ (n = SOURCE_DOMAIN_ID row
                                      \/ n = TARGET_DOMAIN_ID row))
    /\ (NoDup (DiGraph.node_ids G0) -> NoDup (DiGraph.node_ids G))
    /\ (forall n, DiGraph.attrs_of (g_nodes G) n = DiGraph.attrs_of (g_nodes G0) n)
    /\ (NoDup (map endpoints (g_edges G0)) -> NoDup (map endpoints (g_edges G)))
    /\ (forall p, In p (map endpoints (g_edges G))
                  <-> In p (map endpoints (g_edges G0))
                      \/ exists row, In row rows
                                     /\ p = (SOURCE_DOMAIN_ID row,
                                             TARGET_DOMAIN_ID row)).
Proof.
  induction rows as [|row rows IH]; intros G0; cbn zeta.
  - simpl. split; [|split; [|split; [|split]]]; try tauto.
    + intros n. split; [auto | intros [H | (? & [] & _)]; exact H].
    + intros p. split; [auto | intros [H | (? & [] & _)]; exact H].
  - simpl fold_left.
    destruct (IH (edge_step G0 row)) as (Hids & Hnd & Hattrs & Hend & Hes). clear IH.
    unfold DiGraph.node_ids in *.
    split; [|split; [|split; [|split]]].
    + intros n. rewrite Hids. unfold edge_step, DiGraph.add_edge.
      cbn [g_nodes]. rewrite !touch_node_ids_In. simpl. split.
      * intros [[-> | [-> | H]] | (r & Hr & Hn)]; eauto 6.
      * intros [H | (r & [<- | Hr] & Hn)]; eauto 6. destruct Hn as [-> | ->]; auto.
    + intros H. apply Hnd. unfold edge_step, DiGraph.add_edge. cbn [g_nodes].
      now apply touch_node_NoDup, touch_node_NoDup.
    + intros n. rewrite Hattrs. unfold edge_step, DiGraph.add_edge. cbn [g_nodes].
      now rewrite !attrs_of_touch_node.
    + intros H. apply Hend. unfold edge_step, DiGraph.add_edge. cbn [g_edges].
      now apply set_edge_NoDup.
    + intros p. rewrite Hes. unfold edge_step, DiGraph.add_edge.
      cbn [g_edges]. rewrite set_edge_endpoints_In. simpl. split.
      * intros [[-> | H] | (r & Hr & Hp)]; eauto 6.
      * intros [H | (r & [<- | Hr] & Hp)]; eauto 6.
Qed.

(** Rows between other endpoints leave an edge as it is. *)
Lemma edge_loop_keeps (rows : list EdgeRow) (e : Edge) :
  (forall r, In r rows -> (SOURCE_DOMAIN_ID r, TARGET_DOMAIN_ID r) <> endpoints e) ->
  forall G0, In e (g_edges G0) -> In e (g_edges (fold_left edge_step rows G0)).
Proof.
  induction rows as [|row rows IH]; intros Hother G0 Hin; [exact Hin|].
  simpl. apply IH; [intros r Hr; apply Hother; now right|].
  unfold edge_step, DiGraph.add_edge. cbn [g_edges].
  apply set_edge_other; [exact Hin|].
  intros Heq. apply (Hother row); [now left | now symmetry].
Qed.

(** [_build_networkx_graph] as its two loops. *)
Lemma build_graph_loops (self : GraphBuilder) (positions : Positions) (G : DiGraph) :
  _build_networkx_graph self positions = Ok G ->
  exists G1,
    G = fold_left edge_step (edges_df self) G1
    /\ g_edges G1 = []
    /\ (forall n, In n (DiGraph.node_ids G1) <-> In n (map DOMAIN_ID (nodes_df self)))
    /\ NoDup (DiGraph.node_ids G1)
    /\ (forall n, In n (map DOMAIN_ID (nodes_df self)) ->
                  is_Some (DiGraph.attrs_of (g_nodes G1) n)).
Proof.
  unfold _build_networkx_graph. intros Hrun. bind_inv Hrun.
  inversion Hrun; subst G; clear Hrun. exists x.
  destruct (node_loop self positions _ _ _ E) as (He & Hids & Hnd & Hnew & _).
  split; [reflexivity|]. split; [exact He|]. split; [|split; [|exact Hnew]].
  - intros n. rewrite Hids. simpl. tauto.
  - apply Hnd. apply NoDup_nil_2.
Qed.

(** A node that only a dependency names has an empty attribute dict. *)
Lemma dangling_node (self : GraphBuilder) (positions : Positions) (G : DiGraph)
    (row : EdgeRow) (n : string) :
  _build_networkx_graph self positions = Ok G ->
  In row (edges_df self) ->
  n = SOURCE_DOMAIN_ID row \/ n = TARGET_DOMAIN_ID row ->
  ~ In n (map DOMAIN_ID (nodes_df self)) ->
  NoDup (DiGraph.node_ids G) /\ In (n, None) (g_nodes G).
Proof.
  intros Hrun Hrow Hn Hdangling.
  destruct (build_graph_loops _ _ _ Hrun) as (G1 & -> & He & Hids & Hnd & Hnew).
  destruct (edge_loop (edges_df self) G1) as (Hids' & Hnd' & Hattrs & _).
  cbn zeta in *. split; [now apply Hnd'|].
  assert (Hnone : DiGraph.attrs_of (g_nodes (fold_left edge_step (edges_df self) G1)) n
                  = None).
  { rewrite Hattrs. apply attrs_of_absent. unfold DiGraph.node_ids in Hids.
    now rewrite Hids. }
  rewrite <- Hnone. apply TotalFacts.attrs_of_found. apply Hids'. eauto.
Qed.

End BuiltFacts.

(** ** Node styles *)

Lemma attrs_of_styled (nodes : list (string * option NodeAttrs))
    (selected hovered : option string) (dim_nodes : gset string) (n : string) :
  DiGraph.attrs_of (map (styled_entry selected hovered dim_nodes) nodes) n
  = option_map (fun a => with_style a (node_style n a selected hovered dim_nodes))
               (DiGraph.attrs_of nodes n).
Proof.
  induction nodes as [|[m b] nodes IH]; simpl; [reflexivity|].
  destruct (String.eqb_spec m n) as [->|_]; [|exact IH]. now destruct b.
Qed.

(** Neither the selected nor the hovered node is ever dimmed. *)
Lemma dim_excludes (G : DiGraph) (selected hovered : option string) (mode n : string) :
  node_in G selected = Some n \/ node_in G (reset_hover hovered) = Some n ->
  n ∉ snd (_determine_interaction_state G selected hovered mode).
Proof.
  intros Hn. unfold _determine_interaction_state.
  destruct (String.eqb mode "filter" && (is_none selected || is_all selected));
    [apply not_elem_of_empty|].
  set (pair := match node_in G selected with
               | Some s => _
               | None => _
               end).
  assert (Hsel : node_in G selected = Some n -> n ∈ fst pair).
  { intros H. subst pair. rewrite H. cbn [fst]. now apply elem_of_singleton. }
  destruct pair as [hl sec]. cbn [fst snd] in *.
  set (hl' := match node_in G (reset_hover hovered) with
              | Some h => _
              | None => _
              end).
  assert (Hhl : n ∈ hl').
  { subst hl'. destruct Hn as [Hn | Hn].
    - specialize (Hsel Hn).
      destruct (node_in G (reset_hover hovered)); [|exact Hsel].
      destruct (bool_decide _); [|exact Hsel]. apply elem_of_union. now left.
    - rewrite Hn. case_bool_decide as Hd.
      + apply elem_of_union. right. now apply elem_of_singleton.
      + apply Hsel. now rewrite <- Hd. }
  clearbody hl'.
  destruct (String.eqb mode "filter");
    [|destruct (String.eqb mode "interactive" && truthy selected)];
    cbn [snd]; set_solver.
Qed.

(** On a graph with distinct node ids, styling keeps the edges and the node
    order, and gives every node the label, colour, position and size it had,
    with the border, glow and opacity that [node_style] computes from the
    node's own attributes. *)
Theorem apply_node_styles_result (G G' : DiGraph) (selected hovered : option string)
    (highlight_nodes dim_nodes : gset string) :
  NoDup (DiGraph.node_ids G) ->
  _apply_node_styles G selected hovered highlight_nodes dim_nodes = Ok G' ->
  g_edges G' = g_edges G
  /\ Forall2
       (fun e e' =>
          fst e' = fst e
          /\ exists a a',
               snd e = Some a /\ snd e' = Some a'
               /\ restyled a a'
                    (node_style (fst e) a selected (reset_hover hovered) dim_nodes))
       (g_nodes G) (g_nodes G').
Proof.
  intros Hnd Hrun. rewrite StyleFacts.apply_node_styles_eq in Hrun by exact Hnd.
  destruct (forallb _ (g_nodes G)) eqn:Hall; [|discriminate].
  inversion Hrun; subst G'; clear Hrun. cbn [g_nodes g_edges].
  split; [reflexivity|].
  rewrite forallb_forall in Hall.
  induction (g_nodes G) as [|[n x] nodes IH]; simpl; constructor.
  - assert (Hx : is_Some x).
    { apply (bool_decide_eq_true_1 (is_Some x)), (Hall (n, x)). now left. }
    destruct Hx as [a ->]. cbn [fst snd]. split; [reflexivity|].
    eexists a, _. split; [reflexivity|]. split; [reflexivity|].
    unfold restyled, with_style. cbn. tauto.
  - apply IH. intros e He. apply Hall. now right.
Qed.

Lemma apply_node_styles_result_witness :
  NoDup (DiGraph.node_ids Example.graph)
  /\ _apply_node_styles Example.graph (Some "A") (Some "B") ∅
       (snd (_determine_interaction_state Example.graph (Some "A") (Some "B")
               "interactive")) = Ok styled_graph
  /\ g_edges styled_graph = g_edges Example.graph
  /\ Forall2
       (fun e e' =>
          fst e' = fst e
          /\ exists a a',
               snd e = Some a /\ snd e' = Some a'
               /\ restyled a a'
                    (node_style (fst e) a (Some "A") (reset_hover (Some "B"))
                       (snd (_determine_interaction_state Example.graph (Some "A")
                               (Some "B") "interactive"))))
       (g_nodes Example.graph) (g_nodes styled_graph).
Proof.
  assert (Hnd : NoDup (DiGraph.node_ids Example.graph)).
  { apply (bool_decide_unpack (NoDup (DiGraph.node_ids Example.graph))).
    vm_compute. exact I. }
  split; [exact Hnd|]. split; [vm_compute; reflexivity|].
  apply (apply_node_styles_result Example.graph styled_graph (Some "A") (Some "B") ∅
           (snd (_determine_interaction_state Example.graph (Some "A") (Some "B")
                   "interactive")));
    [exact Hnd | vm_compute; reflexivity].
Defined.

(** With the dim set that [_determine_interaction_state] computes, on a graph
    with distinct node ids: the selected node is drawn with a black border at
    full opacity; a hovered node that is not selected gets the golden border,
    the glow and full opacity; every other node keeps its original border,
    has no glow, and is drawn at 0.2 exactly when it is dimmed. *)
Theorem selected_and_hovered_styles (G G' : DiGraph) (selected hovered : option string)
    (mode : string) :
  NoDup (DiGraph.node_ids G) ->
  _apply_node_styles G selected hovered
    (fst (fst (_determine_interaction_state G selected hovered mode)))
    (snd (_determine_interaction_state G selected hovered mode)) = Ok G' ->
  forall n a,
    DiGraph.attrs_of (g_nodes G) n = Some a -> n <> "" ->
    exists a',
      DiGraph.attrs_of (g_nodes G') n = Some a'
      /\ (selected = Some n ->
          border a' = "#000000" /\ opacity a' = Some 1.0%Q
          /\ glow a' = Some (bool_decide (reset_hover hovered = Some n)))
      /\ (reset_hover hovered = Some n -> selected <> Some n ->
          border a' = "#FFD700" /\ opacity a' = Some 1.0%Q /\ glow a' = Some true)
      /\ (selected <> Some n -> reset_hover hovered <> Some n ->
          border a' = original_border a /\ glow a' = Some false
          /\ opacity a'
             = Some (if bool_decide
                          (n ∈ snd (_determine_interaction_state G selected hovered mode))
                     then 0.2%Q else 1.0%Q)).
Proof.
  intros Hnd Hrun n a Ha Hne.
  rewrite StyleFacts.apply_node_styles_eq in Hrun by exact Hnd.
  destruct (forallb _ (g_nodes G)); [|discriminate].
  inversion Hrun; subst G'; clear Hrun. cbn [g_nodes].
  rewrite attrs_of_styled, Ha. cbn [option_map]. eexists. split; [reflexivity|].
  assert (Hin : node_in G (Some n) = Some n).
  { apply DiGraphFacts.node_in_selected; [|exact Hne].
    eapply BuildFacts.attrs_of_In, Ha. }
  set (dim := snd (_determine_interaction_state G selected hovered mode)).
  assert (Hdim : selected = Some n \/ reset_hover hovered = Some n -> n ∉ dim).
  { intros H. apply dim_excludes. destruct H as [-> | ->]; auto. }
  clearbody dim. unfold with_style, node_style. cbn [border opacity glow].
  split; [|split].
  - intros ->. specialize (Hdim (or_introl eq_refl)).
    rewrite (bool_decide_eq_true_2 (Some n = Some n)) by reflexivity.
    rewrite (bool_decide_eq_false_2 (n ∈ dim)) by exact Hdim.
    rewrite andb_false_r.
    rewrite (bool_decide_eq_false_2 (Some n <> Some n)) by (intros H; now apply H).
    case_bool_decide as Hh.
    + rewrite bool_decide_eq_true_2 by (now symmetry). now cbn.
    + rewrite bool_decide_eq_false_2 by (intros H; now apply Hh). now cbn.
  - intros Hh Hs. specialize (Hdim (or_intror Hh)).
    rewrite (bool_decide_eq_false_2 (Some n = selected)) by (intros H; now apply Hs).
    rewrite (bool_decide_eq_true_2 (Some n = reset_hover hovered)) by (now symmetry).
    rewrite (bool_decide_eq_true_2 (Some n <> selected)) by (intros H; now apply Hs).
    rewrite (bool_decide_eq_false_2 (n ∈ dim)) by exact Hdim.
    rewrite andb_false_r. now cbn.
  - intros Hs Hh.
    rewrite (bool_decide_eq_false_2 (Some n = selected)) by (intros H; now apply Hs).
    rewrite (bool_decide_eq_false_2 (Some n = reset_hover hovered))
      by (intros H; now apply Hh).
    destruct (bool_decide (n ∈ dim)) eqn:Hd;
      destruct (bool_decide (dim ≠ ∅)) eqn:He; cbn; auto.
    apply bool_decide_eq_true_1 in Hd. apply bool_decide_eq_false_1 in He.
    apply dec_stable in He. subst dim. now apply not_elem_of_empty in Hd.
Qed.

Lemma selected_and_hovered_styles_witness :
  NoDup (DiGraph.node_ids Example.graph)
  /\ _apply_node_styles Example.graph (Some "A") (Some "B")
       (fst (fst (_determine_interaction_state Example.graph (Some "A") (Some "B")
                    "interactive")))
       (snd (_determine_interaction_state Example.graph (Some "A") (Some "B")
               "interactive")) = Ok styled_graph
  /\ forall n a,
       DiGraph.attrs_of (g_nodes Example.graph) n = Some a -> n <> "" ->
       exists a',
         DiGraph.attrs_of (g_nodes styled_graph) n = Some a'
         /\ (Some "A" = Some n ->
             border a' = "#000000" /\ opacity a' = Some 1.0%Q
             /\ glow a' = Some (bool_decide (reset_hover (Some "B") = Some n)))
         /\ (reset_hover (Some "B") = Some n -> Some "A" <> Some n ->
             border a' = "#FFD700" /\ opacity a' = Some 1.0%Q /\ glow a' = Some true)
         /\ (Some "A" <> Some n -> reset_hover (Some "B") <> Some n ->
             border a' = original_border a /\ glow a' = Some false
             /\ opacity a'
                = Some (if bool_decide
                             (n ∈ snd (_determine_interaction_state Example.graph
                                         (Some "A") (Some "B") "interactive"))
                        then 0.2%Q else 1.0%Q)).
Proof.
  assert (Hnd : NoDup (DiGraph.node_ids Example.graph)).
  { apply (bool_decide_unpack (NoDup (DiGraph.node_ids Example.graph))).
    vm_compute. exact I. }
  split; [exact Hnd|]. split; [vm_compute; reflexivity|].
  apply (selected_and_hovered_styles Example.graph styled_graph (Some "A") (Some "B")
           "interactive"); [exact Hnd | vm_compute; reflexivity].
Defined.

(** A selection that names no node of the graph (and is neither empty nor
    "All") hides nothing and highlights nothing of its own: in both modes
    there are no secondary nodes, only a hovered node is highlighted, every
    other node is dimmed, and all nodes and edges stay visible. *)
Theorem unknown_selection (G : DiGraph) (s : string) (hovered : option string)
    (directions : list string) (mode : string) :
  ~ In s (DiGraph.node_ids G) -> s <> "" -> s <> "All" ->
  mode = "filter" \/ mode = "interactive" ->
  snd (fst (_determine_interaction_state G (Some s) hovered mode)) = ∅
  /\ (forall n, n ∈ fst (fst (_determine_interaction_state G (Some s) hovered mode))
                <-> node_in G (reset_hover hovered) = Some n)
  /\ (forall n, n ∈ snd (_determine_interaction_state G (Some s) hovered mode)
                <-> In n (DiGraph.node_ids G)
                    /\ node_in G (reset_hover hovered) <> Some n)
  /\ _determine_visible_elements G (Some s) hovered directions mode
     = (DiGraph.node_set G, DiGraph.edges G).
Proof.
  intros Hs Hne Hall Hmode.
  apply String.eqb_neq in Hne, Hall.
  assert (Hnode : node_in G (Some s) = None) by now apply StateFacts.node_in_None.
  assert (Hhl : forall n, n ∈ (match node_in G (reset_hover hovered) with
                               | Some h =>
                                   if bool_decide (reset_hover hovered ≠ Some s)
                                   then (∅ : gset string) ∪ {[ h ]} else ∅
                               | None => ∅
                               end)
                          <-> node_in G (reset_hover hovered) = Some n).
  { intros n. destruct (node_in G (reset_hover hovered)) as [h|] eqn:Hh.
    - apply StateFacts.node_in_Some in Hh as (Hh & _ & Hin).
      rewrite bool_decide_eq_true_2.
      + rewrite elem_of_union, elem_of_singleton. split.
        * intros [H | ->]; [now apply not_elem_of_empty in H | reflexivity].
        * intros [= ->]. now right.
      + rewrite Hh. intros [= ->]. contradiction.
    - split; [intros H; now apply not_elem_of_empty in H | discriminate]. }
  assert (Hstate : _determine_interaction_state G (Some s) hovered mode
                   = (match node_in G (reset_hover hovered) with
                      | Some h =>
                          if bool_decide (reset_hover hovered ≠ Some s)
                          then (∅ : gset string) ∪ {[ h ]} else ∅
                      | None => ∅
                      end, ∅,
                      DiGraph.node_set G
                      ∖ match node_in G (reset_hover hovered) with
                        | Some h =>
                            if bool_decide (reset_hover hovered ≠ Some s)
                            then (∅ : gset string) ∪ {[ h ]} else ∅
                        | None => ∅
                        end ∖ ∅)).
  { unfold _determine_interaction_state, is_none, is_all. rewrite Hall, Hnode.
    rewrite andb_false_r.
    destruct Hmode as [-> | ->]; cbn [String.eqb Ascii.eqb Bool.eqb andb]; [reflexivity|].
    unfold truthy. rewrite Hne. reflexivity. }
  rewrite Hstate. cbn [fst snd].
  split; [reflexivity|]. split; [exact Hhl|]. split.
  - intros n. rewrite !elem_of_difference, Hhl, StateFacts.node_set_In.
    split; [intros [[H1 H2] _]; auto | intros [H1 H2]; split; [auto|]].
    apply not_elem_of_empty.
  - unfold _determine_visible_elements, is_all. rewrite Hall, Hnode.
    destruct Hmode as [-> | ->]; reflexivity.
Qed.

Lemma unknown_selection_witness :
  ~ In "Z" (DiGraph.node_ids Example.graph) /\ "Z" <> "" /\ "Z" <> "All"
  /\ snd (fst (_determine_interaction_state Example.graph (Some "Z") None "filter")) = ∅
  /\ (forall n,
        n ∈ fst (fst (_determine_interaction_state Example.graph (Some "Z") None "filter"))
        <-> node_in Example.graph (reset_hover None) = Some n)
  /\ (forall n,
        n ∈ snd (_determine_interaction_state Example.graph (Some "Z") None "filter")
        <-> In n (DiGraph.node_ids Example.graph)
            /\ node_in Example.graph (reset_hover None) <> Some n)
  /\ _determine_visible_elements Example.graph (Some "Z") None ["upstream"] "filter"
     = (DiGraph.node_set Example.graph, DiGraph.edges Example.graph).
Proof.
  assert (Hz : ~ In "Z" (DiGraph.node_ids Example.graph)).
  { vm_compute. intros [H | [H | [H | []]]]; discriminate H. }
  split; [exact Hz|]. split; [discriminate|]. split; [discriminate|].
  apply (unknown_selection Example.graph "Z" None ["upstream"] "filter");
    [exact Hz | discriminate | discriminate | now left].
Defined.

(** ** Structure of the built graph *)

Lemma endpoints_unique (es : list Edge) (e1 e2 : Edge) :
  NoDup (map endpoints es) -> In e1 es -> In e2 es ->
  endpoints e1 = endpoints e2 -> e1 = e2.
Proof.
  induction es as [|e es IH]; simpl; [intros _ []|].
  intros Hnd H1 H2 Heq. apply NoDup_cons in Hnd as [Hfresh Hnd].
  rewrite list_elem_of_In in Hfresh.
  destruct H1 as [<- | H1], H2 as [<- | H2]; auto.
  - destruct Hfresh. rewrite Heq. now apply in_map.
  - destruct Hfresh. rewrite <- Heq. now apply in_map.
Qed.

(** Both ends of every edge of a built graph are nodes of it. *)
Lemma built_graph_closed (self : GraphBuilder) (positions : Positions) (G : DiGraph) :
  _build_networkx_graph self positions = Ok G ->
  forall e, In e (g_edges G) ->
    In (source e) (DiGraph.node_ids G) /\ In (target e) (DiGraph.node_ids G).
Proof.
  intros Hrun e He.
  destruct (BuiltFacts.build_graph_loops _ _ _ Hrun) as (G1 & -> & Hnil & _).
  destruct (BuiltFacts.edge_loop (edges_df self) G1) as (Hids & _ & _ & _ & Hes).
  cbn zeta in *.
  apply (in_map endpoints) in He. apply Hes in He. rewrite Hnil in He.
  destruct He as [[] | (row & Hrow & Heq)].
  unfold endpoints in Heq. inversion Heq as [[Hs Ht]].
  split; apply Hids; right; exists row; auto.
Qed.

Lemma visible_closed (G : DiGraph) (selected hovered : option string)
    (directions : list string) (mode : string) :
  (forall e, In e (g_edges G) ->
             In (source e) (DiGraph.node_ids G) /\ In (target e) (DiGraph.node_ids G)) ->
  fst (_determine_visible_elements G selected hovered directions mode)
    ⊆ DiGraph.node_set G
  /\ forall e,
       In e (snd (_determine_visible_elements G selected hovered directions mode)) ->
       In e (g_edges G)
       /\ source e ∈ fst (_determine_visible_elements G selected hovered directions mode)
       /\ target e ∈ fst (_determine_visible_elements G selected hovered directions mode).
Proof.
  intros Hclosed.
  assert (Hall : fst (DiGraph.node_set G, DiGraph.edges G) ⊆ DiGraph.node_set G
                 /\ forall e, In e (snd (DiGraph.node_set G, DiGraph.edges G)) ->
                              In e (g_edges G)
                              /\ source e ∈ fst (DiGraph.node_set G, DiGraph.edges G)
                              /\ target e ∈ fst (DiGraph.node_set G, DiGraph.edges G)).
  { cbn [fst snd]. split; [reflexivity|]. intros e He.
    apply DiGraphFacts.edges_In in He. split; [exact He|].
    rewrite !StateFacts.node_set_In. now apply Hclosed. }
  assert (Haround : forall sel s, node_in G sel = Some s ->
            fst (visible_around G s directions) ⊆ DiGraph.node_set G
            /\ forall e, In e (snd (visible_around G s directions)) ->
                         In e (g_edges G)
                         /\ source e ∈ fst (visible_around G s directions)
                         /\ target e ∈ fst (visible_around G s directions)).
  { intros sel s Hs. apply StateFacts.node_in_Some in Hs as (_ & _ & Hs).
    unfold visible_around. cbn [fst snd]. split.
    - intros n Hn. apply DiGraphFacts.endpoints_fold in Hn.
      apply StateFacts.node_set_In.
      destruct Hn as [Hn | (e & He & Hn)].
      + apply elem_of_singleton in Hn. now subst.
      + apply DiGraphFacts.directional_edges_In in He as [He _].
        destruct (Hclosed e He). destruct Hn as [-> | ->]; assumption.
    - intros e He. split; [now apply DiGraphFacts.directional_edges_In in He|].
      split; apply DiGraphFacts.endpoints_fold; right; exists e; auto. }
  unfold _determine_visible_elements.
  destruct (String.eqb mode "filter"); [|destruct (String.eqb mode "interactive")].
  - destruct (node_in G _) as [s|] eqn:Hs; [eapply Haround, Hs | exact Hall].
  - destruct (node_in G _) as [s|] eqn:Hs; [eapply Haround, Hs | exact Hall].
  - cbn [fst snd]. split; [apply empty_subseteq | intros e []].
Qed.

(** The visible elements of a built and styled graph are closed: every
    visible node is a node of the graph, every visible edge is an edge of
    the graph, and both ends of a visible edge are visible nodes. *)
Theorem visible_elements_closed (self : GraphBuilder) (positions : Positions)
    (G G' : DiGraph) (selected hovered : option string)
    (highlight_nodes dim_nodes : gset string) (directions : list string)
    (mode : string) :
  _build_networkx_graph self positions = Ok G ->
  _apply_node_styles G selected hovered highlight_nodes dim_nodes = Ok G' ->
  fst (_determine_visible_elements G' selected hovered directions mode)
    ⊆ DiGraph.node_set G'
  /\ forall e,
       In e (snd (_determine_visible_elements G' selected hovered directions mode)) ->
       In e (g_edges G')
       /\ source e ∈ fst (_determine_visible_elements G' selected hovered directions mode)
       /\ target e ∈ fst (_determine_visible_elements G' selected hovered directions mode).
Proof.
  intros Hbuild Hstyle. apply visible_closed.
  apply BuildFacts.apply_node_styles_shape in Hstyle as [-> ->].
  now apply (built_graph_closed self positions).
Qed.

Lemma visible_elements_closed_witness :
  exists positions G,
    _build_networkx_graph Example.builder positions = Ok G
    /\ _apply_node_styles G (Some "A") (Some "B") ∅
         (snd (_determine_interaction_state Example.graph (Some "A") (Some "B")
                 "interactive")) = Ok styled_graph
    /\ fst (_determine_visible_elements styled_graph (Some "A") (Some "B")
              ["downstream"] "filter")
         ⊆ DiGraph.node_set styled_graph
    /\ forall e,
         In e (snd (_determine_visible_elements styled_graph (Some "A") (Some "B")
                      ["downstream"] "filter")) ->
         In e (g_edges styled_graph)
         /\ source e ∈ fst (_determine_visible_elements styled_graph (Some "A")
                              (Some "B") ["downstream"] "filter")
         /\ target e ∈ fst (_determine_visible_elements styled_graph (Some "A")
                              (Some "B") ["downstream"] "filter").
Proof.
  eexists. exists Example.graph.
  assert (Hbuild : _build_networkx_graph Example.builder
                     (match _assign_stacked_positions Example.builder with
                      | Ok p => p
                      | Raise _ => ∅
                      end) = Ok Example.graph) by (vm_compute; reflexivity).
  split; [exact Hbuild|].
  assert (Hstyle : _apply_node_styles Example.graph (Some "A") (Some "B") ∅
                     (snd (_determine_interaction_state Example.graph (Some "A")
                             (Some "B") "interactive")) = Ok styled_graph)
    by (vm_compute; reflexivity).
  split; [exact Hstyle|].
  exact (visible_elements_closed Example.builder _ Example.graph styled_graph
           (Some "A") (Some "B") ∅ _ ["downstream"] "filter" Hbuild Hstyle).
Defined.

(** A built graph has each node id once and at most one edge per ordered
    pair of endpoints.  Its nodes are the domains of the node table and the
    endpoints of the dependency table, its edges join exactly the pairs that
    some dependency row names, and exactly the domains of the node table
    carry attributes. *)
Theorem built_graph_structure (self : GraphBuilder) (positions : Positions)
    (G : DiGraph) :
  _build_networkx_graph self positions = Ok G ->
  NoDup (DiGraph.node_ids G)
  /\ NoDup (map endpoints (g_edges G))
  /\ (forall n, In n (DiGraph.node_ids G)
                <-> In n (map DOMAIN_ID (nodes_df self))
                    \/ exists row, In row (edges_df self)
                                   /\ (n = SOURCE_DOMAIN_ID row
                                       \/ n = TARGET_DOMAIN_ID row))
  /\ (forall u v, (exists d, In (u, v, d) (g_edges G))
                  <-> exists row, In row (edges_df self)
                                  /\ SOURCE_DOMAIN_ID row = u
                                  /\ TARGET_DOMAIN_ID row = v)
  /\ (forall n, is_Some (DiGraph.attrs_of (g_nodes G) n)
                <-> In n (map DOMAIN_ID (nodes_df self))).
Proof.
  intros Hrun.
  destruct (BuiltFacts.build_graph_loops _ _ _ Hrun) as (G1 & -> & Hnil & Hids1 & Hnd1 & Hnew).
  destruct (BuiltFacts.edge_loop (edges_df self) G1) as (Hids & Hnd & Hattrs & Hend & Hes).
  cbn zeta in *.
  split; [now apply Hnd|]. split; [apply Hend; rewrite Hnil; apply NoDup_nil_2|].
  split; [intros n; now rewrite Hids, Hids1|]. split.
  - intros u v. split.
    + intros [d Hd]. apply (in_map endpoints) in Hd. apply Hes in Hd.
      rewrite Hnil in Hd. destruct Hd as [[] | (row & Hrow & Heq)].
      unfold endpoints, source, target in Heq. simpl in Heq. inversion Heq.
      exists row. auto.
    + intros (row & Hrow & <- & <-).
      assert (Hp : In (SOURCE_DOMAIN_ID row, TARGET_DOMAIN_ID row)
                      (map endpoints (g_edges (fold_left edge_step (edges_df self) G1)))).
      { apply Hes. right. exists row. auto. }
      apply in_map_iff in Hp as ([[u v] d] & Heq & Hin).
      unfold endpoints, source, target in Heq. simpl in Heq. inversion Heq; subst.
      now exists d.
  - intros n. rewrite Hattrs. split; [|apply Hnew].
    intros [a Ha]. apply Hids1. eapply BuildFacts.attrs_of_In, Ha.
Qed.

Lemma built_graph_structure_witness :
  exists positions,
    _build_networkx_graph Example.builder positions = Ok Example.graph
    /\ NoDup (DiGraph.node_ids Example.graph)
    /\ NoDup (map endpoints (g_edges Example.graph))
    /\ (forall n, In n (DiGraph.node_ids Example.graph)
                  <-> In n (map DOMAIN_ID (nodes_df Example.builder))
                      \/ exists row, In row (edges_df Example.builder)
                                     /\ (n = SOURCE_DOMAIN_ID row
                                         \/ n = TARGET_DOMAIN_ID row))
    /\ (forall u v, (exists d, In (u, v, d) (g_edges Example.graph))
                    <-> exists row, In row (edges_df Example.builder)
                                    /\ SOURCE_DOMAIN_ID row = u
                                    /\ TARGET_DOMAIN_ID row = v)
    /\ (forall n, is_Some (DiGraph.attrs_of (g_nodes Example.graph) n)
                  <-> In n (map DOMAIN_ID (nodes_df Example.builder))).
Proof.
  eexists.
  assert (Hbuild : _build_networkx_graph Example.builder
                     (match _assign_stacked_positions Example.builder with
                      | Ok p => p
                      | Raise _ => ∅
                      end) = Ok Example.graph) by (vm_compute; reflexivity).
  split; [exact Hbuild|].
  exact (built_graph_structure Example.builder _ Example.graph Hbuild).
Defined.

(** Of several dependency rows between the same two domains, the last one
    decides the data of the single edge that joins them. *)
Theorem last_dependency_row_wins (self : GraphBuilder) (positions : Positions)
    (G : DiGraph) (before after : list EdgeRow) (row : EdgeRow) :
  _build_networkx_graph self positions = Ok G ->
  edges_df self = before ++ row :: after ->
  (forall r, In r after ->
             (SOURCE_DOMAIN_ID r, TARGET_DOMAIN_ID r)
             <> (SOURCE_DOMAIN_ID row, TARGET_DOMAIN_ID row)) ->
  forall d, In (SOURCE_DOMAIN_ID row, TARGET_DOMAIN_ID row, d) (g_edges G)
            <-> d = row_data row.
Proof.
  intros Hrun Hrows Hafter.
  destruct (BuiltFacts.build_graph_loops _ _ _ Hrun) as (G1 & -> & Hnil & _).
  destruct (BuiltFacts.edge_loop (edges_df self) G1) as (_ & _ & _ & Hend & _).
  cbn zeta in Hend. specialize (Hend ltac:(rewrite Hnil; apply NoDup_nil_2)).
  assert (Hin : In (SOURCE_DOMAIN_ID row, TARGET_DOMAIN_ID row, row_data row)
                   (g_edges (fold_left edge_step (edges_df self) G1))).
  { rewrite Hrows, fold_left_app. cbn [fold_left].
    apply BuiltFacts.edge_loop_keeps; [exact Hafter|].
    unfold edge_step at 1, DiGraph.add_edge. cbn [g_edges].
    apply BuiltFacts.set_edge_self. }
  intros d. split; [|now intros ->].
  intros Hd.
  assert (Heq : (SOURCE_DOMAIN_ID row, TARGET_DOMAIN_ID row, d)
                = (SOURCE_DOMAIN_ID row, TARGET_DOMAIN_ID row, row_data row)).
  { eapply endpoints_unique; [exact Hend | exact Hd | exact Hin | reflexivity]. }
  now inversion Heq.
Qed.

Lemma last_dependency_row_wins_witness :
  exists positions G,
    _build_networkx_graph (Example.builder_of Example.nodes parallel_edges) positions
    = Ok G
    /\ edges_df (Example.builder_of Example.nodes parallel_edges)
       = [ Example.dependency "A" "B" 1 1 ] ++ Example.dependency "A" "B" 2 3 :: []
    /\ forall d, In ("A", "B", d) (g_edges G)
                 <-> d = row_data (Example.dependency "A" "B" 2 3).
Proof.
  eexists. eexists.
  assert (Hbuild : _build_networkx_graph (Example.builder_of Example.nodes parallel_edges)
                     (match _assign_stacked_positions
                              (Example.builder_of Example.nodes parallel_edges) with
                      | Ok p => p
                      | Raise _ => ∅
                      end)
                   = Ok (Example.graph_of (Example.builder_of Example.nodes parallel_edges)))
    by (vm_compute; reflexivity).
  split; [exact Hbuild|]. split; [vm_compute; reflexivity|].
  apply (last_dependency_row_wins _ _ _ [ Example.dependency "A" "B" 1 1 ] []
           (Example.dependency "A" "B" 2 3) Hbuild);
    [vm_compute; reflexivity | intros r []].
Defined.

(** A dependency on a domain that has no row in the node table still
    builds a graph, but the node it adds has no attributes: styling raises
    [KeyError] for "original_border", and so does [build_figure], whatever
    the selection, hover, mode and directions. *)
Theorem dangling_edge_raises (self : GraphBuilder) (positions : Positions)
    (G : DiGraph) (row : EdgeRow) :
  _assign_stacked_positions self = Ok positions ->
  _build_networkx_graph self positions = Ok G ->
  In row (edges_df self) ->
  ~ In (SOURCE_DOMAIN_ID row) (map DOMAIN_ID (nodes_df self))
  \/ ~ In (TARGET_DOMAIN_ID row) (map DOMAIN_ID (nodes_df self)) ->
  (forall selected hovered highlight_nodes dim_nodes,
     _apply_node_styles G selected hovered highlight_nodes dim_nodes
     = Raise (KeyError "original_border"))
  /\ forall valid_color selected directions mode hovered now,
       build_figure valid_color self selected directions mode hovered now
       = Raise (KeyError "original_border").
Proof.
  intros Hpos Hbuild Hrow Hdangling.
  assert (Hnone : NoDup (DiGraph.node_ids G) /\ exists n, In (n, None) (g_nodes G)).
  { destruct Hdangling as [H | H].
    - destruct (BuiltFacts.dangling_node self positions G row (SOURCE_DOMAIN_ID row))
        as [Hnd Hin]; eauto.
    - destruct (BuiltFacts.dangling_node self positions G row (TARGET_DOMAIN_ID row))
        as [Hnd Hin]; eauto. }
  destruct Hnone as (Hnd & n & Hn).
  assert (Hstyle : forall selected hovered highlight_nodes dim_nodes,
             _apply_node_styles G selected hovered highlight_nodes dim_nodes
             = Raise (KeyError "original_border")).
  { intros. rewrite StyleFacts.apply_node_styles_eq by exact Hnd.
    destruct (forallb _ (g_nodes G)) eqn:Hall; [|reflexivity].
    rewrite forallb_forall in Hall. specialize (Hall _ Hn).
    apply bool_decide_eq_true_1 in Hall. cbn [snd] in Hall. destruct Hall as [? [=]]. }
  split; [exact Hstyle|].
  intros. unfold build_figure. rewrite Hpos. cbn [mbind Result_bind].
  rewrite Hbuild. cbn [mbind Result_bind]. cbv zeta. rewrite Hstyle. reflexivity.
Qed.

Lemma dangling_edge_raises_witness :
  exists positions G,
    _assign_stacked_positions (Example.builder_of Example.nodes dangling_edges)
    = Ok positions
    /\ _build_networkx_graph (Example.builder_of Example.nodes dangling_edges) positions
       = Ok G
    /\ In (Example.dependency "A" "Z" 1 1)
          (edges_df (Example.builder_of Example.nodes dangling_edges))
    /\ ~ In "Z" (map DOMAIN_ID (nodes_df (Example.builder_of Example.nodes dangling_edges)))
    /\ (forall selected hovered highlight_nodes dim_nodes,
          _apply_node_styles G selected hovered highlight_nodes dim_nodes
          = Raise (KeyError "original_border"))
    /\ forall valid_color selected directions mode hovered now,
         build_figure valid_color (Example.builder_of Example.nodes dangling_edges)
           selected directions mode hovered now
         = Raise (KeyError "original_border").
Proof.
  eexists. eexists.
  assert (Hz : ~ In "Z" (map DOMAIN_ID
                           (nodes_df (Example.builder_of Example.nodes dangling_edges)))).
  { vm_compute. intros [H | [H | [H | []]]]; discriminate H. }
  assert (Hrow : In (Example.dependency "A" "Z" 1 1)
                    (edges_df (Example.builder_of Example.nodes dangling_edges)))
    by (vm_compute; now left).
  assert (Hpos : _assign_stacked_positions
                   (Example.builder_of Example.nodes dangling_edges)
                 = Ok (match _assign_stacked_positions
                               (Example.builder_of Example.nodes dangling_edges) with
                       | Ok p => p
                       | Raise _ => ∅
                       end)) by (vm_compute; reflexivity).
  assert (Hbuild : _build_networkx_graph (Example.builder_of Example.nodes dangling_edges)
                     (match _assign_stacked_positions
                              (Example.builder_of Example.nodes dangling_edges) with
                      | Ok p => p
                      | Raise _ => ∅
                      end)
                   = Ok (Example.graph_of (Example.builder_of Example.nodes dangling_edges)))
    by (vm_compute; reflexivity).
  split; [exact Hpos|]. split; [exact Hbuild|].
  split; [exact Hrow|]. split; [exact Hz|].
  exact (dangling_edge_raises (Example.builder_of Example.nodes dangling_edges) _ _
           (Example.dependency "A" "Z" 1 1) Hpos Hbuild Hrow (or_intror Hz)).
Defined.

(** ** The vertical grid of a bucket *)

Module GridFacts.

Lemma fold_Qplus_acc (l : list Q) :
  forall a, (fold_left Qplus l a == a + fold_left Qplus l 0)%Q.
Proof.
  induction l as [|x l IH]; intros a; simpl; [ring|].
  rewrite (IH (a + x)%Q), (IH (0 + x)%Q). ring.
Qed.

Lemma Qsum_cons (x : Q) (l : list Q) : (Qsum (x :: l) == x + Qsum l)%Q.
Proof. unfold Qsum. simpl. rewrite fold_Qplus_acc. ring. Qed.

Lemma Qsum_shift (m : Q) (l : list Q) :
  (Qsum (map (fun y => y - m) l) == Qsum l - inject_Z (Z.of_nat (length l)) * m)%Q.
Proof.
  induction l as [|x l IH].
  - unfold Qsum. simpl. ring.
  - cbn [map length]. rewrite !Qsum_cons, IH, Nat2Z.inj_succ.
    unfold Z.succ. rewrite inject_Z_plus. ring.
Qed.

Lemma map_nth_in {A B : Type} (f : A -> B) (l : list A) (i : nat) (d : A) (d' : B) :
  (i < length l)%nat -> nth i (map f l) d' = f (nth i l d).
Proof.
  revert i. induction l as [|x l IH]; intros [|i]; simpl; try lia; [reflexivity|].
  intros Hi. apply IH. lia.
Qed.

Lemma linspace_length (start stop : Q) (num : nat) :
  length (linspace start stop num) = num.
Proof. unfold linspace. now rewrite length_map, length_seq. Qed.

Lemma linspace_nth (start stop : Q) (num i : nat) :
  (i < num)%nat ->
  nth i (linspace start stop num) 0%Q
  = (start + inject_Z (Z.of_nat i)
             * ((stop - start) / inject_Z (Z.of_nat num - 1)))%Q.
Proof.
  intros Hi. unfold linspace.
  rewrite (map_nth_in _ _ _ 0%nat) by now rewrite length_seq.
  now rewrite seq_nth.
Qed.

End GridFacts.

(** The offsets that [_calculate_y_grid] returns for a bucket of [count]
    nodes are [count] values that add up to zero, each [y_spacing] above the
    one before it: the bucket is centred on the tier offset. *)
Theorem y_grid_centred_and_even (count : nat) (y_spacing : Q) :
  (1 <= count)%nat ->
  length (_calculate_y_grid count y_spacing) = count
  /\ (Qsum (_calculate_y_grid count y_spacing) == 0)%Q
  /\ forall i, (S i < count)%nat ->
       (nth (S i) (_calculate_y_grid count y_spacing) 0
        - nth i (_calculate_y_grid count y_spacing) 0 == y_spacing)%Q.
Proof.
  intros Hcount. unfold _calculate_y_grid.
  destruct (Nat.eqb_spec count 1) as [->|Hne].
  - split; [reflexivity|]. split; [reflexivity|]. intros i Hi. lia.
  - set (stop := (inject_Z (Z.of_nat count - 1) * y_spacing)%Q).
    set (grid := linspace 0 stop count).
    assert (Hlen : length grid = count) by apply GridFacts.linspace_length.
    assert (Hn : ~ (inject_Z (Z.of_nat count) == 0)%Q).
    { intros H. apply (eq_sym) in H. revert H. apply Qlt_not_eq.
      rewrite <- (Zlt_Qlt 0). lia. }
    assert (Hn1 : ~ (inject_Z (Z.of_nat count - 1) == 0)%Q).
    { intros H. apply (eq_sym) in H. revert H. apply Qlt_not_eq.
      rewrite <- (Zlt_Qlt 0). lia. }
    split; [now rewrite length_map|]. split.
    + rewrite GridFacts.Qsum_shift, Hlen. unfold mean. rewrite Hlen. field. exact Hn.
    + intros i Hi.
      rewrite !(GridFacts.map_nth_in _ grid _ 0%Q) by lia.
      subst grid. rewrite !GridFacts.linspace_nth by lia. subst stop.
      rewrite Nat2Z.inj_succ. unfold Z.succ. rewrite inject_Z_plus. field. exact Hn1.
Qed.

Lemma y_grid_centred_and_even_witness :
  (1 <= 3)%nat
  /\ length (_calculate_y_grid 3 0.7) = 3%nat
  /\ (Qsum (_calculate_y_grid 3 0.7) == 0)%Q
  /\ forall i, (S i < 3)%nat ->
       (nth (S i) (_calculate_y_grid 3 0.7) 0 - nth i (_calculate_y_grid 3 0.7) 0
        == 0.7)%Q.
Proof.
  split; [lia|]. apply (y_grid_centred_and_even 3 0.7). lia.
Defined.

(** ** Node dimensions *)

Module DimensionFacts.

Lemma Qmin_Qmax_range (lo hi x : Q) :
  (lo <= hi)%Q -> (lo <= Qmin (Qmax lo x) hi <= hi)%Q.
Proof.
  intros Hlh. unfold Qmin, Qmax.
  destruct (Qle_bool lo x) eqn:H1.
  - apply Qle_bool_iff in H1.
    destruct (Qle_bool x hi) eqn:H2.
    + apply Qle_bool_iff in H2. split; assumption.
    + split; [exact Hlh | apply Qle_refl].
  - destruct (Qle_bool lo hi) eqn:H2.
    + split; [apply Qle_refl | exact Hlh].
    + split; [exact Hlh | apply Qle_refl].
Qed.

Lemma optimal_width_range (column_nodes : list NodeRow) :
  (0.8 <= optimal_width column_nodes <= 1.6)%Q.
Proof.
  unfold optimal_width. destruct (Str.nonempty _).
  - destruct (_wrap_label_intelligently _) as [wrapped count].
    apply Qmin_Qmax_range. lra.
  - lra.
Qed.

Lemma column_widths_range (nodes : list NodeRow) (k : Z) (w : Q) :
  _calculate_optimal_column_widths nodes !! k = Some w -> (0.8 <= w <= 1.6)%Q.
Proof.
  unfold _calculate_optimal_column_widths. revert k w.
  apply (fold_left_inv (fun m : gmap Z Q =>
                          forall k w, m !! k = Some w -> (0.8 <= w <= 1.6)%Q)).
  - intros k w H. now rewrite lookup_empty in H.
  - intros m x _ IH k w. destruct (decide (x = k)) as [->|Hne].
    + rewrite lookup_insert_eq. intros [= <-]. apply optimal_width_range.
    + rewrite lookup_insert_ne by exact Hne. apply IH.
Qed.

Lemma line_count_positive (text : string) : 1 <= snd (_wrap_label_intelligently text).
Proof.
  unfold _wrap_label_intelligently.
  destruct (negb (Str.nonempty text)); [simpl; lia|].
  destruct (Str.split text) as [|w ws]; [simpl; lia|].
  cbv zeta. cbn [snd].
  match goal with
  | |- 1 <= Z.of_nat (length match ?l with [] => _ | _ :: _ => _ end) =>
      destruct l; simpl length; lia
  end.
Qed.

End DimensionFacts.

(** Every entry of the dimension table comes from a row of the node table:
    its width is the width of that row's column, between 0.8 and 1.6, so that
    the nodes of one column are equally wide; its height is 0.18 plus 0.12
    per line of the wrapped name, at least 0.30; its label is the wrapped
    name. *)
Theorem node_dimensions_bounds (nodes : list NodeRow)
    (dims : gmap string (Q * Q * string)) :
  _precalculate_node_dimensions nodes = Ok dims ->
  forall id w h l,
    dims !! id = Some (w, h, l) ->
    exists row,
      In row nodes /\ DOMAIN_ID row = id
      /\ _calculate_optimal_column_widths nodes !! X_GROUP row = Some w
      /\ l = fst (_wrap_label_intelligently (DOMAIN_NAME row))
      /\ h = (0.18 + inject_Z (snd (_wrap_label_intelligently (DOMAIN_NAME row)))
                     * 0.12)%Q
      /\ (0.8 <= w <= 1.6)%Q /\ (0.30 <= h)%Q.
Proof.
  unfold _precalculate_node_dimensions.
  apply (for_each_inv
           (fun dims : gmap string (Q * Q * string) =>
              forall id w h l,
                dims !! id = Some (w, h, l) ->
                exists row,
                  In row nodes /\ DOMAIN_ID row = id
                  /\ _calculate_optimal_column_widths nodes !! X_GROUP row = Some w
                  /\ l = fst (_wrap_label_intelligently (DOMAIN_NAME row))
                  /\ h = (0.18 + inject_Z (snd (_wrap_label_intelligently
                                                  (DOMAIN_NAME row))) * 0.12)%Q
                  /\ (0.8 <= w <= 1.6)%Q /\ (0.30 <= h)%Q)).
  - intros id w h l H. now rewrite lookup_empty in H.
  - intros dims0 row dims1 Hrow IH Hstep id w h l.
    destruct (_calculate_optimal_column_widths nodes !! X_GROUP row) as [cw|] eqn:Hcw;
      [|discriminate].
    pose proof (DimensionFacts.line_count_positive (DOMAIN_NAME row)) as Hlines.
    destruct (_wrap_label_intelligently (DOMAIN_NAME row)) as [wl lc] eqn:Hwrap.
    inversion Hstep; subst dims1; clear Hstep. cbn [fst snd] in *.
    destruct (decide (DOMAIN_ID row = id)) as [Heq|Hne].
    + rewrite Heq, lookup_insert_eq. intros [= <- <- <-].
      exists row. rewrite Hwrap. cbn [fst snd].
      split; [exact Hrow|]. split; [exact Heq|]. split; [exact Hcw|].
      split; [reflexivity|]. split; [reflexivity|].
      split; [eapply DimensionFacts.column_widths_range, Hcw|].
      assert (H1 : (1 <= inject_Z lc)%Q) by (rewrite <- (Zle_Qle 1); exact Hlines).
      lra.
    + rewrite lookup_insert_ne by exact Hne. apply IH.
Qed.

Lemma node_dimensions_bounds_witness :
  exists dims w h l,
    _precalculate_node_dimensions Example.nodes = Ok dims
    /\ dims !! "A" = Some (w, h, l)
    /\ exists row,
         In row Example.nodes /\ DOMAIN_ID row = "A"
         /\ _calculate_optimal_column_widths Example.nodes !! X_GROUP row = Some w
         /\ l = fst (_wrap_label_intelligently (DOMAIN_NAME row))
         /\ h = (0.18 + inject_Z (snd (_wrap_label_intelligently (DOMAIN_NAME row)))
                        * 0.12)%Q
         /\ (0.8 <= w <= 1.6)%Q /\ (0.30 <= h)%Q.
Proof.
  assert (Hdims : _precalculate_node_dimensions Example.nodes
                  = Ok (node_dimensions Example.builder)) by (vm_compute; reflexivity).
  assert (Hlook : node_dimensions Example.builder !! "A"
                  = Some (default (0%Q, 0%Q, "")
                            (node_dimensions Example.builder !! "A"))).
  { vm_compute. reflexivity. }
  eexists. exists (fst (fst (default (0%Q, 0%Q, "") (node_dimensions Example.builder !! "A")))).
  exists (snd (fst (default (0%Q, 0%Q, "") (node_dimensions Example.builder !! "A")))).
  exists (snd (default (0%Q, 0%Q, "") (node_dimensions Example.builder !! "A"))).
  split; [exact Hdims|].
  assert (Hlook' : node_dimensions Example.builder !! "A"
                   = Some (fst (fst (default (0%Q, 0%Q, "")
                                       (node_dimensions Example.builder !! "A"))),
                           snd (fst (default (0%Q, 0%Q, "")
                                       (node_dimensions Example.builder !! "A"))),
                           snd (default (0%Q, 0%Q, "")
                                  (node_dimensions Example.builder !! "A")))).
  { rewrite Hlook at 1. f_equal. }
  split; [exact Hlook'|].
  exact (node_dimensions_bounds Example.nodes _ Hdims "A" _ _ _ Hlook').
Defined.

(** ** Where the nodes are placed *)

(** What holds of every position in the table: it belongs to a row whose
    maturity is on one of the tier bands, and lies on the vertical line of
    that row's column. *)
Lemma tier_offsets_tiers (tier tier_offset : Q) :
  In (tier, tier_offset) _calculate_tier_offsets -> In tier (map fst TIER_BAND_COLORS).
Proof.
  unfold _calculate_tier_offsets. cbn [TIER_BAND_COLORS map fst length seq combine].
  intros [H | [H | [H | []]]]; inversion H; subst; simpl; auto.
Qed.

Lemma commit_on_column (P : string -> Q -> Prop) (x_group : Z) (tier_offset : Q)
    (l : list (Q * Q * NodeRow)) :
  (forall t, In t l ->
             P (DOMAIN_ID (snd t)) (inject_Z x_group * LayoutConfig.x_spacing)%Q) ->
  forall st : Positions * UsedCoords,
    (forall id x y, fst st !! id = Some (x, y) -> P id x) ->
    forall id x y,
      fst (fold_left
             (fun '(positions, used) '(offset, height, row) =>
                let x := (inject_Z x_group * LayoutConfig.x_spacing)%Q in
                let y := (tier_offset + offset)%Q in
                (<[ DOMAIN_ID row := (x, y) ]> positions,
                 used_set used (x_group, y) height))
             l st) !! id = Some (x, y) ->
      P id x.
Proof.
  induction l as [|[[offset height] row] l IH]; intros Hl [positions used] Hst;
    [exact Hst|].
  cbn [fold_left]. apply IH; [intros t Ht; apply Hl; now right|].
  cbn [fst]. intros id x y.
  destruct (decide (DOMAIN_ID row = id)) as [<-|Hne].
  - rewrite lookup_insert_eq. intros [= <- <-].
    apply (Hl (offset, height, row)). now left.
  - rewrite lookup_insert_ne by exact Hne. apply Hst.
Qed.

(** Every position that [_assign_stacked_positions] returns is the position
    of a row of the node table whose maturity is on one of the three tier
    bands, and its x coordinate is the row's column number times the column
    spacing: the nodes of one column are vertically aligned, and a domain
    off the tier bands has no position. *)
Theorem positions_on_columns (self : GraphBuilder) (positions : Positions) :
  _assign_stacked_positions self = Ok positions ->
  forall id x y,
    positions !! id = Some (x, y) ->
    exists row tier,
      In row (nodes_df self) /\ DOMAIN_ID row = id
      /\ x = (inject_Z (X_GROUP row) * LayoutConfig.x_spacing)%Q
      /\ In tier (map fst TIER_BAND_COLORS)
      /\ isclose (CURRENT_MATURITY row) tier = true.
Proof.
  unfold _assign_stacked_positions. intros Hrun. bind_inv Hrun.
  inversion Hrun; subst positions; clear Hrun.
  set (P := fun (id : string) (x : Q) =>
              exists row tier,
                In row (nodes_df self) /\ DOMAIN_ID row = id
                /\ x = (inject_Z (X_GROUP row) * LayoutConfig.x_spacing)%Q
                /\ In tier (map fst TIER_BAND_COLORS)
                /\ isclose (CURRENT_MATURITY row) tier = true).
  revert E.
  apply (for_each_inv
           (fun st : Positions * UsedCoords =>
              forall id x' y, fst st !! id = Some (x', y) -> P id x')).
  - intros id x' y H. cbn [fst] in H. now rewrite lookup_empty in H.
  - intros st [tier tier_offset] st' Htier Hst.
    apply tier_offsets_tiers in Htier.
    apply (for_each_inv
             (fun st : Positions * UsedCoords =>
                forall id x' y, fst st !! id = Some (x', y) -> P id x')); [exact Hst|].
    clear st st' Hst. intros st [x_group group] st' Hbucket Hst Hstep.
    unfold place_bucket in Hstep. bind_inv Hstep.
    inversion Hstep; subst st'; clear Hstep.
    apply commit_on_column; [|exact Hst].
    intros [[offset height] row] Ht. cbn [snd].
    apply in_combine_r in Ht. apply PositionFacts.sort_by_In in Ht.
    unfold groupby_x_group in Hbucket. apply in_map_iff in Hbucket as (k & [= <- <-] & _).
    apply filter_In in Ht as [Hrow Hk]. apply Z.eqb_eq in Hk.
    apply filter_In in Hrow as [Hrow Hclose].
    exists row, tier. rewrite Hk. auto.
Qed.

Lemma positions_on_columns_witness :
  exists positions x y,
    _assign_stacked_positions Example.builder = Ok positions
    /\ positions !! "B" = Some (x, y)
    /\ exists row tier,
         In row (nodes_df Example.builder) /\ DOMAIN_ID row = "B"
         /\ x = (inject_Z (X_GROUP row) * LayoutConfig.x_spacing)%Q
         /\ In tier (map fst TIER_BAND_COLORS)
         /\ isclose (CURRENT_MATURITY row) tier = true.
Proof.
  assert (Hpos : _assign_stacked_positions Example.builder
                 = Ok (match _assign_stacked_positions Example.builder with
                       | Ok p => p
                       | Raise _ => ∅
                       end)) by (vm_compute; reflexivity).
  assert (Hlook : (match _assign_stacked_positions Example.builder with
                   | Ok p => p
                   | Raise _ => ∅
                   end) !! "B" = Some ((6.8)%Q, (0.0)%Q)) by (vm_compute; reflexivity).
  eexists. eexists. eexists.
  split; [exact Hpos|]. split; [exact Hlook|].
  exact (positions_on_columns Example.builder _ Hpos "B" _ _ Hlook).
Defined.

(** ** Wrapped labels, line by line *)

Module WrapFacts.

Lemma join_snoc (sep x : string) (l : list string) :
  l <> [] -> String.concat sep (l ++ [x]) = String.concat sep l +:+ sep +:+ x.
Proof.
  induction l as [|a l IH]; [congruence|]. intros _.
  destruct l as [|b l]; [reflexivity|].
  change (String.concat sep ((a :: b :: l) ++ [x]))
    with (a +:+ sep +:+ String.concat sep ((b :: l) ++ [x])).
  rewrite IH by discriminate.
  change (String.concat sep (a :: b :: l))
    with (a +:+ sep +:+ String.concat sep (b :: l)).
  now rewrite !StrFacts.app_assoc.
Qed.

Lemma join_snoc_extend (sep a b : string) (l : list string) :
  String.concat sep (l ++ [a +:+ sep +:+ b])
  = String.concat sep (l ++ [a]) +:+ sep +:+ b.
Proof.
  destruct l as [|x l]; [reflexivity|].
  rewrite !join_snoc by discriminate. now rewrite !StrFacts.app_assoc.
Qed.

(** [wrap_lines] is the list behind the wrapper's result. *)
Lemma wrap_lines_eq (text : string) :
  _wrap_label_intelligently text
  = (Str.join "<br>" (wrap_lines text), Z.of_nat (length (wrap_lines text))).
Proof.
  unfold _wrap_label_intelligently, wrap_lines.
  destruct (Str.nonempty text) eqn:Hne; simpl negb; cbv iota.
  - destruct (Str.split text) as [|w ws]; reflexivity.
  - apply StrFacts.nonempty_false in Hne. now subst text.
Qed.

Section Loop.
Variable target_chars : nat.

Lemma wrap_step_inv (seen : list string) (st : WrapState) (w : string) :
  wrap_inv target_chars seen st -> Str.nonempty w = true -> fits target_chars w ->
  wrap_inv target_chars (seen ++ [w]) (wrap_step target_chars st w).
Proof.
  intros (Hls & Hcur & Hwords) Hw Hfit. unfold wrap_step.
  destruct (String.length _ <=? target_chars)%nat eqn:Htest.
  - apply Nat.leb_le in Htest. unfold wrap_inv. cbn [lines current_line].
    split; [exact Hls|]. split; [exact Htest|]. right.
    destruct Hwords as [(Hc & Hl & Hs) | (Hc & Hj & Hs & Hn)].
    + rewrite Hc, Hl, Hs. cbn. split; [exact Hw|]. split; [reflexivity|].
      split; [discriminate | lia].
    + rewrite Hc. split; [now apply StrFacts.nonempty_app_l|].
      unfold Str.join in *. rewrite join_snoc_extend, Hj, join_snoc by exact Hs.
      split; [reflexivity|]. split; [now destruct seen|].
      rewrite length_app. simpl. lia.
  - destruct (Str.nonempty (current_line st)) eqn:Hc.
    + unfold wrap_inv. cbn [lines current_line].
      split; [apply Forall_app; split; [exact Hls | now constructor]|].
      split; [exact Hfit|]. right. split; [exact Hw|].
      destruct Hwords as [(Hc' & _) | (_ & Hj & Hs & Hn)];
        [rewrite Hc' in Hc; discriminate|].
      unfold Str.join in *.
      rewrite join_snoc by now destruct (lines st).
      rewrite Hj, join_snoc by exact Hs.
      split; [reflexivity|]. split; [now destruct seen|].
      rewrite !length_app. simpl. lia.
    + apply StrFacts.nonempty_false in Hc. rewrite Hc in Htest. cbn in Htest.
      apply Nat.leb_gt in Htest. unfold fits in Hfit. lia.
Qed.

Lemma wrap_loop_inv (ws : list string) :
  forall seen st,
    wrap_inv target_chars seen st ->
    Forall (fun w => Str.nonempty w = true /\ fits target_chars w) ws ->
    wrap_inv target_chars (seen ++ ws) (fold_left (wrap_step target_chars) ws st).
Proof.
  induction ws as [|w ws IH]; intros seen st Hinv Hws; simpl.
  - now rewrite app_nil_r.
  - inversion Hws as [|? ? [Hw Hfit] Hrest]; subst.
    change (seen ++ w :: ws) with (seen ++ [w] ++ ws). rewrite app_assoc.
    apply IH; [now apply wrap_step_inv | exact Hrest].
Qed.
End Loop.

End WrapFacts.

(** When no word of the name is longer than the target line length, the
    wrapper breaks the name between words only: every line fits the target,
    the lines joined by blanks are the words of the name joined by blanks,
    and there are at most as many lines as words. *)
Theorem wrap_lines_fit (text : string) :
  Forall (fun w => (String.length w <= wrap_target text)%nat) (Str.split text) ->
  _wrap_label_intelligently text
  = (Str.join "<br>" (wrap_lines text), Z.of_nat (length (wrap_lines text)))
  /\ Forall (fun l => (String.length l <= wrap_target text)%nat) (wrap_lines text)
  /\ Str.join " " (wrap_lines text) = Str.join " " (Str.split text)
  /\ (1 <= length (wrap_lines text) <= Nat.max 1 (length (Str.split text)))%nat.
Proof.
  intros Hwords. split; [apply WrapFacts.wrap_lines_eq|].
  assert (Hinv : wrap_inv (wrap_target text) (Str.split text)
                   (fold_left (wrap_step (wrap_target text)) (Str.split text)
                      {| lines := []; current_line := "" |})).
  { apply (WrapFacts.wrap_loop_inv (wrap_target text) (Str.split text) []
             {| lines := []; current_line := "" |}).
    - split; [constructor|]. split; [unfold fits; simpl; lia|]. left. auto.
    - pose proof (StrFacts.split_nonempty text) as Hne.
      rewrite List.Forall_forall in *. intros w Hw. split; [apply Hne | apply Hwords];
        exact Hw. }
  unfold wrap_lines.
  destruct (fold_left _ _ _) as [ls cur]. destruct Hinv as (Hls & Hcur & Hst).
  cbn [lines current_line] in *.
  destruct Hst as [(-> & -> & ->) | (Hc & Hj & Hs & Hn)].
  - simpl. split; [repeat constructor; simpl; lia|]. split; [reflexivity | lia].
  - rewrite Hc.
    assert (Hl : match ls ++ [cur] with [] => [""] | _ :: _ => ls ++ [cur] end
                 = ls ++ [cur]) by now destruct ls.
    rewrite Hl. split; [apply Forall_app; split; [exact Hls | now constructor]|].
    split; [exact Hj|]. rewrite length_app. simpl. lia.
Qed.

Lemma wrap_lines_fit_witness :
  Forall (fun w => (String.length w <= wrap_target "Data Governance Office")%nat)
         (Str.split "Data Governance Office")
  /\ _wrap_label_intelligently "Data Governance Office"
     = (Str.join "<br>" (wrap_lines "Data Governance Office"),
        Z.of_nat (length (wrap_lines "Data Governance Office")))
  /\ Forall (fun l => (String.length l <= wrap_target "Data Governance Office")%nat)
            (wrap_lines "Data Governance Office")
  /\ Str.join " " (wrap_lines "Data Governance Office")
     = Str.join " " (Str.split "Data Governance Office")
  /\ (1 <= length (wrap_lines "Data Governance Office")
      <= Nat.max 1 (length (Str.split "Data Governance Office")))%nat.
Proof.
  assert (Hwords : Forall (fun w => (String.length w
                                     <= wrap_target "Data Governance Office")%nat)
                          (Str.split "Data Governance Office")).
  { apply List.Forall_forall. intros w Hw. vm_compute in Hw.
    destruct Hw as [<- | [<- | [<- | []]]]; vm_compute; lia. }
  split; [exact Hwords|]. apply (wrap_lines_fit "Data Governance Office" Hwords).
Defined.
